(** * Connector run engine: a shallow embedding of [flows/dlt_pipeline_flow.py]

    The development follows the Python module function by function.
    Values read from configuration dictionaries are Python values
    ([pyval]); dictionaries are finite maps; every call that leaves the
    process (object store, SFTP, HTTP, PostgreSQL, local file system) is a
    [call] answered by an [oracle] that sees the whole history, so that a
    theorem quantified over the oracle holds for every behaviour of the
    outside world.  Exceptions are the [Exc] outcome of the monad [M] and
    [try_except] is Python's [try ... except Exception]. *)

From Stdlib Require Import String Ascii List ZArith Lia Bool DecimalString.
From stdpp Require Import base gmap strings list.
Import ListNotations.

Open Scope string_scope.
Open Scope Z_scope.

(** ** Python strings *)

Module PyStr.

Definition slash : ascii := "/"%char.

Fixpoint drop_while_eq (c : ascii) (l : list ascii) : list ascii :=
  match l with
  | x :: l' => if Ascii.eqb x c then drop_while_eq c l' else l
  | [] => []
  end.

(** [s.rstrip('/')] *)
Definition rstrip_slash (s : string) : string :=
  string_of_list_ascii
    (rev (drop_while_eq slash (rev (list_ascii_of_string s)))).

(** [s.endswith('/')] *)
Definition endswith_slash (s : string) : bool :=
  match rev (list_ascii_of_string s) with
  | x :: _ => Ascii.eqb x slash
  | [] => false
  end.

Fixpoint last_segment (cur s : string) : string :=
  match s with
  | EmptyString => cur
  | String c s' =>
      if Ascii.eqb c slash then last_segment EmptyString s'
      else last_segment (cur +:+ String c EmptyString) s'
  end.

(** [s.split('/')[-1]] *)
Definition split_last (s : string) : string := last_segment EmptyString s.

(** [needle in hay] *)
Fixpoint contains (needle hay : string) : bool :=
  String.prefix needle hay
  || match hay with
     | EmptyString => false
     | String _ hay' => contains needle hay'
     end.

(** [s.startswith(p)] *)
Definition startswith (p s : string) : bool := String.prefix p s.

Definition upper_char (c : ascii) : ascii :=
  let n := nat_of_ascii c in
  if ((97 <=? n) && (n <=? 122))%nat then ascii_of_nat (n - 32) else c.

Definition lower_char (c : ascii) : ascii :=
  let n := nat_of_ascii c in
  if ((65 <=? n) && (n <=? 90))%nat then ascii_of_nat (n + 32) else c.

Fixpoint map_chars (f : ascii -> ascii) (s : string) : string :=
  match s with
  | EmptyString => EmptyString
  | String c s' => String (f c) (map_chars f s')
  end.

(** [s.upper()] and [s.lower()] on ASCII text *)
Definition upper (s : string) : string := map_chars upper_char s.
Definition lower (s : string) : string := map_chars lower_char s.

(** [os.path.join(a, b)] on POSIX *)
Definition path_join (a b : string) : string :=
  if String.prefix "/" b then b
  else if String.eqb a "" then b
  else if endswith_slash a then a +:+ b
  else a +:+ "/" +:+ b.

End PyStr.

(** ** Python values and dictionaries *)

Inductive pyval :=
| PNone
| PBool (b : bool)
| PInt (n : Z)
| PStr (s : string).

Definition pyval_eqb (a b : pyval) : bool :=
  match a, b with
  | PNone, PNone => true
  | PBool x, PBool y => Bool.eqb x y
  | PInt x, PInt y => Z.eqb x y
  | PStr x, PStr y => String.eqb x y
  | _, _ => false
  end.

(** Truth value of a Python object, as [if v:] and [v or w] test it. *)
Definition truthy (v : pyval) : bool :=
  match v with
  | PNone => false
  | PBool b => b
  | PInt n => negb (n =? 0)
  | PStr s => negb (String.eqb s "")
  end.

(** [a or b] *)
Definition py_or (a b : pyval) : pyval := if truthy a then a else b.

(** [str(v)], as an f-string renders a value. *)
Definition py_str (v : pyval) : string :=
  match v with
  | PNone => "None"
  | PBool true => "True"
  | PBool false => "False"
  | PInt n => NilZero.string_of_int (Z.to_int n)
  | PStr s => s
  end.

(** [v is None] *)
Definition is_none (v : pyval) : bool :=
  match v with PNone => true | _ => false end.

Abbreviation dict := (gmap string pyval).

(** [d.get(k)] *)
Definition get (d : dict) (k : string) : pyval := default PNone (d !! k).

(** [d.get(k, dflt)] *)
Definition get_or (d : dict) (k : string) (dflt : pyval) : pyval :=
  default dflt (d !! k).

(** [k in d] *)
Definition has_key (d : dict) (k : string) : bool :=
  match d !! k with Some _ => true | None => false end.

(** ** [fnmatch.fnmatch] on a POSIX host

    The standard library translates the pattern into a sequence of items
    and matches the whole name against it; [os.path.normcase] is the
    identity on POSIX.  [*] is any run of characters (slashes included),
    [?] one character, [[seq]] and [[!seq]] a character class with ranges;
    a [[] without a closing bracket is a literal. *)

Module Fnmatch.

Inductive item :=
| Star
| AnyChar
| Lit (c : ascii)
| Class (negated : bool) (members : list (ascii * ascii)).

Fixpoint until_close (l : list ascii) : option (list ascii * list ascii) :=
  match l with
  | [] => None
  | c :: l' =>
      if Ascii.eqb c "]" then Some ([], l')
      else match until_close l' with
           | Some (body, rest) => Some (c :: body, rest)
           | None => None
           end
  end.

(** The text after [[]: an optional [!], an optional literal []] in first
    position, then everything up to the closing bracket. *)
Definition class_split (l : list ascii)
  : option (bool * list ascii * list ascii) :=
  let '(neg, l1) :=
    match l with
    | c :: l' => if Ascii.eqb c "!" then (true, l') else (false, l)
    | [] => (false, l)
    end in
  match l1 with
  | c :: l2 =>
      if Ascii.eqb c "]" then
        match until_close l2 with
        | Some (body, rest) => Some (neg, c :: body, rest)
        | None => None
        end
      else
        match until_close l1 with
        | Some (body, rest) => Some (neg, body, rest)
        | None => None
        end
  | [] => None
  end.

Fixpoint class_members (l : list ascii) : list (ascii * ascii) :=
  match l with
  | lo :: l1 =>
      match l1 with
      | dash :: hi :: l' =>
          if Ascii.eqb dash "-" then (lo, hi) :: class_members l'
          else (lo, lo) :: class_members l1
      | _ => (lo, lo) :: class_members l1
      end
  | [] => []
  end.

Fixpoint translate (fuel : nat) (pat : list ascii) : list item :=
  match fuel with
  | O => []
  | S fuel' =>
      match pat with
      | [] => []
      | c :: p =>
          if Ascii.eqb c "*" then Star :: translate fuel' p
          else if Ascii.eqb c "?" then AnyChar :: translate fuel' p
          else if Ascii.eqb c "[" then
            match class_split p with
            | Some (neg, body, rest) =>
                Class neg (class_members body) :: translate fuel' rest
            | None => Lit c :: translate fuel' p
            end
          else Lit c :: translate fuel' p
      end
  end.

Definition in_range (c : ascii) (r : ascii * ascii) : bool :=
  (nat_of_ascii (fst r) <=? nat_of_ascii c)%nat
  && (nat_of_ascii c <=? nat_of_ascii (snd r))%nat.

Definition item_accepts (i : item) (c : ascii) : bool :=
  match i with
  | Star => true
  | AnyChar => true
  | Lit c' => Ascii.eqb c c'
  | Class neg rs => xorb neg (existsb (in_range c) rs)
  end.

Fixpoint matches (p : list item) (s : list ascii) {struct p} : bool :=
  match p with
  | [] => match s with [] => true | _ :: _ => false end
  | Star :: p' =>
      (fix star (s : list ascii) : bool :=
         matches p' s
         || match s with
            | [] => false
            | _ :: s' => star s'
            end) s
  | i :: p' =>
      match s with
      | [] => false
      | c :: s' => item_accepts i c && matches p' s'
      end
  end.

Definition fnmatch (name pat : string) : bool :=
  let p := list_ascii_of_string pat in
  matches (translate (length p) p) (list_ascii_of_string name).

End Fnmatch.

(** ** Results, exceptions and the outside world *)

Inductive exn_class :=
| RequestException   (* requests.exceptions.RequestException and subclasses *)
| ConnectTimeoutError  (* urllib3: the connection could not be made *)
| ReadTimeoutError     (* urllib3: no answer in time *)
| ProtocolError        (* urllib3: the connection broke *)
| SSLError             (* urllib3: the TLS layer failed *)
| IOError
| ValueError
| KeyError
| IndexError
| TypeError
| AttributeError
| OtherError.

(** An exception: its class and [str(e)]. *)
Record exn := Exn { exn_kind : exn_class; exn_msg : string }.

Definition is_request_exception (e : exn) : bool :=
  match exn_kind e with RequestException => true | _ => false end.

Definition is_io_error (e : exn) : bool :=
  match exn_kind e with IOError => true | _ => false end.

(** The errors of one attempt that urllib3 handles in [urlopen], as
    [Retry.increment] tells them apart: an error of the connection (the
    request did not reach the server), a read error (a socket error is
    wrapped in [ProtocolError]), any other. *)
Definition is_connection_error (e : exn) : bool :=
  match exn_kind e with ConnectTimeoutError => true | _ => false end.

Definition is_read_error (e : exn) : bool :=
  match exn_kind e with
  | ReadTimeoutError | ProtocolError | IOError => true
  | _ => false
  end.

Definition is_other_error (e : exn) : bool :=
  match exn_kind e with SSLError => true | _ => false end.

Definition is_wire_error (e : exn) : bool :=
  is_connection_error e || is_read_error e || is_other_error e.

Inductive status := Success | Failed.

(** [log_summary].  The texts that interpolate numbers are kept
    structured; each constructor quotes the source's f-string. *)
Inductive summary :=
| SError (e : exn)              (* "Error: {str(e)}" *)
| SFlowError (e : exn)          (* "Flow error: {str(e)}" *)
| SNoRows                       (* "Query returned no rows. No CSV file created." *)
| STransferred (n : Z)          (* "Transferred {n} file(s) to destination." *)
| SUploadedS3 (rows size : Z) (bucket : pyval) (key : string)
                                (* "Exported ... uploaded to s3://{bucket}/{key}" *)
| SUploadedSftp (rows size : Z) (remote : string)
                                (* "Exported ... uploaded to SFTP {remote_path}" *)
| SWroteFile (rows size : Z) (path : string)
                                (* "Exported ... wrote to {dest_file_path}" *)
| SLoaded (packages : Z) (moved : option Z).
                                (* "Pipeline completed successfully. Loaded ..." *)

(** The dictionary every pipeline step returns. *)
Record result := Result {
  res_status : status;
  rows_ingested : Z;
  log_summary : summary
}.

(** A row of a query result ([RealDictCursor]); [None] rows are guarded
    against by the export loop. *)
Definition row := list (string * pyval).

(** The row [read_connector_config] selects. *)
Record connector_row := ConnectorRow {
  row_name : string;
  source_config_override : option dict;
  destination_config_override : option dict;
  source_base_config : option dict;
  dest_base_config : option dict;
  row_source_type : option string;
  row_dest_type : option string
}.

(** Where [csv.DictWriter] writes: the scratch file or the [StringIO]. *)
Inductive csv_target :=
| ToFile (path : string)
| ToBuffer.

Inductive call :=
(* metadata store, [DATABASE_URL] *)
| MetaConnect
| MetaClose
| MetaCommit
| MetaRollback
| SelectConnector (connector_id : Z)
| InsertRun (connector_id : Z) (prefect_flow_run_id : string)
| UpdateRun (run_id : Z) (st : status) (rows : option Z)
            (text : option summary)
(* object store, boto3 *)
| S3Client
| ListObjectsV2 (bucket : pyval) (prefix : string)
| CopyObject (src_bucket : pyval) (key : string)
             (dst_bucket : pyval) (dst_key : string)
| DeleteObject (bucket : pyval) (key : string)
| DownloadFile (bucket : pyval) (key local : string)
| PutObject (bucket : pyval) (key : string)
| UploadFileobj (bucket : pyval) (key : string) (chunk_size_mb : pyval)
(* SFTP, paramiko *)
| Transport (host port : pyval)
| LoadPrivateKey (path : pyval)
| TransportConnect (username : pyval) (with_key : bool)
| SftpFromTransport
| SftpStat (path : string)
| SftpMkdir (path : string)
| SftpPut (local remote : string)
| SftpClose
| TransportClose
(* local files *)
| Makedirs (path : pyval)
| TemporaryDirectory
| CleanupDirectory (path : string)
| NamedTemporaryFile
| CloseFile (path : string)
| WriteFile (path : string)
| ReadFile (path : string)
| GetSize (path : string)
| BufferSize
| PathExists (path : string)
| Unlink (path : string)
| Copy2 (src dst : string)
(* HTTP, requests *)
| HttpSetup
| HttpSend (method : string) (url : pyval) (file_name : string)
           (multipart : bool)
| RetryAfterHeader
| SessionClose
(* source database, psycopg2 *)
| SourceConnect (host port database username password : pyval)
| SetSession
| OpenCursor (named : bool)
| Execute (query : pyval)
| Description
| FetchOne
| FetchMany (size : Z)
| FetchAll
| CloseCursor
| CloseSource
(* csv.DictWriter *)
| WriteHeader (target : csv_target) (columns : list string)
| WriteRow (target : csv_target) (r : row)
(* datetime.now().strftime(...) *)
| Timestamp
(* a replacement field of str.format with a conversion, a format
   specification or an attribute or index lookup *)
| FormatField (field project_id env : string)
(* dlt *)
| DltRun (connector_id : Z) (destination_type : string).

Inductive reply :=
| Raise (e : exn)
| Done
| Listing (contents : option (list string))   (* ['Contents'] keys, if any *)
| HttpStatus (code : Z)
| RunId (id : Z)
| Selected (r : option connector_row)
| Columns (description : option (list string))
| OneRow (r : option row)
| ManyRows (rs : list (option row))
| Text (s : string)                           (* a path, a timestamp *)
| Size (bytes : Z)
| Flag (b : bool)
| LoadInfo (packages rows : Z).

Definition event : Type := call * reply.

(** Newest event first. *)
Definition history : Type := list event.

Definition raised (r : reply) : bool :=
  match r with Raise _ => true | _ => false end.

(** ** The monad of effectful code *)

Inductive outcome (A : Type) :=
| Ret (a : A)
| Exc (e : exn)
| OutOfFuel.
Arguments Ret {A} a.
Arguments Exc {A} e.
Arguments OutOfFuel {A}.

Definition M (A : Type) : Type := history -> outcome A * history.

Definition ret {A} (a : A) : M A := fun h => (Ret a, h).

Definition raise {A} (e : exn) : M A := fun h => (Exc e, h).

Definition out_of_fuel {A} : M A := fun h => (OutOfFuel, h).

Definition bind {A B} (m : M A) (k : A -> M B) : M B :=
  fun h =>
    match m h with
    | (Ret a, h') => k a h'
    | (Exc e, h') => (Exc e, h')
    | (OutOfFuel, h') => (OutOfFuel, h')
    end.

Notation "x <- m ;; k" := (bind m (fun x => k))
  (at level 100, m at next level, right associativity).
Notation "m ;;; k" := (bind m (fun _ => k))
  (at level 100, right associativity).

(** [try: body except Exception as e: handler(e)] *)
Definition try_except {A} (body : M A) (handler : exn -> M A) : M A :=
  fun h =>
    match body h with
    | (Exc e, h') => handler e h'
    | other => other
    end.

(** [try: body except <class>: handler(e)], other classes propagate. *)
Definition try_except_if {A} (catches : exn -> bool)
           (body : M A) (handler : exn -> M A) : M A :=
  fun h =>
    match body h with
    | (Exc e, h') => if catches e then handler e h' else (Exc e, h')
    | other => other
    end.

(** [try: body finally: final].  An exception of [final] replaces the
    outcome of [body]. *)
Definition try_finally {A} (body : M A) (final : M unit) : M A :=
  fun h =>
    match body h with
    | (OutOfFuel, h') => (OutOfFuel, h')
    | (o, h') =>
        match final h' with
        | (Ret _, h'') => (o, h'')
        | (Exc e, h'') => (Exc e, h'')
        | (OutOfFuel, h'') => (OutOfFuel, h'')
        end
    end.

(** A bare [try: body except: pass]. *)
Definition try_pass (body : M unit) : M unit :=
  try_except body (fun _ => ret tt).

Definition type_error {A} (msg : string) : M A := raise (Exn TypeError msg).

Definition attribute_error {A} (msg : string) : M A :=
  raise (Exn AttributeError msg).

(** A method of [str] called on a configuration value. *)
Definition as_str (v : pyval) : M string :=
  match v with
  | PStr s => ret s
  | _ => attribute_error "object has no such str method"
  end.

(** The dictionary [read_connector_config] returns. *)
Record config := Config {
  connector_id : Z;
  connector_name : string;
  source_type : string;
  source_config : dict;
  destination_type : string;
  destination_config : dict
}.

Section Engine.

(** The outside world: what each call answers, given everything that
    happened before. *)
Variable oracle : history -> call -> reply.

(** The process environment, [os.getenv]. *)
Variable getenv : string -> option string.

(** Whether [import dlt] succeeded at load time. *)
Variable DLT_AVAILABLE : bool.

Definition perform (c : call) : M reply :=
  fun h =>
    let r := oracle h c in
    match r with
    | Raise e => (Exc e, (c, r) :: h)
    | _ => (Ret r, (c, r) :: h)
    end.

Definition perform_ (c : call) : M unit := perform c ;;; ret tt.

(** *** [get_s3_credentials] *)

Definition nonempty (d : dict) : bool := negb (bool_decide (d = ∅)).

Definition opt_str (o : option string) : pyval :=
  match o with Some s => PStr s | None => PNone end.

Definition getenv_or (name dflt : string) : pyval :=
  PStr (default dflt (getenv name)).

Definition get_s3_credentials (config : dict) : dict :=
  let storage_env :=
    PyStr.lower (default "production" (getenv "STORAGE_ENVIRONMENT")) in
  if String.eqb storage_env "production" then
    <["aws_access_key_id" :=
        if nonempty config then get config "aws_access_key_id"
        else opt_str (getenv "AWS_ACCESS_KEY_ID")]>
    (<["aws_secret_access_key" :=
        if nonempty config then get config "aws_secret_access_key"
        else opt_str (getenv "AWS_SECRET_ACCESS_KEY")]>
    (<["region_name" :=
        if nonempty config then get config "region"
        else getenv_or "AWS_REGION" "us-east-1"]> ∅))
  else
    <["aws_access_key_id" :=
        if nonempty config then get config "aws_access_key_id"
        else getenv_or "MINIO_ACCESS_KEY" "minioadmin"]>
    (<["aws_secret_access_key" :=
        if nonempty config then get config "aws_secret_access_key"
        else getenv_or "MINIO_SECRET_KEY" "minioadmin"]>
    (<["endpoint_url" :=
        if nonempty config then get config "endpoint_url"
        else getenv_or "MINIO_ENDPOINT" "http://minio:9000"]> ∅)).

(** *** File matching

    [file_pattern] comes from the configuration; [fnmatch] raises
    [TypeError] on a pattern that is not a string. *)

Definition fnmatch (name : string) (pat : pyval) : M bool :=
  match pat with
  | PStr p => ret (Fnmatch.fnmatch name p)
  | _ => type_error "expected str, bytes or os.PathLike object"
  end.

(** [f"{prefix}{file_pattern}"], used only after [fnmatch] accepted the
    pattern as a string. *)
Definition prefixed (prefix : string) (pat : pyval) : pyval :=
  match pat with
  | PStr p => PStr (prefix +:+ p)
  | other => other
  end.

(** The test of [move_processed_files_function], lines 246-254. *)
Definition matches_pattern (prefix : string) (file_pattern : pyval)
           (file_key file_name : string) : M bool :=
  if pyval_eqb file_pattern (PStr "*") then ret true
  else
    a <- fnmatch file_name file_pattern ;;
    if a then ret true
    else
      b <- fnmatch file_key (prefixed prefix file_pattern) ;;
      if b then ret true
      else fnmatch file_key file_pattern.

(** The test of the SFTP, filesystem and REST adapters, lines 338, 404
    and 527-529. *)
Definition matches_pattern_batch (prefix : string) (file_pattern : pyval)
           (file_key file_name : string) : M bool :=
  a <- fnmatch file_name file_pattern ;;
  if a then ret true
  else
    b <- fnmatch file_key (prefixed prefix file_pattern) ;;
    if b then ret true
    else ret (pyval_eqb file_pattern (PStr "*")).

(** [source_config.get("path", "").rstrip('/')] and the listing prefix. *)
Definition source_prefix (source_config : dict) : M string :=
  source_path <- as_str (get_or source_config "path" (PStr "")) ;;
  let source_path := PyStr.rstrip_slash source_path in
  ret (if String.eqb source_path "" then "" else source_path +:+ "/").

(** [response = s3_client.list_objects_v2(...)]; the keys under
    ['Contents'], or [None] when the response has no such entry. *)
Definition list_objects_v2 (bucket : pyval) (prefix : string)
  : M (option (list string)) :=
  r <- perform (ListObjectsV2 bucket prefix) ;;
  match r with
  | Listing contents => ret contents
  | _ => type_error "list_objects_v2: not a response"
  end.

(** *** [move_processed_files_function] *)

Fixpoint move_loop (source_bucket dest_bucket : pyval)
         (prefix dest_prefix : string) (file_pattern : pyval)
         (contents : list string) (moved_count : Z) : M Z :=
  match contents with
  | [] => ret moved_count
  | file_key :: rest =>
      let file_name := PyStr.split_last file_key in
      if PyStr.endswith_slash file_key then
        move_loop source_bucket dest_bucket prefix dest_prefix
                  file_pattern rest moved_count
      else
        matches <- matches_pattern prefix file_pattern file_key file_name ;;
        if (matches : bool) then
          let dest_key :=
            if String.eqb dest_prefix "" then file_name
            else dest_prefix +:+ "/" +:+ file_name in
          perform (CopyObject source_bucket file_key dest_bucket dest_key) ;;;
          perform (DeleteObject source_bucket file_key) ;;;
          move_loop source_bucket dest_bucket prefix dest_prefix
                    file_pattern rest (moved_count + 1)
        else
          move_loop source_bucket dest_bucket prefix dest_prefix
                    file_pattern rest moved_count
  end.

(** The [try] block.  The credentials only select the keyword
    arguments of [boto3.client]; the client construction is one call. *)
Definition move_processed_files_try
           (source_config destination_config credentials : dict) : M Z :=
  perform S3Client ;;;
  let source_bucket := get source_config "bucket" in
  prefix <- source_prefix source_config ;;
  let file_pattern := get_or source_config "file_pattern" (PStr "*") in
  let dest_bucket := get destination_config "bucket" in
  dest_prefix <- as_str (get_or destination_config "prefix" (PStr "")) ;;
  let dest_prefix := PyStr.rstrip_slash dest_prefix in
  response <- list_objects_v2 source_bucket prefix ;;
  match response with
  | Some contents =>
      move_loop source_bucket dest_bucket prefix dest_prefix
                file_pattern contents 0
  | None => ret 0
  end.

Definition move_processed_files_function
           (source_config destination_config credentials : dict) : M Z :=
  try_except
    (move_processed_files_try source_config destination_config credentials)
    (fun _ => ret 0).

(** *** [transfer_to_sftp_function] *)

Definition new_path (c : call) : M string :=
  r <- perform c ;;
  match r with
  | Text p => ret p
  | _ => type_error "not a path"
  end.

Fixpoint sftp_loop (source_bucket : pyval) (prefix : string)
         (file_pattern sftp_dest_path : pyval) (tmpdir : string)
         (contents : list string) (transferred_count : Z) : M Z :=
  match contents with
  | [] => ret transferred_count
  | file_key :: rest =>
      let file_name := PyStr.split_last file_key in
      if PyStr.endswith_slash file_key then
        sftp_loop source_bucket prefix file_pattern sftp_dest_path tmpdir
                  rest transferred_count
      else
        matches <-
          matches_pattern_batch prefix file_pattern file_key file_name ;;
        if (matches : bool) then
          let local_file := PyStr.path_join tmpdir file_name in
          perform (DownloadFile source_bucket file_key local_file) ;;;
          dest <- as_str sftp_dest_path ;;
          let remote_path := PyStr.rstrip_slash dest +:+ "/" +:+ file_name in
          perform (SftpPut local_file remote_path) ;;;
          perform (DeleteObject source_bucket file_key) ;;;
          sftp_loop source_bucket prefix file_pattern sftp_dest_path tmpdir
                    rest (transferred_count + 1)
        else
          sftp_loop source_bucket prefix file_pattern sftp_dest_path tmpdir
                    rest transferred_count
  end.

(** [with tempfile.TemporaryDirectory() as tmpdir: body] *)
Definition with_temporary_directory {A} (body : string -> M A) : M A :=
  tmpdir <- new_path TemporaryDirectory ;;
  try_finally (body tmpdir) (perform_ (CleanupDirectory tmpdir)).

(** The [try] block. *)
Definition transfer_to_sftp_try
           (source_config destination_config credentials : dict) : M Z :=
  perform S3Client ;;;
  let sftp_host := get_or destination_config "host" (PStr "truenas-ip") in
  let sftp_port := get_or destination_config "port" (PInt 22) in
  let sftp_username := get destination_config "username" in
  let sftp_key_path := get destination_config "pkey_path" in
  let sftp_dest_path := get_or destination_config "path" (PStr "/") in
  perform (Transport sftp_host sftp_port) ;;;
  (if truthy sftp_key_path then
     perform (LoadPrivateKey sftp_key_path) ;;;
     perform_ (TransportConnect sftp_username true)
   else
     perform_ (TransportConnect sftp_username false)) ;;;
  perform SftpFromTransport ;;;
  let source_bucket := get source_config "bucket" in
  prefix <- source_prefix source_config ;;
  let file_pattern := get_or source_config "file_pattern" (PStr "*") in
  response <- list_objects_v2 source_bucket prefix ;;
  transferred_count <-
    match response with
    | Some contents =>
        with_temporary_directory (fun tmpdir =>
          sftp_loop source_bucket prefix file_pattern sftp_dest_path
                    tmpdir contents 0)
    | None => ret 0
    end ;;
  perform SftpClose ;;;
  perform TransportClose ;;;
  ret transferred_count.

Definition transfer_to_sftp_function
           (source_config destination_config credentials : dict) : M Z :=
  try_except
    (transfer_to_sftp_try source_config destination_config credentials)
    (fun _ => ret 0).

(** *** [transfer_to_filesystem_function] *)

Fixpoint filesystem_loop (source_bucket : pyval) (prefix : string)
         (file_pattern dest_path : pyval)
         (contents : list string) (transferred_count : Z) : M Z :=
  match contents with
  | [] => ret transferred_count
  | file_key :: rest =>
      let file_name := PyStr.split_last file_key in
      if PyStr.endswith_slash file_key then
        filesystem_loop source_bucket prefix file_pattern dest_path
                        rest transferred_count
      else
        matches <-
          matches_pattern_batch prefix file_pattern file_key file_name ;;
        if (matches : bool) then
          dest <- as_str dest_path ;;
          let local_file := PyStr.path_join dest file_name in
          perform (DownloadFile source_bucket file_key local_file) ;;;
          perform (DeleteObject source_bucket file_key) ;;;
          filesystem_loop source_bucket prefix file_pattern dest_path
                          rest (transferred_count + 1)
        else
          filesystem_loop source_bucket prefix file_pattern dest_path
                          rest transferred_count
  end.

(** The [try] block. *)
Definition transfer_to_filesystem_try
           (source_config destination_config credentials : dict) : M Z :=
  perform S3Client ;;;
  let dest_path :=
    get_or destination_config "path" (PStr "/mnt/destination") in
  perform (Makedirs dest_path) ;;;
  let source_bucket := get source_config "bucket" in
  prefix <- source_prefix source_config ;;
  let file_pattern := get_or source_config "file_pattern" (PStr "*") in
  response <- list_objects_v2 source_bucket prefix ;;
  match response with
  | Some contents =>
      filesystem_loop source_bucket prefix file_pattern dest_path
                      contents 0
  | None => ret 0
  end.

Definition transfer_to_filesystem_function
           (source_config destination_config credentials : dict) : M Z :=
  try_except
    (transfer_to_filesystem_try source_config destination_config credentials)
    (fun _ => ret 0).

(** *** [transfer_to_rest_api_function]

    [Retry(total=3, backoff_factor=1, status_forcelist=[...],
    allowed_methods=[...])] mounted on the session (lines 496-506).  One
    [HttpSend] is one attempt of urllib3 to send the request: its reply is
    the status of the response, or the error of the attempt.
    [session_request] is what [session.request] makes of the attempts with
    this [Retry], after urllib3's [Retry.is_retry] and [Retry.increment]:

    - a response is sent again when the method is one of the allowed ones
      and the status is in the force list, or, while [total] is not used
      up, the response carries a [Retry-After] header and the status is
      one of 413, 429, 503;
    - an error of the connection, or any other error of the attempt, is
      counted against [total] whatever the method; a read error only for
      an allowed method, and ends the request otherwise;
    - when [total] is used up the request ends in an exception; every
      exception of an attempt leaves [session.request] as a
      [requests.exceptions.RequestException] ([RetryError],
      [ConnectionError], [ConnectTimeout], [ReadTimeout], [SSLError]).

    A reply carries the status code only.  The [Retry-After] header of the
    response just received is read off the world at that point
    ([RetryAfterHeader]); it came with the response, so reading it is no
    event.  The time slept between attempts is not part of the model, and
    neither are redirects, which [requests] follows above the adapter: a
    response is one that [requests] hands back. *)

Definition retry_total : nat := 3.
Definition status_forcelist : list Z := [429; 500; 502; 503; 504].
Definition allowed_methods : list string := ["POST"; "PUT"; "PATCH"].

(** [Retry.RETRY_AFTER_STATUS_CODES] *)
Definition retry_after_status_codes : list Z := [413; 429; 503].

(** [Retry._is_method_retryable] *)
Definition is_method_retryable (method : string) : bool :=
  existsb (String.eqb method) allowed_methods.

(** [Retry.is_retry], the force list. *)
Definition is_retry (method : string) (code : Z) : bool :=
  existsb (String.eqb method) allowed_methods
  && existsb (Z.eqb code) status_forcelist.

(** [Retry.is_retry], the [Retry-After] header: [self.total and
    self.respect_retry_after_header and has_retry_after and status_code
    in self.RETRY_AFTER_STATUS_CODES], for a retryable method. *)
Definition is_retry_after (retries : nat) (method : string) (code : Z)
           (retry_after : bool) : bool :=
  is_method_retryable method && negb (Nat.eqb retries 0) && retry_after
  && existsb (Z.eqb code) retry_after_status_codes.

(** [Retry.increment] on the error of an attempt: whether it is counted
    against [total] (and the request sent again while [total] lasts) or
    raised at once. *)
Definition is_retried_error (method : string) (e : exn) : bool :=
  is_connection_error e || is_other_error e
  || (is_read_error e && is_method_retryable method).

(** [bool(response.headers.get("Retry-After"))] *)
Definition has_retry_after : M bool :=
  fun h =>
    (Ret (match oracle h RetryAfterHeader with Flag b => b | _ => false end),
     h).

Fixpoint session_request (retries : nat) (method : string) (url : pyval)
         (file_name : string) (multipart : bool) : M Z :=
  let again : M Z :=
    match retries with
    | O => raise (Exn RequestException "Max retries exceeded")
    | S retries' =>
        session_request retries' method url file_name multipart
    end in
  attempt <-
    try_except_if is_wire_error
      (r <- perform (HttpSend method url file_name multipart) ;;
       ret (inr r))
      (fun e => ret (inl e)) ;;
  match attempt with
  | inl e =>
      if is_retried_error method e then again
      else raise (Exn RequestException (exn_msg e))
  | inr (HttpStatus code) =>
      retry_after <- has_retry_after ;;
      if is_retry method code
         || is_retry_after retries method code retry_after
      then again
      else ret code
  | inr _ => type_error "session.request: not a response"
  end.

(** [api_response.raise_for_status()] *)
Definition raise_for_status (code : Z) : M unit :=
  if (400 <=? code) && (code <? 600)
  then raise (Exn RequestException "HTTPError")
  else ret tt.

(** Lines 536-581: the upload of one downloaded file.  [true] when the
    file was transferred, [false] when the request failed and the loop
    goes on to the next file. *)
Definition rest_upload (source_bucket : pyval) (file_key file_name : string)
           (local_file http_method : string) (api_url : pyval)
           (use_multipart : bool) : M bool :=
  try_except_if is_request_exception
    (perform (ReadFile local_file) ;;;
     code <- session_request retry_total http_method api_url file_name
                             use_multipart ;;
     raise_for_status code ;;;
     perform (DeleteObject source_bucket file_key) ;;;
     ret true)
    (fun _ => ret false).

Fixpoint rest_loop (source_bucket : pyval) (prefix : string)
         (file_pattern : pyval) (http_method : string) (api_url : pyval)
         (use_multipart : bool) (tmpdir : string)
         (contents : list string) (transferred_count : Z) : M Z :=
  match contents with
  | [] => ret transferred_count
  | file_key :: rest =>
      let file_name := PyStr.split_last file_key in
      if PyStr.endswith_slash file_key then
        rest_loop source_bucket prefix file_pattern http_method api_url
                  use_multipart tmpdir rest transferred_count
      else
        matches <-
          matches_pattern_batch prefix file_pattern file_key file_name ;;
        if (matches : bool) then
          let local_file := PyStr.path_join tmpdir file_name in
          perform (DownloadFile source_bucket file_key local_file) ;;;
          sent <- rest_upload source_bucket file_key file_name local_file
                              http_method api_url use_multipart ;;
          rest_loop source_bucket prefix file_pattern http_method api_url
                    use_multipart tmpdir rest
                    (if (sent : bool) then transferred_count + 1
                     else transferred_count)
        else
          rest_loop source_bucket prefix file_pattern http_method api_url
                    use_multipart tmpdir rest transferred_count
  end.

(** The [try] block.  Headers, authentication and the mounting of the
    retry adapter (lines 462-506) touch nothing outside the process; their
    faults, on ill-typed configuration values, are the reply to
    [HttpSetup]. *)
Definition transfer_to_rest_api_try
        (source_config destination_config credentials : dict) : M Z :=
  let endpoint :=
    py_or (get source_config "endpoint_url")
          (get_or credentials "endpoint_url"
                  (PStr "http://minio:9000")) in
  as_str endpoint ;;;
  perform S3Client ;;;
  let api_url :=
    py_or (get destination_config "url")
          (get destination_config "endpoint_url") in
  (if truthy api_url then ret tt
   else raise (Exn ValueError
     "REST API destination requires 'url' or 'endpoint_url' in destination_config")) ;;;
  http_method <- as_str (get_or destination_config "method" (PStr "POST")) ;;
  let http_method := PyStr.upper http_method in
  let use_multipart :=
    truthy (get_or destination_config "use_multipart" (PBool true)) in
  perform HttpSetup ;;;
  let source_bucket := get source_config "bucket" in
  prefix <- source_prefix source_config ;;
  let file_pattern := get_or source_config "file_pattern" (PStr "*") in
  response <- list_objects_v2 source_bucket prefix ;;
  transferred_count <-
    match response with
    | Some contents =>
        with_temporary_directory (fun tmpdir =>
          rest_loop source_bucket prefix file_pattern http_method
                    api_url use_multipart tmpdir contents 0)
    | None => ret 0
    end ;;
  perform SessionClose ;;;
  ret transferred_count.

Definition transfer_to_rest_api_function
           (source_config destination_config credentials : dict) : M Z :=
  try_except
    (transfer_to_rest_api_try source_config destination_config credentials)
    (fun _ => ret 0).

(** *** [transfer_files_function] *)

Definition transfer_files_function
           (source_config destination_config credentials : dict)
           (destination_type : string) : M Z :=
  if String.eqb destination_type "s3" then
    move_processed_files_function source_config destination_config
                                  credentials
  else if String.eqb destination_type "sftp" then
    transfer_to_sftp_function source_config destination_config credentials
  else if String.eqb destination_type "nfs"
          || String.eqb destination_type "filesystem" then
    transfer_to_filesystem_function source_config destination_config
                                    credentials
  else if String.eqb destination_type "rest_api" then
    transfer_to_rest_api_function source_config destination_config
                                  credentials
  else ret 0.

(** *** [transfer_csv_to_sftp] *)

Definition size_of (c : call) : M Z :=
  r <- perform c ;;
  match r with
  | Size n => ret n
  | _ => type_error "not a size"
  end.

(** The handler shared by both CSV transfers, lines 660-672 and 708-720:
    [if os.path.exists(p): os.unlink(p)] under a bare [try]. *)
Definition cleanup_on_error (csv_file_path : string) : M unit :=
  try_pass
    (r <- perform (PathExists csv_file_path) ;;
     match r with
     | Flag true => perform_ (Unlink csv_file_path)
     | Flag false => ret tt
     | _ => type_error "not a bool"
     end).

Definition transfer_csv_to_sftp (csv_file_path csv_filename : string)
           (destination_config : dict) (row_count : Z) : M result :=
  try_except
    (let sftp_host := get destination_config "host" in
     let sftp_port := get_or destination_config "port" (PInt 22) in
     let sftp_username := get destination_config "username" in
     let sftp_password := get destination_config "password" in
     let sftp_key_path := get destination_config "pkey_path" in
     let sftp_dest_path := get_or destination_config "path" (PStr "/") in
     (if negb (truthy sftp_host) || negb (truthy sftp_username) then
        raise (Exn ValueError
          "SFTP destination requires 'host' and 'username' in destination_config")
      else ret tt) ;;;
     perform (Transport sftp_host sftp_port) ;;;
     try_finally
       ((if truthy sftp_key_path then
           perform (LoadPrivateKey sftp_key_path) ;;;
           perform_ (TransportConnect sftp_username true)
         else
           (if negb (truthy sftp_password) then
              raise (Exn ValueError
                "SFTP destination requires 'password' or 'pkey_path' in destination_config")
            else ret tt) ;;;
           perform_ (TransportConnect sftp_username false)) ;;;
        perform SftpFromTransport ;;;
        dest <- as_str sftp_dest_path ;;
        try_except_if is_io_error
          (perform_ (SftpStat dest))
          (fun _ => try_pass (perform_ (SftpMkdir dest))) ;;;
        let remote_path := PyStr.rstrip_slash dest +:+ "/" +:+ csv_filename in
        perform (SftpPut csv_file_path remote_path) ;;;
        file_size <- size_of (GetSize csv_file_path) ;;
        perform SftpClose ;;;
        perform TransportClose ;;;
        perform (Unlink csv_file_path) ;;;
        ret (Result Success row_count
                    (SUploadedSftp row_count file_size remote_path)))
       (try_pass (perform_ TransportClose)))
    (fun e =>
       cleanup_on_error csv_file_path ;;;
       ret (Result Failed 0 (SError e))).

(** *** [transfer_csv_to_filesystem] *)

(** A component of [os.path.join]: anything but a string is a
    [TypeError]. *)
Definition path_component (v : pyval) : M string :=
  match v with
  | PStr s => ret s
  | _ => type_error "join() argument must be str, bytes, or os.PathLike object"
  end.

(** [csv_filename] is the value of the configuration as it is: line 690
    joins it to the destination path. *)
Definition transfer_csv_to_filesystem (csv_file_path : string)
           (csv_filename : pyval) (destination_config : dict)
           (row_count : Z) : M result :=
  try_except
    (let dest_path :=
       get_or destination_config "path" (PStr "/mnt/destination") in
     (if negb (truthy dest_path) then
        raise (Exn ValueError
          "Filesystem destination requires 'path' in destination_config")
      else ret tt) ;;;
     perform (Makedirs dest_path) ;;;
     dest <- as_str dest_path ;;
     name <- path_component csv_filename ;;
     let dest_file_path := PyStr.path_join dest name in
     perform (Copy2 csv_file_path dest_file_path) ;;;
     file_size <- size_of (GetSize dest_file_path) ;;
     perform (Unlink csv_file_path) ;;;
     ret (Result Success row_count
                 (SWroteFile row_count file_size dest_file_path)))
    (fun e =>
       cleanup_on_error csv_file_path ;;;
       ret (Result Failed 0 (SError e))).

(** *** [handle_database_source] *)

(** [', '.join(fields)] *)
Fixpoint join_comma (fields : list string) : string :=
  match fields with
  | [] => ""
  | [f] => f
  | f :: rest => f +:+ ", " +:+ join_comma rest
  end.

(** An integer configuration value in a comparison or as a fetch size;
    [bool] is a subclass of [int]. *)
Definition as_int (v : pyval) : M Z :=
  match v with
  | PInt n => ret n
  | PBool b => ret (if b then 1 else 0)
  | _ => type_error "not an integer"
  end.

Definition description : M (option (list string)) :=
  r <- perform Description ;;
  match r with
  | Columns d => ret d
  | _ => type_error "not a description"
  end.

Definition fetchone : M (option row) :=
  r <- perform FetchOne ;;
  match r with
  | OneRow x => ret x
  | _ => type_error "not a row"
  end.

Definition fetch_rows (c : call) : M (list (option row)) :=
  r <- perform c ;;
  match r with
  | ManyRows rs => ret rs
  | _ => type_error "not a list of rows"
  end.

(** Lines 894-899: [for row in rows], skipping [None]. *)
Fixpoint write_batch (target : csv_target) (rows : list (option row))
         (row_count : Z) : M Z :=
  match rows with
  | [] => ret row_count
  | None :: rest => write_batch target rest row_count
  | Some r :: rest =>
      perform (WriteRow target r) ;;;
      write_batch target rest (row_count + 1)
  end.

(** Lines 875-911: the [while True] loop.  [fuel] bounds the number of
    [fetchmany] rounds the model follows. *)
Fixpoint fetch_loop (fuel : nat) (use_server_side_cursor : bool)
         (batch_size : pyval) (target : csv_target)
         (row_count batch_count : Z) : M Z :=
  match fuel with
  | O => out_of_fuel
  | S fuel' =>
      if use_server_side_cursor then
        size <- as_int batch_size ;;
        rows <- fetch_rows (FetchMany size) ;;
        match rows with
        | [] => ret row_count
        | _ :: _ =>
            row_count' <- write_batch target rows row_count ;;
            fetch_loop fuel' use_server_side_cursor batch_size target
                       row_count' (batch_count + 1)
        end
      else if row_count =? 0 then
        rows <- fetch_rows FetchAll ;;
        match rows with
        | [] => ret row_count
        | _ :: _ => write_batch target rows row_count
        end
      else ret row_count
  end.

Definition required_fields (source_config : dict) : list (string * pyval) :=
  [ ("host", get source_config "host");
    ("port", get source_config "port");
    ("database", get source_config "database");
    ("username", get source_config "username");
    ("password", get source_config "password");
    ("query", get source_config "query") ].

Definition missing_fields (source_config : dict) : list string :=
  map fst (List.filter (fun fv => is_none (snd fv))
                  (required_fields source_config)).

Definition missing_message (missing : list string) : string :=
  "Missing required source configuration fields: " +:+ join_comma missing.

(** The [Key] of an upload: botocore checks that it is a string before
    anything is sent. *)
Definition object_key (v : pyval) : M string :=
  match v with
  | PStr s => ret s
  | _ => raise (Exn OtherError
                  "Parameter validation failed: Invalid type for parameter Key")
  end.

(** Lines 955-1043: the default branch, upload to the object store.
    Line 975 formats [csv_filename] into the key, or, with an empty
    prefix, takes it as it is. *)
Definition upload_to_s3 (use_temp_file : bool) (temp_file_path : string)
           (csv_filename : pyval) (chunk_size_mb : pyval)
           (destination_config : dict) (row_count : Z) : M result :=
  file_size <-
    (if use_temp_file then
       perform (CloseFile temp_file_path) ;;;
       file_size <- size_of (GetSize temp_file_path) ;;
       perform (ReadFile temp_file_path) ;;;
       perform (Unlink temp_file_path) ;;;
       ret file_size
     else size_of BufferSize) ;;
  let dest_bucket :=
    get_or destination_config "bucket" (PStr "customer-data") in
  dest_prefix <-
    as_str (get_or destination_config "prefix" (PStr "processed/")) ;;
  let dest_prefix := PyStr.rstrip_slash dest_prefix in
  let dest_key :=
    if String.eqb dest_prefix "" then csv_filename
    else PStr (dest_prefix +:+ "/" +:+ py_str csv_filename) in
  perform S3Client ;;;
  dest_key <- object_key dest_key ;;
  (if 25 * 1024 * 1024 <? file_size then
     perform (UploadFileobj dest_bucket dest_key chunk_size_mb)
   else
     perform (PutObject dest_bucket dest_key)) ;;;
  ret (Result Success row_count
              (SUploadedS3 row_count file_size dest_bucket dest_key)).

(** Lines 931-953: hand the CSV file to the SFTP or filesystem
    transfer.  [None] when the destination is the object store.  The
    SFTP transfer only formats [csv_filename] into the remote path. *)
Definition deliver_file (destination_type : string) (use_temp_file : bool)
           (temp_file_path : string) (csv_filename : pyval)
           (destination_config : dict) (row_count : Z)
  : M (option result) :=
  if String.eqb destination_type "sftp"
     || String.eqb destination_type "nfs"
     || String.eqb destination_type "filesystem" then
    final_file_path <-
      (if use_temp_file then
         size_of (GetSize temp_file_path) ;;;
         ret temp_file_path
       else
         final_file_path <- new_path NamedTemporaryFile ;;
         perform (WriteFile final_file_path) ;;;
         perform (CloseFile final_file_path) ;;;
         ret final_file_path) ;;
    if String.eqb destination_type "sftp" then
      r <- transfer_csv_to_sftp final_file_path (py_str csv_filename)
                                destination_config row_count ;;
      ret (Some r)
    else
      r <- transfer_csv_to_filesystem final_file_path csv_filename
                                      destination_config row_count ;;
      ret (Some r)
  else ret None.

(** Lines 806-843: the result schema and, on the cursor path, the row
    peeked to obtain it.  [None] is the early return of line 823. *)
Definition discover_columns (use_server_side_cursor : bool)
  : M (option (list string * option row)) :=
  found <-
    (if use_server_side_cursor then
       test_row <- fetchone ;;
       d <- description ;;
       match test_row, d with
       | Some _, None =>
           raise (Exn ValueError
             "Query must be a SELECT statement that returns rows.")
       | None, None => ret None
       | _, Some column_names => ret (Some (column_names, test_row))
       end
     else
       d <- description ;;
       match d with
       | None =>
           raise (Exn ValueError
             "Query must be a SELECT statement that returns rows. Cursor description is None.")
       | Some column_names => ret (Some (column_names, None))
       end) ;;
  match found with
  | Some ([], _) => raise (Exn ValueError "Query returned no columns")
  | other => ret other
  end.

(** Lines 845-1043, inside the two [try ... finally] of the cursor and
    of the connection. *)
Definition export_rows (fuel : nat) (destination_type : string)
           (source_config destination_config : dict)
           (csv_filename : pyval) (use_server_side_cursor : bool)
           (column_names : list string) (test_row : option row)
  : M result :=
  let batch_size := get_or source_config "batch_size" (PInt 10000) in
  let chunk_size_mb := get_or source_config "chunk_size_mb" (PInt 5) in
  size <- as_int batch_size ;;
  let use_temp_file :=
    (1000 <? size)
    || truthy (get_or source_config "use_temp_file" (PBool false)) in
  temp_file_path <-
    (if use_temp_file then new_path NamedTemporaryFile else ret "") ;;
  let target := if use_temp_file then ToFile temp_file_path else ToBuffer in
  perform (WriteHeader target column_names) ;;;
  row_count <-
    match test_row with
    | Some r =>
        if use_server_side_cursor then
          perform (WriteRow target r) ;;; ret 1
        else ret 0
    | None => ret 0
    end ;;
  row_count <- fetch_loop fuel use_server_side_cursor batch_size target
                          row_count 0 ;;
  if row_count =? 0 then
    (if use_temp_file then
       perform (CloseFile temp_file_path) ;;;
       perform_ (Unlink temp_file_path)
     else ret tt) ;;;
    ret (Result Success 0 SNoRows)
  else
    delivered <- deliver_file destination_type use_temp_file temp_file_path
                              csv_filename destination_config row_count ;;
    match delivered with
    | Some r => ret r
    | None =>
        upload_to_s3 use_temp_file temp_file_path csv_filename
                     chunk_size_mb destination_config row_count
    end.

Definition handle_database_source (fuel : nat) (config : config)
           (source_config destination_config : dict) : M result :=
  try_except
    (let source_db_host := get source_config "host" in
     let source_db_port := get source_config "port" in
     let source_db_name := get source_config "database" in
     let source_db_user := get source_config "username" in
     let source_db_password := get source_config "password" in
     let source_query := get source_config "query" in
     let csv_filename := get source_config "csv_filename" in
     (match missing_fields source_config with
      | [] => ret tt
      | missing => raise (Exn ValueError (missing_message missing))
      end) ;;;
     let source_db_port :=
       if is_none source_db_port then PInt 5432 else source_db_port in
     csv_filename <-
       (if truthy csv_filename then ret csv_filename
        else
          timestamp <- new_path Timestamp ;;
          ret (PStr ("export_" +:+ timestamp +:+ ".csv"))) ;;
     let use_server_side_cursor :=
       truthy (get_or source_config "use_server_side_cursor"
                      (PBool true)) in
     perform (SourceConnect source_db_host source_db_port source_db_name
                            source_db_user source_db_password) ;;;
     try_finally
       ((if use_server_side_cursor then
           perform SetSession ;;; perform_ (OpenCursor true)
         else perform_ (OpenCursor false)) ;;;
        try_finally
          (perform (Execute source_query) ;;;
           schema <- discover_columns use_server_side_cursor ;;
           match schema with
           | None => ret (Result Success 0 SNoRows)
           | Some (column_names, test_row) =>
               export_rows fuel (destination_type config) source_config
                           destination_config csv_filename
                           use_server_side_cursor column_names test_row
           end)
          (perform_ CloseCursor))
       (perform_ CloseSource))
    (fun e => ret (Result Failed 0 (SError e))).

(** *** The run records *)

Definition create_run_record (connector_id : Z)
           (prefect_flow_run_id : string) : M Z :=
  perform MetaConnect ;;;
  try_finally
    (try_except
       (r <- perform (InsertRun connector_id prefect_flow_run_id) ;;
        run_id <- match r with
                  | RunId id => ret id
                  | _ => type_error "not a run id"
                  end ;;
        perform MetaCommit ;;;
        ret run_id)
       (fun e => perform MetaRollback ;;; raise e))
    (perform_ MetaClose).

Definition update_run_record (run_id : Z) (st : status)
           (rows : option Z) (text : option summary) : M unit :=
  perform MetaConnect ;;;
  try_finally
    (perform (UpdateRun run_id st rows text) ;;;
     perform_ MetaCommit)
    (perform_ MetaClose).

(** *** [read_connector_config] *)

(** [x or {}] *)
Definition or_empty (d : option dict) : dict := default ∅ d.

(** [x or dflt] on the text of a lookup code *)
Definition or_text (x : option string) (dflt : string) : string :=
  match x with
  | Some s => if String.eqb s "" then dflt else s
  | None => dflt
  end.

Definition read_connector_config (connector_id : Z) : M config :=
  perform MetaConnect ;;;
  try_finally
    (r <- perform (SelectConnector connector_id) ;;
     match r with
     | Selected None =>
         raise (Exn ValueError
                    ("Connector " +:+ py_str (PInt connector_id)
                     +:+ " not found"))
     | Selected (Some row) =>
         let source_base := or_empty (source_base_config row) in
         let dest_base := or_empty (dest_base_config row) in
         let source_override := or_empty (source_config_override row) in
         let dest_override := or_empty (destination_config_override row) in
         ret {| connector_id := connector_id;
                connector_name := row_name row;
                source_type := or_text (row_source_type row) "filesystem";
                source_config := source_override ∪ source_base;
                destination_type := or_text (row_dest_type row) "s3";
                destination_config := dest_override ∪ dest_base |}
     | _ => type_error "not a row"
     end)
    (perform_ MetaClose).

(** *** [str.format(project_id=..., env=...)]

    Doubled braces are literal braces; a field that is a plain name is
    looked up among the two keyword arguments; a field with a conversion,
    a format specification or a lookup is rendered by the oracle. *)

Fixpoint scan_field (depth : nat) (acc l : list ascii)
  : option (list ascii * list ascii) :=
  match l with
  | [] => None
  | c :: l' =>
      if Ascii.eqb c "{" then scan_field (S depth) (acc ++ [c])%list l'
      else if Ascii.eqb c "}" then
        match depth with
        | O => Some (acc, l')
        | S depth' => scan_field depth' (acc ++ [c])%list l'
        end
      else scan_field depth (acc ++ [c])%list l'
  end.

Definition is_plain_name (field : list ascii) : bool :=
  forallb (fun c => negb (existsb (Ascii.eqb c)
                                  ["!"; ":"; "."; "["; "{"; "}"]%char))
          field.

Definition is_digit (c : ascii) : bool :=
  ((48 <=? nat_of_ascii c) && (nat_of_ascii c <=? 57))%nat.

Definition render_field (project_id env : string) (field : list ascii)
  : M (list ascii) :=
  let name := string_of_list_ascii field in
  if negb (is_plain_name field) then
    r <- perform (FormatField name project_id env) ;;
    match r with
    | Text t => ret (list_ascii_of_string t)
    | _ => type_error "not a string"
    end
  else if String.eqb name "project_id" then
    ret (list_ascii_of_string project_id)
  else if String.eqb name "env" then ret (list_ascii_of_string env)
  else if forallb is_digit field then
    raise (Exn IndexError
      "Replacement index out of range for positional args tuple")
  else raise (Exn KeyError ("'" +:+ name +:+ "'")).

Fixpoint format_chars (fuel : nat) (project_id env : string)
         (l : list ascii) : M (list ascii) :=
  match fuel with
  | O => ret []
  | S fuel' =>
      match l with
      | [] => ret []
      | c :: l' =>
          if Ascii.eqb c "{" then
            match l' with
            | [] => raise (Exn ValueError
                      "Single '{' encountered in format string")
            | c2 :: l'' =>
                if Ascii.eqb c2 "{" then
                  r <- format_chars fuel' project_id env l'' ;;
                  ret (c :: r)
                else
                  match scan_field 0 [] l' with
                  | None => raise (Exn ValueError
                              "expected '}' before end of string")
                  | Some (field, rest) =>
                      v <- render_field project_id env field ;;
                      r <- format_chars fuel' project_id env rest ;;
                      ret (v ++ r)%list
                  end
            end
          else if Ascii.eqb c "}" then
            match l' with
            | c2 :: l'' =>
                if Ascii.eqb c2 "}" then
                  r <- format_chars fuel' project_id env l'' ;;
                  ret (c :: r)
                else raise (Exn ValueError
                       "Single '}' encountered in format string")
            | [] => raise (Exn ValueError
                      "Single '}' encountered in format string")
            end
          else
            r <- format_chars fuel' project_id env l' ;;
            ret (c :: r)
      end
  end.

Definition format (template project_id env : string) : M string :=
  let l := list_ascii_of_string template in
  r <- format_chars (S (length l)) project_id env l ;;
  ret (string_of_list_ascii r).

(** *** [run_dlt_pipeline] *)

(** Lines 1092-1097, before the [try]: the placeholders of the
    destination path.  The dictionary is updated in place. *)
Definition resolve_destination_path (destination_config : dict)
           (project_id env : string) : M dict :=
  if has_key destination_config "path" then
    match get destination_config "path" with
    | PStr dest_path =>
        dest_path <-
          (if PyStr.contains "{project_id}" dest_path
              || PyStr.contains "{env}" dest_path
           then format dest_path project_id env
           else ret dest_path) ;;
        ret (<["path" := PStr dest_path]> destination_config)
    | _ => type_error "argument of this type is not iterable"
    end
  else ret destination_config.

Definition file_transfer_destinations : list string :=
  ["s3"; "sftp"; "nfs"; "filesystem"; "rest_api"].

Definition dlt_destinations : list string :=
  ["postgres"; "s3"; "sftp"; "nfs"; "filesystem"].

Definition one_of (x : string) (l : list string) : bool :=
  existsb (String.eqb x) l.

(** Lines 1134-1217: the path through dlt, one call for building the
    source, the destination and running the pipeline. *)
Definition run_dlt (config : config) (source_config destination_config
           credentials : dict) : M result :=
  (if negb DLT_AVAILABLE then
     raise (Exn ValueError
       "dlt library not available. Cannot process data files.")
   else ret tt) ;;;
  as_str (get_or source_config "file_pattern" (PStr "*.csv")) ;;;
  (if one_of (destination_type config) dlt_destinations then ret tt
   else raise (Exn ValueError
          ("Unsupported destination type: " +:+ destination_type config))) ;;;
  r <- perform (DltRun (connector_id config) (destination_type config)) ;;
  match r with
  | LoadInfo packages rows =>
      if String.eqb (destination_type config) "postgres" then
        moved_files <- move_processed_files_function
                         source_config destination_config credentials ;;
        ret (Result Success rows (SLoaded packages (Some moved_files)))
      else ret (Result Success rows (SLoaded packages None))
  | _ => type_error "not a load info"
  end.

Definition run_dlt_pipeline (fuel : nat) (config : config)
           (project_id env : string) : M result :=
  let source_type := source_type config in
  let destination_type := destination_type config in
  let source_config := source_config config in
  destination_config <-
    resolve_destination_path (destination_config config) project_id env ;;
  try_except
    (if String.eqb source_type "sql_database"
        || String.eqb source_type "postgres"
        || String.eqb source_type "database" then
       handle_database_source fuel config source_config destination_config
     else if String.eqb source_type "filesystem" then
       let credentials := get_s3_credentials source_config in
       if one_of destination_type file_transfer_destinations then
         transferred_files <-
           transfer_files_function source_config destination_config
                                   credentials destination_type ;;
         ret (Result Success 0 (STransferred transferred_files))
       else
         run_dlt config source_config destination_config credentials
     else
       raise (Exn ValueError
                  ("Unsupported source type: " +:+ source_type)))
    (fun e => ret (Result Failed 0 (SError e))).

(** *** [run_connector_pipeline]

    [prefect_flow_run_id] is the identifier after lines 1251-1261
    resolved it (given, taken from the Prefect context, or generated). *)

Definition record_failure_quietly (update : M unit) : M unit :=
  try_except update (fun _ => ret tt).

Definition run_connector_pipeline (fuel : nat) (connector_id : Z)
           (project_id env prefect_flow_run_id : string) : M result :=
  run_id <-
    try_except
      (run_id <- create_run_record connector_id prefect_flow_run_id ;;
       ret (Some run_id))
      (fun _ => ret None) ;;
  try_except
    (config <- read_connector_config connector_id ;;
     result <- run_dlt_pipeline fuel config project_id env ;;
     match run_id with
     | Some id =>
         record_failure_quietly
           (update_run_record id (res_status result)
                              (Some (rows_ingested result))
                              (Some (log_summary result)))
     | None => ret tt
     end ;;;
     ret result)
    (fun e =>
       match run_id with
       | Some id =>
           record_failure_quietly
             (update_run_record id Failed None (Some (SFlowError e)))
       | None => ret tt
       end ;;;
       raise e).

End Engine.

(** * Reasoning about runs

    [run_spec P m Q]: started in a history satisfying [P], the run of [m]
    ends with an outcome and a history related by [Q]. *)

Definition run_spec {A} (P : history -> Prop) (m : M A)
           (Q : outcome A -> history -> Prop) : Prop :=
  forall h o h', P h -> m h = (o, h') -> Q o h'.

(** An invariant [G] of the history, kept on normal and exceptional exits
    alike, where a run that exhausts its fuel is only allowed under [T]:
    [always G] is for the code that comes to an end by itself, [kept G]
    for the code that holds the fetch loop. *)
Definition exits (T : Prop) {A} (G : history -> Prop)
  : outcome A -> history -> Prop :=
  fun o h => G h /\ (o = OutOfFuel -> T).

Abbreviation always G := (exits False G).
Abbreviation kept G := (exits True G).

(** ** Vocabulary of the delivery claims *)

(** [s.endswith(suffix)] *)
Fixpoint ends_with (suffix s : string) : bool :=
  String.eqb suffix s
  || match s with
     | EmptyString => false
     | String _ s' => ends_with suffix s'
     end.

(** A status [raise_for_status] lets through. *)
Definition accepted (code : Z) : bool :=
  negb ((400 <=? code) && (code <? 600)).

Definition is_delete (c : call) : bool :=
  match c with DeleteObject _ _ => true | _ => false end.

(** The calls that write a run record or commit it. *)
Definition is_record_call (c : call) : bool :=
  match c with
  | InsertRun _ _ | UpdateRun _ _ _ _ | MetaCommit => true
  | _ => false
  end.

(** [delivery_of destination_type file_key e]: the event [e] is the
    completed delivery of the object [file_key] by the adapter of that
    destination type: the copy to the destination key, the SFTP upload to
    [.../file_name], the download into the destination directory, or the
    HTTP response that [raise_for_status] accepts. *)
Definition delivery_of (destination_type file_key : string) (e : event)
  : bool :=
  let file_name := PyStr.split_last file_key in
  match e with
  | (CopyObject _ key _ dst_key, r) =>
      String.eqb destination_type "s3" && String.eqb key file_key
      && ends_with file_name dst_key && negb (raised r)
  | (SftpPut _ remote, r) =>
      String.eqb destination_type "sftp"
      && ends_with ("/" +:+ file_name) remote && negb (raised r)
  | (DownloadFile _ key local, r) =>
      (String.eqb destination_type "nfs"
       || String.eqb destination_type "filesystem")
      && String.eqb key file_key && ends_with file_name local
      && negb (raised r)
  | (HttpSend _ _ name _, HttpStatus code) =>
      String.eqb destination_type "rest_api" && String.eqb name file_name
      && accepted code
  | _ => false
  end.

(** Every delete of a source object directly follows the completed
    delivery of that object (the history is newest first). *)
Fixpoint guarded (destination_type : string) (h : history) : Prop :=
  match h with
  | [] => True
  | (DeleteObject _ key, _) :: before =>
      match before with
      | e :: _ => delivery_of destination_type key e = true
      | [] => False
      end /\ guarded destination_type before
  | _ :: before => guarded destination_type before
  end.

(** ** Vocabulary of the run-record claim *)

(** The run records created with status started: the identifiers of the
    INSERTs that returned one and were committed, newest first. *)
Fixpoint started_records (h : history) : list Z :=
  match h with
  | [] => []
  | e :: before =>
      match e, before with
      | (MetaCommit, committed), (InsertRun _ _, RunId id) :: _ =>
          if raised committed then started_records before
          else id :: started_records before
      | _, _ => started_records before
      end
  end.

(** The terminal updates issued: run identifier and status of every
    UPDATE statement sent, newest first. *)
Fixpoint updates_issued (h : history) : list (Z * status) :=
  match h with
  | [] => []
  | (UpdateRun id st _ _, _) :: before => (id, st) :: updates_issued before
  | _ :: before => updates_issued before
  end.

(** The terminal updates applied: those executed and committed without an
    exception. *)
Fixpoint updates_applied (h : history) : list (Z * status) :=
  match h with
  | [] => []
  | e :: before =>
      match e, before with
      | (MetaCommit, committed), (UpdateRun id st _ _, executed) :: _ =>
          if raised executed || raised committed then updates_applied before
          else (id, st) :: updates_applied before
      | _, _ => updates_applied before
      end
  end.

(** The pipeline step of the orchestrator: lines 1277-1281. *)
Definition pipeline_step (oracle : history -> call -> reply)
           (getenv : string -> option string) (DLT_AVAILABLE : bool)
           (fuel : nat) (connector_id : Z) (project_id env : string)
  : M result :=
  config <- read_connector_config oracle connector_id ;;
  run_dlt_pipeline oracle getenv DLT_AVAILABLE fuel config project_id env.

(** The life of the run record of one invocation that comes to an end.

    When [create_run_record] returned the identifier [id]: that record is
    the one record created; the pipeline step sends no UPDATE; after it,
    [update_run_record] is run once, for [id], with the status of the
    result, or with failed when the step raised, in which case the
    exception goes on to the caller; at most one UPDATE is sent, and the
    record is updated when that one run of [update_run_record] goes
    through.

    When [create_run_record] raised: the invocation is the pipeline step,
    run from there, and no UPDATE is sent. *)
Definition run_record_life (oracle : history -> call -> reply)
           (getenv : string -> option string) (DLT_AVAILABLE : bool)
           (fuel : nat) (connector_id : Z)
           (project_id env prefect_flow_run_id : string) : Prop :=
  let run :=
    run_connector_pipeline oracle getenv DLT_AVAILABLE fuel connector_id
                           project_id env prefect_flow_run_id [] in
  let step :=
    pipeline_step oracle getenv DLT_AVAILABLE fuel connector_id
                  project_id env in
  match create_run_record oracle connector_id prefect_flow_run_id [] with
  | (Ret id, h1) =>
      started_records (snd run) = [id]
      /\ updates_issued (snd (step h1)) = []
      /\ exists st rows text,
           let update :=
             update_run_record oracle id st rows text (snd (step h1)) in
           snd run = snd update
           /\ match fst (step h1) with
              | Ret result => st = res_status result /\ fst run = Ret result
              | Exc e => st = Failed /\ fst run = Exc e
              | OutOfFuel => False
              end
           /\ (updates_issued (snd run) = [(id, st)]
               \/ updates_issued (snd run) = [])
           /\ (updates_applied (snd run) = [(id, st)]
               \/ updates_applied (snd run) = [])
           /\ (fst update = Ret tt -> updates_applied (snd run) = [(id, st)])
  | (Exc _, h1) => run = step h1 /\ updates_issued (snd run) = []
  | (OutOfFuel, _) => False
  end.

(** ** Vocabulary of the REST claim *)

(** The events are what the world answered: each reply is the oracle's,
    at the history the call was made in ([events] newest first, on top of
    [h]). *)
Fixpoint genuine (oracle : history -> call -> reply) (h events : history)
  : Prop :=
  match events with
  | [] => True
  | (c, r) :: older =>
      r = oracle (older ++ h)%list c /\ genuine oracle h older
  end.

(** Whether the response received last in [h] carries a [Retry-After]
    header. *)
Definition retry_after_at (oracle : history -> call -> reply) (h : history)
  : bool :=
  match oracle h RetryAfterHeader with Flag b => b | _ => false end.

(** An answer after which the retry adapter sends the request again: for
    one of POST, PUT, PATCH, a status among 429, 500, 502, 503, 504, or
    one among 413, 429, 503 with a [Retry-After] header, or a read error;
    for every method, an error of the connection or of the TLS layer. *)
Definition resent (method : string) (answer : reply) (retry_after : bool)
  : bool :=
  match answer with
  | HttpStatus code =>
      existsb (String.eqb method) ["POST"; "PUT"; "PATCH"]
      && (existsb (Z.eqb code) [429; 500; 502; 503; 504]
          || (retry_after && existsb (Z.eqb code) [413; 429; 503]))
  | Raise e =>
      is_connection_error e || is_other_error e
      || (is_read_error e
          && existsb (String.eqb method) ["POST"; "PUT"; "PATCH"])
  | _ => false
  end.

(** Every send of [sends] (newest first, on top of [h]) got such an
    answer. *)
Fixpoint all_resent (oracle : history -> call -> reply) (method : string)
         (h sends : history) : Prop :=
  match sends with
  | [] => True
  | e :: older =>
      resent method (snd e) (retry_after_at oracle (e :: older ++ h)%list)
      = true
      /\ all_resent oracle method h older
  end.

(** The events one [session.request] with [retries] retries adds on top
    of [h], newest first: between one and [1 + retries] sends of the same
    request, each but the newest with an answer after which the request is
    sent again. *)
Definition bounded_attempts (oracle : history -> call -> reply)
           (retries : nat) (method : string) (url : pyval) (name : string)
           (multipart : bool) (h sends : history) : Prop :=
  (1 <= length sends <= 1 + retries)%nat
  /\ Forall (fun e => fst e = HttpSend method url name multipart) sends
  /\ match sends with
     | [] => False
     | _ :: older => all_resent oracle method h older
     end.

(** The answer to the newest send. *)
Definition last_answer (sends : history) : reply :=
  match sends with
  | e :: _ => snd e
  | [] => Done
  end.

(** What [session.request] makes of the answer to its last attempt: a
    status that [raise_for_status] accepts is returned; a status from 400
    to 599 is returned or, the retries used up, becomes a request
    exception; an error of the attempt becomes a request exception; any
    other exception goes through. *)
Definition request_verdict (last : reply) (o : outcome Z) : Prop :=
  match last with
  | HttpStatus code =>
      if accepted code then o = Ret code
      else o = Ret code
           \/ exists e, o = Exc e /\ is_request_exception e = true
  | Raise e =>
      if is_wire_error e
      then exists e', o = Exc e' /\ is_request_exception e' = true
      else o = Exc e
  | _ => exists e, o = Exc e /\ is_request_exception e = false
  end.

(** What the REST loop does with the matched object [key] at the head of
    the listing, once it is downloaded ([h1]) and opened ([h2]).  The
    request goes out in a bounded number of attempts, [sends], and what
    follows depends on the answer of the endpoint to the last of them:

    - a status that [raise_for_status] accepts (any outside 400-599) is
      directly followed by the delete of [key], and the loop goes on with
      one more file counted (unless the delete itself raises);
    - a status from 400 to 599, whether the retries are used up or the
      status is not one to retry, is followed by no call for [key]: the
      loop goes on with the next object and the same count;
    - so is an error of the attempt or any other request exception;
    - any other exception ends the loop. *)
Definition rest_file_outcome (oracle : history -> call -> reply)
           (sb : pyval) (prefix : string) (pat : pyval) (method : string)
           (url : pyval) (multipart : bool) (tmpdir key : string)
           (rest : list string) (n : Z) (h : history) : Prop :=
  let name := PyStr.split_last key in
  let local := PyStr.path_join tmpdir name in
  let h1 := (DownloadFile sb key local,
             oracle h (DownloadFile sb key local)) :: h in
  let h2 := (ReadFile local, oracle h1 (ReadFile local)) :: h1 in
  let loop := rest_loop oracle sb prefix pat method url multipart tmpdir in
  exists sends,
    let h3 := (sends ++ h2)%list in
    genuine oracle h2 sends
    /\ bounded_attempts oracle 3 method url name multipart h2 sends
    /\ match last_answer sends with
       | HttpStatus code =>
           if accepted code then
             let r := oracle h3 (DeleteObject sb key) in
             let h4 := (DeleteObject sb key, r) :: h3 in
             match r with
             | Raise e =>
                 if is_request_exception e
                 then loop (key :: rest) n h = loop rest n h4
                 else loop (key :: rest) n h = (Exc e, h4)
             | _ => loop (key :: rest) n h = loop rest (n + 1) h4
             end
           else loop (key :: rest) n h = loop rest n h3
       | Raise e =>
           if is_wire_error e || is_request_exception e
           then loop (key :: rest) n h = loop rest n h3
           else loop (key :: rest) n h = (Exc e, h3)
       | _ => exists e, loop (key :: rest) n h = (Exc e, h3)
       end.

(** ** The matching rule, in the words of the specification

    "A candidate matches if its bare filename matches the pattern, OR its
    full key matches prefix + pattern, OR its full key matches the pattern
    unmodified." *)
Definition spec_pattern_rule (prefix pattern file_key file_name : string)
  : bool :=
  Fnmatch.fnmatch file_name pattern
  || Fnmatch.fnmatch file_key (prefix +:+ pattern)
  || Fnmatch.fnmatch file_key pattern.

(** ** Scratch files

    The files [tempfile.NamedTemporaryFile(delete=False)] created and no
    [os.unlink] removed, reading the events oldest first. *)
Fixpoint live_files (oldest_first : list event) (live : list string)
  : list string :=
  match oldest_first with
  | [] => live
  | (NamedTemporaryFile, Text p) :: rest => live_files rest (p :: live)
  | (Unlink p, r) :: rest =>
      if raised r then live_files rest live
      else live_files rest (List.filter (fun q => negb (String.eqb p q)) live)
  | _ :: rest => live_files rest live
  end.

Definition scratch_left (h : history) : list string :=
  live_files (rev h) [].

(** ** The rows of the CSV output

    The data rows [csv_writer.writerow] wrote, oldest first. *)
Fixpoint rows_written (h : history) : list row :=
  match h with
  | [] => []
  | (WriteRow _ r, answer) :: h' =>
      if raised answer then rows_written h' else (rows_written h' ++ [r])%list
  | _ :: h' => rows_written h'
  end.

(** A file name of the configuration that is absent (or falsy, and then
    generated) or a string. *)
Definition names_a_file (csv_filename : pyval) : Prop :=
  truthy csv_filename = false \/ exists name, csv_filename = PStr name.

(** A result with status success reports [n] rows. *)
Definition reports (n : Z) (r : result) : Prop :=
  res_status r = Success -> rows_ingested r = n.

(** The events of writing a batch with success, newest first. *)
Definition writes (target : csv_target) (batch : list row) : history :=
  rev (map (fun r => (WriteRow target r, Done)) batch).

(** ** Worlds and configurations of the examples *)

(** A world where every call succeeds: the bucket lists [keys], every
    request is answered 200, the source database is empty. *)
Definition steady (keys : list string) : history -> call -> reply :=
  fun _ c =>
    match c with
    | ListObjectsV2 _ _ => Listing (Some keys)
    | TemporaryDirectory => Text "/tmp/batch"
    | NamedTemporaryFile => Text "/tmp/scratch.csv"
    | Timestamp => Text "20260101_000000"
    | FormatField _ _ _ => Text ""
    | HttpSend _ _ _ _ => HttpStatus 200
    | InsertRun _ _ => RunId 1
    | SelectConnector _ => Selected None
    | Description => Columns None
    | FetchOne => OneRow None
    | FetchMany _ => ManyRows []
    | FetchAll => ManyRows []
    | GetSize _ => Size 0
    | BufferSize => Size 0
    | PathExists _ => Flag true
    | DltRun _ _ => LoadInfo 0 0
    | _ => Done
    end.

(** [base], except where [fault] answers. *)
Definition except_for (fault : history -> call -> option reply)
           (base : history -> call -> reply) : history -> call -> reply :=
  fun h c => default (base h c) (fault h c).

Definition no_environment : string -> option string := fun _ => None.

Definition inbox : dict :=
  <["bucket" := PStr "in"]> (<["path" := PStr "data/"]> ∅).

Definition outbox : dict :=
  <["bucket" := PStr "out"]> (<["prefix" := PStr "done/"]> ∅).

(** A connector that moves files to a share whose path has the two
    placeholders. *)
Definition templated_share : config :=
  Config 7 "inbox to share" "filesystem" inbox "filesystem"
         (<["path" := PStr "/mnt/{env}/{project_id}"]> ∅).

(** The same, with a placeholder that [run_dlt_pipeline] does not supply. *)
Definition unknown_placeholder : config :=
  Config 7 "inbox to share" "filesystem" inbox "filesystem"
         (<["path" := PStr "/mnt/{env}/{tenant}"]> ∅).

(** A REST destination without ['url'] and without ['endpoint_url']. *)
Definition rest_without_url : config :=
  Config 8 "inbox to partner" "filesystem" inbox "rest_api"
         (<["method" := PStr "PUT"]> ∅).

(** A listing under [data/in/] and a pattern given as a full-key glob. *)
Definition inbox_full_key_glob : dict :=
  <["bucket" := PStr "in"]>
  (<["path" := PStr "data/in/"]>
  (<["file_pattern" := PStr "data/*.csv"]> ∅)).

Definition sftp_share : dict :=
  <["host" := PStr "nas"]>
  (<["username" := PStr "etl"]>
  (<["password" := PStr "secret"]>
  (<["path" := PStr "/share/"]> ∅))).

(** The download of every object fails. *)
Definition download_fails (keys : list string) : history -> call -> reply :=
  except_for
    (fun _ c =>
       match c with
       | DownloadFile _ _ _ => Some (Raise (Exn OtherError "NoSuchKey"))
       | _ => None
       end)
    (steady keys).

(** A source database described in full, and the same without a port. *)
Definition warehouse_without_port : dict :=
  <["host" := PStr "db"]>
  (<["database" := PStr "sales"]>
  (<["username" := PStr "reader"]>
  (<["password" := PStr "secret"]>
  (<["query" := PStr "SELECT id FROM orders"]> ∅)))).

Definition warehouse : dict :=
  <["port" := PInt 5432]> warehouse_without_port.

Definition export_to_s3 (source : dict) : config :=
  Config 9 "orders export" "database" source "s3" outbox.

(** The same export, in batches of 5000 and so through a scratch file,
    to a share over SFTP. *)
Definition export_to_sftp (source : dict) : config :=
  Config 9 "orders export" "database" source "sftp" sftp_share.

Definition order (id : Z) : row := [("id", PInt id)].

(** The query has a first row; the connection drops on the next fetch. *)
Definition connection_drops : history -> call -> reply :=
  except_for
    (fun _ c =>
       match c with
       | FetchOne => Some (OneRow (Some (order 1)))
       | Description => Some (Columns (Some ["id"]))
       | FetchMany _ => Some (Raise (Exn OtherError "connection lost"))
       | _ => None
       end)
    (steady []).

(** A source database that answers the query with [rows], in order: the
    number of rows already handed out is read off the history, [fetchone]
    hands out the next one, [fetchmany(size)] the next [size], [fetchall]
    all that remain.  Every other call succeeds. *)
Fixpoint served (h : history) : nat :=
  match h with
  | [] => 0%nat
  | (_, OneRow (Some _)) :: h' => S (served h')
  | (_, ManyRows rs) :: h' => (length rs + served h')%nat
  | _ :: h' => served h'
  end.

Definition serves (rows : list row) (columns : list string)
  : history -> call -> reply :=
  fun h c =>
    let pending := skipn (served h) rows in
    match c with
    | FetchOne => OneRow (head pending)
    | FetchMany size => ManyRows (map Some (firstn (Z.to_nat size) pending))
    | FetchAll => ManyRows (map Some pending)
    | Description => Columns (Some columns)
    | other => steady [] h other
    end.

Definition warehouse_batched (batch_size : Z) (cursor : bool) : dict :=
  <["batch_size" := PInt batch_size]>
  (<["use_server_side_cursor" := PBool cursor]> warehouse).

(** The partner endpoint answers 404 for [a.csv] and 200 otherwise. *)
Definition rejects_a (keys : list string) : history -> call -> reply :=
  except_for
    (fun _ c =>
       match c with
       | HttpSend _ _ "a.csv" _ => Some (HttpStatus 404)
       | _ => None
       end)
    (steady keys).

(** The attempts to send made so far. *)
Fixpoint attempts (h : history) : nat :=
  match h with
  | [] => 0%nat
  | (HttpSend _ _ _ _, _) :: h' => S (attempts h')
  | _ :: h' => attempts h'
  end.

(** The partner endpoint cannot be reached at first, is overloaded at the
    second attempt, and takes the upload at the third. *)
Definition recovers (keys : list string) : history -> call -> reply :=
  except_for
    (fun h c =>
       match c with
       | HttpSend _ _ _ _ =>
           Some (match attempts h with
                 | 0%nat => Raise (Exn ConnectTimeoutError "timed out")
                 | 1%nat => HttpStatus 503
                 | _ => HttpStatus 200
                 end)
       | _ => None
       end)
    (steady keys).

(** The partner endpoint cannot be reached at the first attempt and
    answers 200 from then on. *)
Definition unreachable_at_first (keys : list string)
  : history -> call -> reply :=
  except_for
    (fun h c =>
       match c with
       | HttpSend _ _ _ _ =>
           Some (match attempts h with
                 | 0%nat => Raise (Exn ConnectTimeoutError "timed out")
                 | _ => HttpStatus 200
                 end)
       | _ => None
       end)
    (steady keys).

(** The partner endpoint answers 304 throughout. *)
Definition not_modified (keys : list string) : history -> call -> reply :=
  except_for
    (fun _ c =>
       match c with
       | HttpSend _ _ _ _ => Some (HttpStatus 304)
       | _ => None
       end)
    (steady keys).

(** The partner endpoint answers 503 throughout. *)
Definition unavailable (keys : list string) : history -> call -> reply :=
  except_for
    (fun _ c =>
       match c with
       | HttpSend _ _ _ _ => Some (HttpStatus 503)
       | _ => None
       end)
    (steady keys).

Definition partner : dict := <["url" := PStr "https://partner/upload"]> ∅.

(** The same endpoint, with a verb that is not one of the retry
    configuration. *)
Definition partner_get : dict := <["method" := PStr "get"]> partner.

(** The metadata store knows one connector, from the inbox to the
    outbox. *)
Definition inbox_to_outbox : connector_row :=
  ConnectorRow "inbox to outbox" None None (Some inbox) (Some outbox)
               (Some "filesystem") (Some "s3").

Definition with_connector (base : history -> call -> reply)
  : history -> call -> reply :=
  except_for
    (fun _ c =>
       match c with
       | SelectConnector _ => Some (Selected (Some inbox_to_outbox))
       | _ => None
       end)
    base.

(** The same, where the UPDATE of the run record fails. *)
Definition update_fails : history -> call -> reply :=
  except_for
    (fun _ c =>
       match c with
       | UpdateRun _ _ _ _ =>
           Some (Raise (Exn OtherError "server closed the connection"))
       | _ => None
       end)
    (with_connector (steady ["data/orders.csv"])).


(** * Vocabulary of the further properties *)

(** What [m] returns, and the history at that point, satisfy [good]. *)
Definition returning {A} (good : A -> history -> Prop)
  : outcome A -> history -> Prop :=
  fun o h => forall a, o = Ret a -> good a h.

Definition anywhere : history -> Prop := fun _ => True.

(** A failed result carries no rows and the text of the exception. *)
Definition failed_with_error (r : result) : Prop :=
  res_status r = Failed ->
  rows_ingested r = 0 /\ exists e, log_summary r = SError e.

(** The call was made and returned. *)
Definition completed (c : call) (h : history) : Prop :=
  exists r, In (c, r) h /\ raised r = false.

(** What the summary of a successful export says was done, was done. *)
Definition summary_is_true (r : result) (h : history) : Prop :=
  res_status r = Success ->
  match log_summary r with
  | SNoRows => rows_ingested r = 0
  | SUploadedS3 rows _ bucket key =>
      rows = rows_ingested r
      /\ (completed (PutObject bucket key) h
          \/ exists chunk, completed (UploadFileobj bucket key chunk) h)
  | SUploadedSftp rows _ remote =>
      rows = rows_ingested r
      /\ exists local, completed (SftpPut local remote) h
  | SWroteFile rows _ path =>
      rows = rows_ingested r
      /\ exists src, completed (Copy2 src path) h
  | _ => False
  end.

(** A result that is what it says. *)
Definition sound (r : result) (h : history) : Prop :=
  failed_with_error r /\ summary_is_true r h.

(** Events only accumulate: what [P] says of a history stays true. *)
Definition lasting (P : history -> Prop) : Prop :=
  forall e h, P h -> P (e :: h).

(** ** Sessions *)

(** A call that [select] picks was made and returned. *)
Definition returned (select : call -> bool) (h : history) : bool :=
  existsb (fun e => select (fst e) && negb (raised (snd e))) h.

Definition is_source_connect (c : call) : bool :=
  match c with SourceConnect _ _ _ _ _ => true | _ => false end.

Definition is_open_cursor (c : call) : bool :=
  match c with OpenCursor _ => true | _ => false end.

Definition is_transport (c : call) : bool :=
  match c with Transport _ _ => true | _ => false end.

(** The calls of the handler that removes the scratch file. *)
Definition is_cleanup (c : call) : bool :=
  match c with PathExists _ | Unlink _ => true | _ => false end.

(** The connection to the metadata store could not be opened, or closing
    it is the last call. *)
Definition connection_closed (h h' : history) : Prop :=
  (exists e, h' = (MetaConnect, Raise e) :: h)
  \/ (exists r older, h' = (MetaClose, r) :: older).

(** The SFTP server refuses every upload. *)
Definition upload_refused : history -> call -> reply :=
  except_for
    (fun _ c =>
       match c with
       | SftpPut _ _ => Some (Raise (Exn IOError "Permission denied"))
       | _ => None
       end)
    (steady []).

(** ** Files touched by a transfer *)

(** The source key a copy, a download or a delete is about. *)
Definition touched_key (c : call) : option string :=
  match c with
  | CopyObject _ k _ _ | DeleteObject _ k | DownloadFile _ k _ => Some k
  | _ => None
  end.

(** [k] is among the keys a listing of the run returned. *)
Definition listed (h : history) (k : string) : Prop :=
  exists bucket prefix keys,
    In (ListObjectsV2 bucket prefix, Listing (Some keys)) h /\ In k keys.

(** Every object copied, downloaded or deleted was listed, and is no
    directory marker. *)
Definition only_listed (h : history) : Prop :=
  forall c r k,
    In (c, r) h -> touched_key c = Some k ->
    listed h k /\ PyStr.endswith_slash k = false.

(** The number of [delete_object] calls that returned. *)
Fixpoint deletes (h : history) : Z :=
  match h with
  | [] => 0
  | (DeleteObject _ _, r) :: h' =>
      (if raised r then 0 else 1) + deletes h'
  | _ :: h' => deletes h'
  end.

(** The state of a transfer: only listed objects were touched and [d]
    deletes returned so far. *)
Definition tidy (d : Z) (h : history) : Prop :=
  only_listed h /\ deletes h = d.

(** The same once the listing of [keys] is in. *)
Definition tidy_after (bucket : pyval) (prefix : string)
           (keys : list string) (d : Z) (h : history) : Prop :=
  tidy d h /\ In (ListObjectsV2 bucket prefix, Listing (Some keys)) h.

(** What a loop that started with the count [n] after [d] deletes leaves:
    its count went up by the number of deletes that returned. *)
Definition counting (n d : Z) : outcome Z -> history -> Prop :=
  fun o h =>
    only_listed h /\ o <> OutOfFuel
    /\ forall n', o = Ret n' -> n' - n = deletes h - d.

(** What an adapter under [except Exception: return 0] leaves. *)
Definition counted (d : Z) : outcome Z -> history -> Prop :=
  fun o h =>
    only_listed h
    /\ exists n, o = Ret n /\ (n = 0 \/ n = deletes h - d).

(** What the upload of one file to the REST endpoint leaves: sent, and one
    delete more, or not sent, and the deletes that were. *)
Definition sending (bucket : pyval) (prefix : string) (keys : list string)
           (d : Z) : outcome bool -> history -> Prop :=
  fun o h =>
    match o with
    | Ret sent =>
        tidy_after bucket prefix keys (d + if sent then 1 else 0) h
    | Exc _ => only_listed h
    | OutOfFuel => False
    end.

(** What the listing leaves. *)
Definition listing_in (bucket : pyval) (prefix : string) (d : Z)
  : outcome (option (list string)) -> history -> Prop :=
  fun o h =>
    match o with
    | Ret (Some contents) => tidy_after bucket prefix contents d h
    | Ret None => tidy d h
    | Exc _ => only_listed h
    | OutOfFuel => False
    end.

(** ** The move within the object store, when nothing fails *)

(** The listed keys [move_processed_files_function] selects: no directory
    markers, and the pattern rule of lines 246-254. *)
Definition selected (prefix pattern : string) (keys : list string)
  : list string :=
  List.filter
    (fun k => negb (PyStr.endswith_slash k)
              && spec_pattern_rule prefix pattern k (PyStr.split_last k))
    keys.

(** Line 258: [f"{dest_prefix}/{file_name}" if dest_prefix else file_name] *)
Definition dest_key (dest_prefix file_key : string) : string :=
  if String.eqb dest_prefix "" then PyStr.split_last file_key
  else dest_prefix +:+ "/" +:+ PyStr.split_last file_key.

(** The calls that move [keys], oldest first. *)
Definition moves (source_bucket dest_bucket : pyval) (dest_prefix : string)
           (keys : list string) : list call :=
  flat_map
    (fun k => [CopyObject source_bucket k dest_bucket
                          (dest_key dest_prefix k);
               DeleteObject source_bucket k])
    keys.

(** The listing prefix of line 230. *)
Definition listing_prefix (path : string) : string :=
  if String.eqb (PyStr.rstrip_slash path) "" then ""
  else PyStr.rstrip_slash path +:+ "/".

(** * The flow server: [flow_server.py]

    The handler of [POST /trigger].  The request is what the handler sees
    of it through the library: whether [int(self.headers['Content-Length'])]
    raised, and what [json.loads] made of the body.  The response is the
    status code and the JSON body the handler writes; a socket that fails
    while the response is written is outside the model.  [flow] is what the
    module-level name [run_connector_pipeline] is bound to, called with the
    connector id and the keyword argument [prefect_flow_run_id]; [now] is
    [int(time.time())]. *)

Inductive parsed :=
| NotJson (e : exn)          (* [decode] or [json.loads] raised *)
| NotAnObject (e : exn)      (* a JSON value without [.get] *)
| Object (fields : dict).

Record request := Request {
  req_path : string;
  req_length : option exn;
  req_body : parsed
}.

Inductive answer_body :=
| NoBody
| ErrorBody (message : string)     (* {'error': message} *)
| SuccessBody (r : result)         (* {'status': 'success', 'result': str(r)} *)
| HealthBody.                      (* {'status': 'healthy'} *)

Record response := Response {
  http_code : Z;
  http_body : answer_body
}.

(** [f"manual-{connector_id}-{int(time.time())}"] *)
Definition manual_run_id (connector_id : pyval) (now : Z) : string :=
  "manual-" +:+ py_str connector_id +:+ "-" +:+ py_str (PInt now).

Definition do_POST (flow : pyval -> string -> M result)
           (FLOW_AVAILABLE : bool) (now : Z) (req : request) : M response :=
  if String.eqb (req_path req) "/trigger" then
    match req_length req with
    | Some e => raise e
    | None =>
        try_except
          (connector_id <-
             match req_body req with
             | NotJson e => raise e
             | NotAnObject e => raise e
             | Object fields => ret (get fields "connector_id")
             end ;;
           if negb (truthy connector_id) then
             ret (Response 400 (ErrorBody "connector_id required"))
           else if negb FLOW_AVAILABLE then
             ret (Response 503 (ErrorBody "Flow module not available"))
           else
             result <- flow connector_id (manual_run_id connector_id now) ;;
             ret (Response 200 (SuccessBody result)))
          (fun e => ret (Response 500 (ErrorBody (exn_msg e))))
    end
  else ret (Response 404 NoBody).

Definition do_GET (path : string) : response :=
  if String.eqb path "/health" then Response 200 HealthBody
  else Response 404 NoBody.

(** The flow as the server calls it for an integer connector id:
    [project_id] and [env] take their defaults, and [str.format] renders
    the [None] of [env] as "None". *)
Definition triggered_run (oracle : history -> call -> reply)
           (getenv : string -> option string) (DLT_AVAILABLE : bool)
           (fuel : nat) (connector_id : Z) (run_id : string) : M result :=
  run_connector_pipeline oracle getenv DLT_AVAILABLE fuel connector_id
                         "default_project" "None" run_id.

(** The metadata store knows one connector, of a source type the pipeline
    does not know. *)
Definition from_a_queue : connector_row :=
  ConnectorRow "queue to outbox" None None None (Some outbox)
               (Some "kafka") (Some "s3").

Definition with_queue_connector : history -> call -> reply :=
  except_for
    (fun _ c =>
       match c with
       | SelectConnector _ => Some (Selected (Some from_a_queue))
       | _ => None
       end)
    (steady []).

(** * Destination paths with placeholders

    A path written as pieces: text without braces, the placeholder
    [{project_id}], the placeholder [{env}]. *)

Inductive piece :=
| Literal (s : string)
| TheProject
| TheEnv.

Definition piece_chars (p : piece) : list ascii :=
  match p with
  | Literal s => list_ascii_of_string s
  | TheProject => list_ascii_of_string "{project_id}"
  | TheEnv => list_ascii_of_string "{env}"
  end.

Definition template_of (pieces : list piece) : string :=
  string_of_list_ascii (flat_map piece_chars pieces).

Definition fill (project_id env : string) (p : piece) : list ascii :=
  match p with
  | Literal s => list_ascii_of_string s
  | TheProject => list_ascii_of_string project_id
  | TheEnv => list_ascii_of_string env
  end.

(** The path with each placeholder replaced by its value, as it is. *)
Definition filled (project_id env : string) (pieces : list piece) : string :=
  string_of_list_ascii (flat_map (fill project_id env) pieces).

Definition no_brace (c : ascii) : bool :=
  negb (Ascii.eqb c "{") && negb (Ascii.eqb c "}").

Definition plain (p : piece) : bool :=
  match p with
  | Literal s => forallb no_brace (list_ascii_of_string s)
  | _ => true
  end.

(** * Scratch files of an export *)

(** The calls that create or remove a scratch file. *)
Definition is_scratch_call (c : call) : bool :=
  match c with
  | NamedTemporaryFile | Unlink _ => true
  | _ => false
  end.

(** The scratch files that exist: none, or the one at [p]. *)
Definition scratch (file : option string) (h : history) : Prop :=
  scratch_left h = match file with None => [] | Some p => [p] end.

(** A result with status success comes with no scratch file left. *)
Definition cleaned_up (r : result) (h : history) : Prop :=
  res_status r = Success -> scratch_left h = [].
Section Rules.

Variable oracle : history -> call -> reply.

Lemma spec_ret {A} (P : history -> Prop) (a : A) Q :
  (forall h, P h -> Q (Ret a) h) -> run_spec P (ret a) Q.
Proof. intros HQ h o h' HP [= <- <-]. auto. Qed.

Lemma spec_raise {A} (P : history -> Prop) (e : exn)
      (Q : outcome A -> history -> Prop) :
  (forall h, P h -> Q (Exc e) h) -> run_spec P (raise e) Q.
Proof. intros HQ h o h' HP [= <- <-]. auto. Qed.

Lemma spec_bind {A B} P (m : M A) (k : A -> M B) R Q :
  run_spec P m R ->
  (forall a, run_spec (R (Ret a)) (k a) Q) ->
  (forall e h, R (Exc e) h -> Q (Exc e) h) ->
  (forall h, R OutOfFuel h -> Q OutOfFuel h) ->
  run_spec P (bind m k) Q.
Proof.
  intros Hm Hk He Hf h o h' HP. unfold bind.
  destruct (m h) as [[a | e |] h1] eqn:E; intros Hrun.
  - eapply Hk; [eapply Hm; eauto | exact Hrun].
  - injection Hrun as <- <-. eapply He, Hm; eauto.
  - injection Hrun as <- <-. eapply Hf, Hm; eauto.
Qed.

Lemma spec_weaken {A} (P P' : history -> Prop) (m : M A)
      (Q Q' : outcome A -> history -> Prop) :
  run_spec P' m Q' ->
  (forall h, P h -> P' h) ->
  (forall o h, Q' o h -> Q o h) ->
  run_spec P m Q.
Proof. intros Hm HP HQ h o h' H E. eapply HQ, Hm; eauto. Qed.

Lemma spec_perform P (c : call) Q :
  (forall h r, P h ->
     Q (match r with Raise e => Exc e | _ => Ret r end) ((c, r) :: h)) ->
  run_spec P (perform oracle c) Q.
Proof.
  intros HQ h o h' HP. unfold perform.
  specialize (HQ h (oracle h c) HP).
  destruct (oracle h c); intros [= <- <-]; exact HQ.
Qed.

Lemma spec_try_except {A} P (body : M A) handler R Q :
  run_spec P body R ->
  (forall e, run_spec (R (Exc e)) (handler e) Q) ->
  (forall a h, R (Ret a) h -> Q (Ret a) h) ->
  (forall h, R OutOfFuel h -> Q OutOfFuel h) ->
  run_spec P (try_except body handler) Q.
Proof.
  intros Hb Hh Hr Hf h o h' HP. unfold try_except.
  destruct (body h) as [[a | e |] h1] eqn:E; intros Hrun.
  - injection Hrun as <- <-. eapply Hr, Hb; eauto.
  - eapply Hh; [eapply Hb; eauto | exact Hrun].
  - injection Hrun as <- <-. eapply Hf, Hb; eauto.
Qed.

(** *** Invariants *)

Section Invariant.

Variable T : Prop.
Variable G : history -> Prop.

Lemma inv_ret {A} (a : A) : run_spec G (ret a) (exits T G).
Proof. apply spec_ret. split; [assumption | discriminate]. Qed.

Lemma inv_raise {A} (e : exn) : run_spec G (@raise A e) (exits T G).
Proof. apply spec_raise. split; [assumption | discriminate]. Qed.

Lemma inv_bind {A B} (m : M A) (k : A -> M B) :
  run_spec G m (exits T G) ->
  (forall a, run_spec G (k a) (exits T G)) ->
  run_spec G (bind m k) (exits T G).
Proof.
  intros Hm Hk. eapply spec_bind; [exact Hm | | |].
  - intros a. eapply spec_weaken; [apply Hk | | auto]. intros h [HG _]. exact HG.
  - intros e h [HG _]. split; [exact HG | discriminate].
  - intros h [HG HT]. split; [exact HG | intros _; apply HT; reflexivity].
Qed.

Lemma inv_try_except {A} (body : M A) handler :
  run_spec G body (exits T G) ->
  (forall e, run_spec G (handler e) (exits T G)) ->
  run_spec G (try_except body handler) (exits T G).
Proof.
  intros Hb Hh. eapply spec_try_except; [exact Hb | | |].
  - intros e. eapply spec_weaken; [apply Hh | | auto]. intros h [HG _]. exact HG.
  - intros a h [HG _]. split; [exact HG | discriminate].
  - intros h H. exact H.
Qed.

Lemma inv_try_except_if {A} catches (body : M A) handler :
  run_spec G body (exits T G) ->
  (forall e, run_spec G (handler e) (exits T G)) ->
  run_spec G (try_except_if catches body handler) (exits T G).
Proof.
  intros Hb Hh h o h' HG. unfold try_except_if.
  destruct (body h) as [[a | e |] h1] eqn:E.
  - intros [= <- <-]. eapply Hb; eauto.
  - destruct (catches e).
    + intros Hrun. eapply Hh; [eapply Hb; eauto | exact Hrun].
    + intros [= <- <-]. eapply Hb; eauto.
  - intros [= <- <-]. eapply Hb; eauto.
Qed.

Lemma inv_try_finally {A} (body : M A) final :
  run_spec G body (exits T G) ->
  run_spec G final (exits T G) ->
  run_spec G (try_finally body final) (exits T G).
Proof.
  intros Hb Hf h o h' HG. unfold try_finally.
  destruct (body h) as [ob h1] eqn:E.
  destruct (Hb h ob h1 HG E) as [HG1 Hob].
  assert (Hfinal : forall o1 : outcome A, o1 <> OutOfFuel ->
            match final h1 with
            | (Ret _, h'') => (o1, h'')
            | (Exc e, h'') => (Exc e, h'')
            | (OutOfFuel, h'') => (OutOfFuel, h'')
            end = (o, h') -> exits T G o h').
  { intros o1 Ho1.
    destruct (final h1) as [[[] | e' |] h2] eqn:E2;
      intros [= <- <-];
      destruct (Hf h1 _ h2 HG1 E2) as [HG2 Hof];
      (split; [exact HG2 |]).
    - intros Heq. contradiction.
    - discriminate.
    - intros _. apply Hof. reflexivity. }
  destruct ob as [a | e |].
  - apply Hfinal. discriminate.
  - apply Hfinal. discriminate.
  - intros [= <- <-]. split; [exact HG1 | exact Hob].
Qed.

Lemma inv_perform (c : call) :
  (forall h r, G h -> G ((c, r) :: h)) ->
  run_spec G (perform oracle c) (exits T G).
Proof.
  intros H. apply spec_perform. intros h r HG.
  split; [apply H, HG | destruct r; discriminate].
Qed.

Lemma inv_perform_ (c : call) :
  (forall h r, G h -> G ((c, r) :: h)) ->
  run_spec G (perform_ oracle c) (exits T G).
Proof.
  intros H. apply inv_bind; [apply inv_perform, H | intros; apply inv_ret].
Qed.

Lemma inv_as_str v : run_spec G (as_str v) (exits T G).
Proof. destruct v; first [apply inv_ret | apply inv_raise]. Qed.

Lemma inv_as_int v : run_spec G (as_int v) (exits T G).
Proof. destruct v; first [apply inv_ret | apply inv_raise]. Qed.

Lemma inv_fnmatch name pat : run_spec G (fnmatch name pat) (exits T G).
Proof. destruct pat; first [apply inv_ret | apply inv_raise]. Qed.

Lemma inv_matches_pattern prefix pat key name :
  run_spec G (matches_pattern prefix pat key name) (exits T G).
Proof.
  unfold matches_pattern.
  destruct (pyval_eqb pat (PStr "*")); [apply inv_ret |].
  apply inv_bind; [apply inv_fnmatch | intros [|]; [apply inv_ret |]].
  apply inv_bind; [apply inv_fnmatch | intros [|]; [apply inv_ret |]].
  apply inv_fnmatch.
Qed.

Lemma inv_matches_pattern_batch prefix pat key name :
  run_spec G (matches_pattern_batch prefix pat key name) (exits T G).
Proof.
  unfold matches_pattern_batch.
  apply inv_bind; [apply inv_fnmatch | intros [|]; [apply inv_ret |]].
  apply inv_bind; [apply inv_fnmatch | intros [|]; apply inv_ret].
Qed.

Lemma inv_source_prefix cfg : run_spec G (source_prefix cfg) (exits T G).
Proof.
  unfold source_prefix.
  apply inv_bind; [apply inv_as_str | intros; apply inv_ret].
Qed.

End Invariant.

(** The fetch loop may run out of fuel. *)
Lemma inv_out_of_fuel {A} G : run_spec G (@out_of_fuel A) (kept G).
Proof. intros h o h' HG [= <- <-]. split; [exact HG | trivial]. Qed.

(** A run that ends by itself keeps what it keeps. *)
Lemma always_kept {A} G (m : M A) :
  run_spec G m (always G) -> run_spec G m (kept G).
Proof.
  intros Hm. eapply spec_weaken; [exact Hm | auto |].
  intros o h [HG _]. split; [exact HG | trivial].
Qed.

End Rules.
(** * Copy, then delete *)

Lemma ends_with_refl s : ends_with s s = true.
Proof. destruct s; simpl; rewrite ?String.eqb_refl, ?Ascii.eqb_refl; reflexivity. Qed.

Lemma ends_with_app a s : ends_with s (a +:+ s) = true.
Proof.
  induction a as [| c a IH]; simpl.
  - apply ends_with_refl.
  - rewrite IH. apply orb_true_r.
Qed.

Lemma append_assoc a b c : (a +:+ b) +:+ c = a +:+ b +:+ c.
Proof.
  induction a as [| x a IH]; [reflexivity |].
  change (String x ((a +:+ b) +:+ c) = String x (a +:+ b +:+ c)).
  f_equal. exact IH.
Qed.

Lemma ends_with_path_join d name : ends_with name (PyStr.path_join d name) = true.
Proof.
  unfold PyStr.path_join.
  destruct (String.prefix "/" name); [apply ends_with_refl |].
  destruct (String.eqb d ""); [apply ends_with_refl |].
  destruct (PyStr.endswith_slash d); [apply ends_with_app |].
  rewrite <- append_assoc. apply ends_with_app.
Qed.

Lemma guarded_other dt c r h :
  is_delete c = false -> guarded dt h -> guarded dt ((c, r) :: h).
Proof. destruct c; simpl; intros; solve [assumption | discriminate]. Qed.

Lemma guarded_delete dt b k r e h :
  delivery_of dt k e = true -> guarded dt (e :: h) ->
  guarded dt ((DeleteObject b k, r) :: e :: h).
Proof. intros Hd Hg. split; assumption. Qed.

Lemma guarded_split dt h : forall after b k r before,
  guarded dt h ->
  h = (after ++ (DeleteObject b k, r) :: before)%list ->
  exists e before', before = e :: before' /\ delivery_of dt k e = true.
Proof.
  intros after. revert h.
  induction after as [| x after IH]; intros h b k r before Hg Heq; subst h.
  - simpl in Hg. destruct Hg as [Hd _].
    destruct before as [| e before']; [contradiction | eauto].
  - apply (IH (after ++ (DeleteObject b k, r) :: before)%list b k r before);
      [| reflexivity].
    destruct x as [[] rx]; simpl in Hg; try exact Hg.
    apply Hg.
Qed.

(** The adapters, for any invariant [G] of the history that every call
    other than a delete or a write to the run records keeps, and that a
    delete keeps when it directly follows the delivery of its key.
    [guarded] is such an invariant, and so is the trivial one, which
    leaves the fact that the run ends. *)
Section Transfers.

Variable oracle : history -> call -> reply.
Variable dt : string.
Variable G : history -> Prop.

Hypothesis G_other :
  forall c r h,
    is_delete c = false -> is_record_call c = false ->
    G h -> G ((c, r) :: h).
Hypothesis G_delete :
  forall b k r e h,
    delivery_of dt k e = true -> G (e :: h) ->
    G ((DeleteObject b k, r) :: e :: h).

Ltac keeps :=
  intros; apply G_other; [reflexivity | reflexivity | assumption].

Lemma inv_list_objects_v2 bucket prefix :
  run_spec G (list_objects_v2 oracle bucket prefix) (always G).
Proof.
  unfold list_objects_v2.
  apply inv_bind; [apply inv_perform; keeps |].
  intros []; first [apply inv_ret | apply inv_raise].
Qed.

Lemma inv_new_path c :
  is_delete c = false -> is_record_call c = false ->
  run_spec G (new_path oracle c) (always G).
Proof.
  intros Hc Hc'. unfold new_path.
  apply inv_bind; [apply inv_perform; intros; apply G_other; auto |].
  intros []; first [apply inv_ret | apply inv_raise].
Qed.

Lemma inv_with_temporary_directory {A} (body : string -> M A) :
  (forall d, run_spec G (body d) (always G)) ->
  run_spec G (with_temporary_directory oracle body) (always G).
Proof.
  intros Hbody. unfold with_temporary_directory.
  apply inv_bind; [apply inv_new_path; reflexivity |].
  intros d. apply inv_try_finally; [apply Hbody |].
  apply inv_perform_; keeps.
Qed.

(** A delivery call directly followed by the delete of the same key. *)
Lemma inv_deliver_delete {A} (c : call) b k (rest : M A) :
  is_delete c = false ->
  is_record_call c = false ->
  (forall r, raised r = false -> delivery_of dt k (c, r) = true) ->
  run_spec G rest (always G) ->
  run_spec G (perform oracle c ;;; perform oracle (DeleteObject b k) ;;; rest)
           (always G).
Proof.
  intros Hc Hc' Hdeliv Hrest.
  eapply spec_bind with
    (R := fun o h => (G h /\ o <> OutOfFuel) /\
            (forall a, o = Ret a ->
               exists r h0, h = (c, r) :: h0 /\ raised r = false)).
  - apply spec_perform. intros h r HG. split; [split |].
    + apply G_other; assumption.
    + destruct r; discriminate.
    + intros a Ha. exists r, h. split; [reflexivity |].
      destruct r; simpl in *; congruence.
  - intros a. eapply spec_bind with (R := always G).
    + apply spec_perform. intros h r [[HG _] Hhd].
      destruct (Hhd a eq_refl) as (r0 & h0 & Heq & Hr0). subst h.
      split; [| destruct r; discriminate].
      apply G_delete; [apply Hdeliv, Hr0 | exact HG].
    + intros ?. eapply spec_weaken; [exact Hrest | | auto].
      intros h [HG _]. exact HG.
    + intros e h [HG _]. split; [exact HG | discriminate].
    + intros h [_ Hf]. congruence.
  - intros e h [[HG _] _]. split; [exact HG | discriminate].
  - intros h [[_ Hf] _]. congruence.
Qed.

(** **** Object store *)

Lemma move_loop_inv sb db prefix dest_prefix pat contents :
  dt = "s3" ->
  forall n,
    run_spec G (move_loop oracle sb db prefix dest_prefix pat contents n)
             (always G).
Proof.
  intros Hdt.
  induction contents as [| file_key rest IH]; intros n; simpl.
  - apply inv_ret.
  - destruct (PyStr.endswith_slash file_key); [apply IH |].
    apply inv_bind; [apply inv_matches_pattern |].
    intros [|]; [| apply IH].
    apply inv_deliver_delete; [reflexivity | reflexivity | | apply IH].
    intros r Hr. subst dt. simpl. rewrite String.eqb_refl, Hr. simpl.
    destruct (String.eqb dest_prefix "");
      [rewrite ends_with_refl | rewrite <- append_assoc, ends_with_app];
      reflexivity.
Qed.

Lemma move_processed_files_try_inv sc dc creds :
  dt = "s3" ->
  run_spec G (move_processed_files_try oracle sc dc creds) (always G).
Proof.
  intros Hdt. unfold move_processed_files_try.
  apply inv_bind; [apply inv_perform; keeps | intros _].
  apply inv_bind; [apply inv_source_prefix | intros prefix].
  apply inv_bind; [apply inv_as_str | intros dest_prefix].
  apply inv_bind; [apply inv_list_objects_v2 |].
  intros [contents |]; [apply move_loop_inv, Hdt | apply inv_ret].
Qed.

(** **** SFTP *)

Lemma sftp_loop_inv sb prefix pat dest tmpdir contents :
  dt = "sftp" ->
  forall n,
    run_spec G (sftp_loop oracle sb prefix pat dest tmpdir contents n)
             (always G).
Proof.
  intros Hdt.
  induction contents as [| file_key rest IH]; intros n; simpl.
  - apply inv_ret.
  - destruct (PyStr.endswith_slash file_key); [apply IH |].
    apply inv_bind; [apply inv_matches_pattern_batch |].
    intros [|]; [| apply IH].
    apply inv_bind; [apply inv_perform; keeps | intros _].
    apply inv_bind; [apply inv_as_str | intros d].
    apply inv_deliver_delete; [reflexivity | reflexivity | | apply IH].
    intros r Hr. subst dt. simpl. rewrite Hr. simpl.
    rewrite ends_with_app. reflexivity.
Qed.

Lemma transfer_to_sftp_try_inv sc dc creds :
  dt = "sftp" ->
  run_spec G (transfer_to_sftp_try oracle sc dc creds) (always G).
Proof.
  intros Hdt. unfold transfer_to_sftp_try.
  apply inv_bind; [apply inv_perform; keeps | intros _].
  apply inv_bind; [apply inv_perform; keeps | intros _].
  apply inv_bind.
  { destruct (truthy _).
    - apply inv_bind; [apply inv_perform; keeps | intros _].
      apply inv_perform_; keeps.
    - apply inv_perform_; keeps. }
  intros _.
  apply inv_bind; [apply inv_perform; keeps | intros _].
  apply inv_bind; [apply inv_source_prefix | intros prefix].
  apply inv_bind; [apply inv_list_objects_v2 |].
  intros response. apply inv_bind.
  { destruct response as [contents |]; [| apply inv_ret].
    apply inv_with_temporary_directory.
    intros; apply sftp_loop_inv, Hdt. }
  intros n.
  apply inv_bind; [apply inv_perform; keeps | intros _].
  apply inv_bind; [apply inv_perform; keeps | intros _].
  apply inv_ret.
Qed.

(** **** Mounted file system *)

Lemma filesystem_loop_inv sb prefix pat dest contents :
  String.eqb dt "nfs" || String.eqb dt "filesystem" = true ->
  forall n,
    run_spec G (filesystem_loop oracle sb prefix pat dest contents n)
             (always G).
Proof.
  intros Hdt.
  induction contents as [| file_key rest IH]; intros n; simpl.
  - apply inv_ret.
  - destruct (PyStr.endswith_slash file_key); [apply IH |].
    apply inv_bind; [apply inv_matches_pattern_batch |].
    intros [|]; [| apply IH].
    apply inv_bind; [apply inv_as_str | intros d].
    apply inv_deliver_delete; [reflexivity | reflexivity | | apply IH].
    intros r Hr. simpl. rewrite Hdt, Hr, String.eqb_refl. simpl.
    rewrite ends_with_path_join. reflexivity.
Qed.

Lemma transfer_to_filesystem_try_inv sc dc creds :
  String.eqb dt "nfs" || String.eqb dt "filesystem" = true ->
  run_spec G (transfer_to_filesystem_try oracle sc dc creds) (always G).
Proof.
  intros Hdt. unfold transfer_to_filesystem_try.
  apply inv_bind; [apply inv_perform; keeps | intros _].
  apply inv_bind; [apply inv_perform; keeps | intros _].
  apply inv_bind; [apply inv_source_prefix | intros prefix].
  apply inv_bind; [apply inv_list_objects_v2 |].
  intros [contents |]; [apply filesystem_loop_inv, Hdt | apply inv_ret].
Qed.

(** **** REST endpoint *)

(** When [session.request] returns a status, that response is the newest
    event. *)
Lemma session_request_inv retries method url name multipart :
  run_spec G (session_request oracle retries method url name multipart)
    (fun o h => always G o h /\
       forall code, o = Ret code ->
         exists h0, h = (HttpSend method url name multipart,
                         HttpStatus code) :: h0).
Proof.
  assert (Hsent : forall h r,
            G h -> G ((HttpSend method url name multipart, r) :: h))
    by (intros h r HG; apply G_other; [reflexivity | reflexivity | exact HG]).
  assert (Hraised : forall (e : exn) (h : history),
            G h ->
            always G (@Exc Z e) h /\
            forall code, @Exc Z e = Ret code ->
              exists h0, h = (HttpSend method url name multipart,
                              HttpStatus code) :: h0)
    by (intros e h HG; split; [split; [exact HG |] |]; discriminate).
  induction retries as [| retries IH]; intros h o h' HG;
    cbn [session_request];
    unfold bind, try_except_if, perform, has_retry_after, ret, raise,
      type_error;
    specialize (Hsent h (oracle h (HttpSend method url name multipart)) HG);
    destruct (oracle h (HttpSend method url name multipart))
      as [e | | | code | | | | | | | | |];
    try (intros [= <- <-]; apply Hraised, Hsent).
  - destruct (is_wire_error e); [| intros [= <- <-]; apply Hraised, Hsent].
    destruct (is_retried_error method e);
      intros [= <- <-]; apply Hraised, Hsent.
  - destruct (is_retry method code || is_retry_after 0 method code _);
      intros [= <- <-]; [apply Hraised, Hsent |].
    split; [split; [exact Hsent | discriminate] |].
    intros code' [= <-]. eexists. reflexivity.
  - destruct (is_wire_error e); [| intros [= <- <-]; apply Hraised, Hsent].
    destruct (is_retried_error method e);
      [apply IH, Hsent | intros [= <- <-]; apply Hraised, Hsent].
  - destruct (is_retry method code
              || is_retry_after (S retries) method code _);
      [apply IH, Hsent |].
    intros [= <- <-].
    split; [split; [exact Hsent | discriminate] |].
    intros code' [= <-]. eexists. reflexivity.
Qed.

Lemma rest_upload_inv sb file_key local method url multipart :
  dt = "rest_api" ->
  run_spec G
    (rest_upload oracle sb file_key (PyStr.split_last file_key) local
                 method url multipart)
    (always G).
Proof.
  intros Hdt. unfold rest_upload.
  apply inv_try_except_if; [| intros; apply inv_ret].
  apply inv_bind; [apply inv_perform; keeps | intros _].
  eapply spec_bind; [apply session_request_inv | | |].
  - intros code. unfold raise_for_status.
    destruct ((400 <=? code) && (code <? 600)) eqn:Hcode.
    + eapply spec_bind with
        (R := fun o h => match o with Exc _ => G h | _ => False end).
      * apply spec_raise. intros h [[HG _] _]. exact HG.
      * intros ? h o h' [].
      * intros e h HG. split; [exact HG | discriminate].
      * intros h [].
    + eapply spec_bind with
        (R := fun o h => (G h /\ o <> OutOfFuel) /\
                exists h0, h = (HttpSend method url (PyStr.split_last file_key)
                                         multipart, HttpStatus code) :: h0).
      * apply spec_ret. intros h [[HG _] Hh].
        split; [split; [exact HG | discriminate] | apply Hh; reflexivity].
      * intros ?.
        eapply spec_bind with (R := always G).
        -- apply spec_perform. intros h r [[HG _] [h0 Heq]]. subst h.
           split; [| destruct r; discriminate].
           apply G_delete; [| exact HG].
           subst dt. simpl. rewrite String.eqb_refl. unfold accepted.
           rewrite Hcode. reflexivity.
        -- intros ?. eapply spec_weaken;
             [apply inv_ret | | intros ? ? H; exact H].
           intros h [HG _]. exact HG.
        -- intros e h [HG _]. split; [exact HG | discriminate].
        -- intros h [_ Hf]. congruence.
      * intros e h [[HG _] _]. split; [exact HG | discriminate].
      * intros h [[_ Hf] _]. congruence.
  - intros e h [[HG _] _]. split; [exact HG | discriminate].
  - intros h [[_ Hf] _]. congruence.
Qed.

Lemma rest_loop_inv sb prefix pat method url multipart tmpdir contents :
  dt = "rest_api" ->
  forall n,
    run_spec G
      (rest_loop oracle sb prefix pat method url multipart tmpdir contents n)
      (always G).
Proof.
  intros Hdt.
  induction contents as [| file_key rest IH]; intros n; simpl.
  - apply inv_ret.
  - destruct (PyStr.endswith_slash file_key); [apply IH |].
    apply inv_bind; [apply inv_matches_pattern_batch |].
    intros [|]; [| apply IH].
    apply inv_bind; [apply inv_perform; keeps | intros _].
    apply inv_bind; [apply rest_upload_inv, Hdt | intros sent; apply IH].
Qed.

Lemma transfer_to_rest_api_try_inv sc dc creds :
  dt = "rest_api" ->
  run_spec G (transfer_to_rest_api_try oracle sc dc creds) (always G).
Proof.
  intros Hdt. unfold transfer_to_rest_api_try.
  apply inv_bind; [apply inv_as_str | intros _].
  apply inv_bind; [apply inv_perform; keeps | intros _].
  apply inv_bind;
    [destruct (truthy _); [apply inv_ret | apply inv_raise] | intros _].
  apply inv_bind; [apply inv_as_str | intros method].
  apply inv_bind; [apply inv_perform; keeps | intros _].
  apply inv_bind; [apply inv_source_prefix | intros prefix].
  apply inv_bind; [apply inv_list_objects_v2 |].
  intros response. apply inv_bind.
  { destruct response as [contents |]; [| apply inv_ret].
    apply inv_with_temporary_directory.
    intros; apply rest_loop_inv, Hdt. }
  intros n.
  apply inv_bind; [apply inv_perform; keeps | intros _].
  apply inv_ret.
Qed.

(** **** The dispatcher *)

(** A [try] block under [except Exception: return 0]. *)
Lemma inv_returns_zero (body : M Z) :
  run_spec G body (always G) ->
  run_spec G (try_except body (fun _ => ret 0))
           (fun o h => G h /\ exists n, o = Ret n).
Proof.
  intros Hb. eapply spec_try_except; [exact Hb | | |].
  - intros e. apply spec_ret. intros h [HG _]. split; [exact HG | eauto].
  - intros a h [HG _]. split; [exact HG | eauto].
  - intros h [_ Hf]. congruence.
Qed.

Lemma transfer_files_function_inv sc dc creds :
  run_spec G (transfer_files_function oracle sc dc creds dt)
           (fun o h => G h /\ exists n, o = Ret n).
Proof.
  unfold transfer_files_function.
  destruct (String.eqb dt "s3") eqn:Es3.
  { apply String.eqb_eq in Es3.
    apply inv_returns_zero, move_processed_files_try_inv, Es3. }
  destruct (String.eqb dt "sftp") eqn:Esftp.
  { apply String.eqb_eq in Esftp.
    apply inv_returns_zero, transfer_to_sftp_try_inv, Esftp. }
  destruct (String.eqb dt "nfs" || String.eqb dt "filesystem") eqn:Efs.
  { apply inv_returns_zero, transfer_to_filesystem_try_inv, Efs. }
  destruct (String.eqb dt "rest_api") eqn:Erest.
  { apply String.eqb_eq in Erest.
    apply inv_returns_zero, transfer_to_rest_api_try_inv, Erest. }
  apply spec_ret. intros h HG. split; [exact HG | eauto].
Qed.

End Transfers.

(** The dispatcher keeps the guard of the destination type it was given. *)
Lemma transfer_files_function_guarded oracle sc dc creds dt :
  run_spec (guarded dt) (transfer_files_function oracle sc dc creds dt)
           (fun o h => guarded dt h /\ exists n, o = Ret n).
Proof.
  apply transfer_files_function_inv.
  - intros. apply guarded_other; assumption.
  - intros. apply guarded_delete; assumption.
Qed.

(** Whatever happens inside an adapter, the dispatcher returns a count. *)
Lemma transfer_files_function_returns oracle sc dc creds dt h :
  exists n h', transfer_files_function oracle sc dc creds dt h = (Ret n, h').
Proof.
  destruct (transfer_files_function oracle sc dc creds dt h) as [o h'] eqn:E.
  destruct (transfer_files_function_inv oracle dt (fun _ => True)
              (fun _ _ _ _ _ _ => I) (fun _ _ _ _ _ _ _ => I)
              sc dc creds h o h' I E) as [_ [n ->]].
  eauto.
Qed.

(** C1.  In a file-matching transfer through any adapter (object store,
    SFTP, mounted file system, REST), whatever the outside world answers:
    every [DeleteObject] of a source key that the run issues comes directly
    after the event that completed the delivery of that same object
    without raising -- the copy to the destination key, the SFTP upload,
    the download into the destination directory, or the HTTP response that
    [raise_for_status] accepts.  Hence a copy or upload that failed is never
    followed by the delete of its source object. *)
Theorem delete_only_after_delivery oracle sc dc creds dt
        after bucket key r before :
  snd (transfer_files_function oracle sc dc creds dt [])
  = (after ++ (DeleteObject bucket key, r) :: before)%list ->
  exists e before',
    before = e :: before' /\ delivery_of dt key e = true.
Proof.
  intros Hrun.
  eapply guarded_split; [| exact Hrun].
  destruct (transfer_files_function oracle sc dc creds dt []) as [o h] eqn:E.
  eapply (transfer_files_function_guarded oracle sc dc creds dt []);
    [exact I | exact E].
Qed.

Lemma delete_only_after_delivery_witness :
  exists e before',
    [ (CopyObject (PStr "in") "data/orders.csv" (PStr "out")
                  "done/orders.csv", Done);
      (ListObjectsV2 (PStr "in") "data/",
                     Listing (Some ["data/"; "data/orders.csv"]));
      (S3Client, Done) ] = e :: before'
    /\ delivery_of "s3" "data/orders.csv" e = true.
Proof.
  apply (delete_only_after_delivery
           (steady ["data/"; "data/orders.csv"]) inbox outbox ∅ "s3"
           [] (PStr "in") "data/orders.csv" Done).
  vm_compute. reflexivity.
Defined.

(** * The outcome of a file-matching run *)

Lemma bind_ret_run {A B} (m : M A) (k : A -> M B) h a h' :
  m h = (Ret a, h') -> bind m k h = k a h'.
Proof. intros E. unfold bind. rewrite E. reflexivity. Qed.

Lemma bind_exc_run {A B} (m : M A) (k : A -> M B) h e h' :
  m h = (Exc e, h') -> bind m k h = (Exc e, h').
Proof. intros E. unfold bind. rewrite E. reflexivity. Qed.

(** The placeholders touch the ["path"] entry only. *)
Lemma resolve_destination_path_keeps oracle dc project_id env h dc' h' k :
  resolve_destination_path oracle dc project_id env h = (Ret dc', h') ->
  k <> "path" -> get dc' k = get dc k.
Proof.
  unfold resolve_destination_path. intros Hrun Hk.
  destruct (has_key dc "path"); [| injection Hrun as <- _; reflexivity].
  destruct (get dc "path") as [| | | dest_path]; try discriminate.
  unfold bind in Hrun.
  match type of Hrun with
  | context [match ?m h with _ => _ end] => destruct (m h) as [[p | e |] h1]
  end; try discriminate.
  injection Hrun as <- _. unfold get.
  rewrite lookup_insert_ne; [reflexivity | congruence].
Qed.

Section FileTransferRun.

Variable oracle : history -> call -> reply.
Variable getenv : string -> option string.
Variable DLT_AVAILABLE : bool.

(** Past the placeholders, a file-matching run is the dispatcher under
    a success report. *)
Lemma run_dlt_pipeline_file_transfer fuel config project_id env h dc' h' :
  source_type config = "filesystem" ->
  one_of (destination_type config) file_transfer_destinations = true ->
  resolve_destination_path oracle (destination_config config)
                           project_id env h = (Ret dc', h') ->
  exists n h'',
    transfer_files_function
      oracle (source_config config) dc'
      (get_s3_credentials getenv (source_config config))
      (destination_type config) h' = (Ret n, h'')
    /\ run_dlt_pipeline oracle getenv DLT_AVAILABLE fuel config
                        project_id env h
       = (Ret (Result Success 0 (STransferred n)), h'').
Proof.
  intros Hsrc Hdst Hresolve.
  destruct (transfer_files_function_returns
              oracle (source_config config) dc'
              (get_s3_credentials getenv (source_config config))
              (destination_type config) h') as (n & h'' & Hrun).
  exists n, h''. split; [exact Hrun |].
  unfold run_dlt_pipeline.
  rewrite (bind_ret_run _ _ _ _ _ Hresolve).
  rewrite Hsrc, Hdst. cbn [String.eqb Ascii.eqb Bool.eqb orb].
  unfold try_except.
  rewrite (bind_ret_run _ _ _ _ _ Hrun). reflexivity.
Qed.

(** Without an endpoint URL the REST adapter gives up before it lists,
    downloads or sends anything: at most the client of the source store
    was built. *)
Lemma transfer_to_rest_api_function_without_url sc dc creds h :
  truthy (py_or (get dc "url") (get dc "endpoint_url")) = false ->
  exists h',
    transfer_to_rest_api_function oracle sc dc creds h = (Ret 0, h')
    /\ (h' = h \/ exists r, h' = (S3Client, r) :: h).
Proof.
  intros Hurl.
  unfold transfer_to_rest_api_function, transfer_to_rest_api_try, try_except.
  set (endpoint := py_or _ _) at 1.
  destruct endpoint; cbn [as_str attribute_error bind raise];
    try (eexists; split; [reflexivity | left; reflexivity]).
  unfold bind at 1. unfold ret at 1. cbv beta iota.
  unfold bind at 1. unfold perform at 1.
  destruct (oracle h S3Client) eqn:Eclient;
    try (rewrite Hurl; cbn [bind raise];
         eexists; split; [reflexivity | right; eexists; reflexivity]).
  eexists; split; [reflexivity | right; eexists; reflexivity].
Qed.

End FileTransferRun.

(** An exception in the [try] block of an adapter becomes the count 0,
    whatever the block had done before. *)
Lemma try_block_exception_is_zero (body : M Z) h e h' :
  body h = (Exc e, h') -> try_except body (fun _ => ret 0) h = (Ret 0, h').
Proof. intros E. unfold try_except. rewrite E. reflexivity. Qed.

(** C10.  For a file-matching run (source type filesystem, destination
    type among s3, sftp, nfs, filesystem, rest_api) whose destination path
    placeholders resolve without raising -- they are filled in before the
    [try] of [run_dlt_pipeline] -- the pipeline returns status success with
    rows_ingested 0 and the count of the dispatcher, whatever the outside
    world answers.  An exception raised in the [try] block of any of the
    four transfer functions is turned into the count 0, with the history
    left as the block made it (objects already copied and deleted stay
    so), and a destination type the dispatcher does not know yields 0 with
    no call made. *)
Theorem file_transfer_run_reports_success
        oracle getenv DLT_AVAILABLE fuel config project_id env h dc' h' :
  source_type config = "filesystem" ->
  one_of (destination_type config) file_transfer_destinations = true ->
  resolve_destination_path oracle (destination_config config)
                           project_id env h = (Ret dc', h') ->
  (exists n h'',
     run_dlt_pipeline oracle getenv DLT_AVAILABLE fuel config project_id env h
     = (Ret (Result Success 0 (STransferred n)), h''))
  /\ (forall sc dc creds h0 e h1,
        (move_processed_files_try oracle sc dc creds h0 = (Exc e, h1) ->
         move_processed_files_function oracle sc dc creds h0 = (Ret 0, h1))
        /\ (transfer_to_sftp_try oracle sc dc creds h0 = (Exc e, h1) ->
            transfer_to_sftp_function oracle sc dc creds h0 = (Ret 0, h1))
        /\ (transfer_to_filesystem_try oracle sc dc creds h0 = (Exc e, h1) ->
            transfer_to_filesystem_function oracle sc dc creds h0
            = (Ret 0, h1))
        /\ (transfer_to_rest_api_try oracle sc dc creds h0 = (Exc e, h1) ->
            transfer_to_rest_api_function oracle sc dc creds h0
            = (Ret 0, h1)))
  /\ (forall sc dc creds dt h0,
        (exists n h1,
           transfer_files_function oracle sc dc creds dt h0 = (Ret n, h1))
        /\ (one_of dt file_transfer_destinations = false ->
            transfer_files_function oracle sc dc creds dt h0 = (Ret 0, h0))).
Proof.
  intros Hsrc Hdst Hresolve. split; [| split].
  - destruct (run_dlt_pipeline_file_transfer
                oracle getenv DLT_AVAILABLE fuel config project_id env h dc' h'
                Hsrc Hdst Hresolve) as (n & h'' & _ & Hrun).
    eauto.
  - intros sc dc creds h0 e h1.
    repeat split; apply try_block_exception_is_zero.
  - intros sc dc creds dt h0. split.
    + apply transfer_files_function_returns.
    + unfold one_of, file_transfer_destinations, transfer_files_function.
      cbn [existsb]. intros Hdt.
      destruct (String.eqb dt "s3"); [discriminate |].
      destruct (String.eqb dt "sftp"); [discriminate |].
      destruct (String.eqb dt "nfs"); [discriminate |].
      destruct (String.eqb dt "filesystem"); [discriminate |].
      destruct (String.eqb dt "rest_api"); [discriminate |].
      reflexivity.
Qed.

Lemma file_transfer_run_reports_success_witness :
  exists n h'',
    run_dlt_pipeline (steady ["data/"; "data/orders.csv"]) no_environment
                     true 0 templated_share "acme" "dev" []
    = (Ret (Result Success 0 (STransferred n)), h'').
Proof.
  refine (proj1 (file_transfer_run_reports_success
                   (steady ["data/"; "data/orders.csv"]) no_environment
                   true 0 templated_share "acme" "dev" []
                   (<["path" := PStr "/mnt/dev/acme"]> ∅) [] _ _ _));
    vm_compute; reflexivity.
Defined.

(** C10, as stated, fails: a placeholder other than the two known ones
    makes [str.format] raise before the [try], and the pipeline raises
    instead of reporting success. *)
Lemma file_transfer_run_counterexample :
  source_type unknown_placeholder = "filesystem"
  /\ destination_type unknown_placeholder = "filesystem"
  /\ run_dlt_pipeline (steady ["data/orders.csv"]) no_environment true 0
                      unknown_placeholder "acme" "dev" []
     = (Exc (Exn KeyError "'tenant'"), []).
Proof. vm_compute. repeat split; reflexivity. Qed.

(** The first object is moved, the copy of the second fails: the count
    that comes back is 0. *)
Example partial_move_reports_zero :
  move_processed_files_function
    (except_for (fun _ c =>
                   match c with
                   | CopyObject _ "data/b.csv" _ _ =>
                       Some (Raise (Exn OtherError "AccessDenied"))
                   | _ => None
                   end)
                (steady ["data/a.csv"; "data/b.csv"]))
    inbox outbox ∅ []
  = (Ret 0,
     [ (CopyObject (PStr "in") "data/b.csv" (PStr "out") "done/b.csv",
        Raise (Exn OtherError "AccessDenied"));
       (DeleteObject (PStr "in") "data/a.csv", Done);
       (CopyObject (PStr "in") "data/a.csv" (PStr "out") "done/a.csv", Done);
       (ListObjectsV2 (PStr "in") "data/",
                      Listing (Some ["data/a.csv"; "data/b.csv"]));
       (S3Client, Done) ]).
Proof. vm_compute. reflexivity. Qed.

(** C8.  When the REST destination has no usable ['url'] or
    ['endpoint_url'] (absent, [None] or empty) and the destination path
    placeholders resolve, the configuration error is raised inside the
    adapter's [try] before anything is listed, downloaded or sent -- at
    most the client of the source store was built -- and is turned into
    the count 0: the pipeline returns status success with
    "Transferred 0 file(s) to destination.", not failed. *)
Theorem rest_without_url_reports_success
        oracle getenv DLT_AVAILABLE fuel config project_id env h dc' h' :
  source_type config = "filesystem" ->
  destination_type config = "rest_api" ->
  truthy (py_or (get (destination_config config) "url")
                (get (destination_config config) "endpoint_url")) = false ->
  resolve_destination_path oracle (destination_config config)
                           project_id env h = (Ret dc', h') ->
  exists h'',
    run_dlt_pipeline oracle getenv DLT_AVAILABLE fuel config project_id env h
    = (Ret (Result Success 0 (STransferred 0)), h'')
    /\ (h'' = h' \/ exists r, h'' = (S3Client, r) :: h').
Proof.
  intros Hsrc Hdst Hurl Hresolve.
  assert (Hone : one_of (destination_type config) file_transfer_destinations
                 = true) by (rewrite Hdst; reflexivity).
  destruct (run_dlt_pipeline_file_transfer
              oracle getenv DLT_AVAILABLE fuel config project_id env h dc' h'
              Hsrc Hone Hresolve) as (n & h'' & Hcount & Hrun).
  rewrite Hdst in Hcount.
  destruct (transfer_to_rest_api_function_without_url
              oracle (source_config config) dc'
              (get_s3_credentials getenv (source_config config)) h')
    as (h1 & Hzero & Hh1).
  { rewrite !(resolve_destination_path_keeps _ _ _ _ _ _ _ _ Hresolve)
      by discriminate.
    exact Hurl. }
  change (transfer_files_function oracle (source_config config) dc'
            (get_s3_credentials getenv (source_config config)) "rest_api" h')
    with (transfer_to_rest_api_function oracle (source_config config) dc'
            (get_s3_credentials getenv (source_config config)) h') in Hcount.
  rewrite Hzero in Hcount. injection Hcount as <- <-.
  exists h1. split; [exact Hrun | exact Hh1].
Qed.

Lemma rest_without_url_reports_success_witness :
  exists h'',
    run_dlt_pipeline (steady ["data/orders.csv"]) no_environment true 0
                     rest_without_url "acme" "dev" []
    = (Ret (Result Success 0 (STransferred 0)), h'')
    /\ (h'' = [] \/ exists r, h'' = [(S3Client, r)]).
Proof.
  refine (rest_without_url_reports_success
            (steady ["data/orders.csv"]) no_environment true 0
            rest_without_url "acme" "dev" []
            (destination_config rest_without_url) [] _ _ _ _);
    vm_compute; reflexivity.
Defined.

(** C8, as stated, fails: the run is reported as a success. *)
Lemma rest_without_url_counterexample :
  get (destination_config rest_without_url) "url" = PNone
  /\ get (destination_config rest_without_url) "endpoint_url" = PNone
  /\ run_dlt_pipeline (steady ["data/orders.csv"]) no_environment true 0
                      rest_without_url "acme" "dev" []
     = (Ret (Result Success 0 (STransferred 0)), [(S3Client, Done)]).
Proof. vm_compute. repeat split; reflexivity. Qed.


(** * File matching *)

(** The glob matcher and the path helpers on the shapes the adapters see. *)
Example fnmatch_csv : Fnmatch.fnmatch "data/in/orders.csv" "*.csv" = true.
Proof. reflexivity. Qed.

Example fnmatch_bak :
  Fnmatch.fnmatch "data/in/orders.csv.bak" "*.csv" = false.
Proof. reflexivity. Qed.

Example fnmatch_class : Fnmatch.fnmatch "a7.txt" "[a-c][!0-5].t?t" = true.
Proof. reflexivity. Qed.

Example split_last_ex :
  PyStr.split_last "data/in/orders.csv" = "orders.csv".
Proof. reflexivity. Qed.

Example rstrip_ex : PyStr.rstrip_slash "data/in//" = "data/in".
Proof. reflexivity. Qed.

Lemma matches_star_all s : Fnmatch.matches [Fnmatch.Star] s = true.
Proof.
  induction s as [| c s IH]; [reflexivity |].
  simpl in *. exact IH.
Qed.

(** The pattern [*] matches every name. *)
Lemma fnmatch_star name : Fnmatch.fnmatch name "*" = true.
Proof. unfold Fnmatch.fnmatch. simpl. apply matches_star_all. Qed.

Lemma pyval_eqb_str p q : pyval_eqb (PStr p) (PStr q) = String.eqb p q.
Proof. reflexivity. Qed.

(** The object-store adapter applies the three-way rule. *)
Lemma matches_pattern_is_spec_rule prefix p key name h :
  matches_pattern prefix (PStr p) key name h
  = (Ret (spec_pattern_rule prefix p key name), h).
Proof.
  unfold matches_pattern, spec_pattern_rule. rewrite pyval_eqb_str.
  destruct (String.eqb p "*") eqn:Estar.
  - apply String.eqb_eq in Estar. subst p.
    rewrite fnmatch_star. reflexivity.
  - unfold fnmatch, prefixed, bind, ret.
    destruct (Fnmatch.fnmatch name p); [reflexivity |].
    destruct (Fnmatch.fnmatch key (prefix +:+ p)); reflexivity.
Qed.

(** The SFTP, filesystem and REST adapters leave out the third clause. *)
Lemma matches_pattern_batch_is_two_way prefix p key name h :
  matches_pattern_batch prefix (PStr p) key name h
  = (Ret (Fnmatch.fnmatch name p || Fnmatch.fnmatch key (prefix +:+ p)), h).
Proof.
  unfold matches_pattern_batch, fnmatch, prefixed, bind, ret.
  destruct (Fnmatch.fnmatch name p) eqn:Ename; [reflexivity |].
  destruct (Fnmatch.fnmatch key (prefix +:+ p)); [reflexivity |].
  rewrite pyval_eqb_str.
  destruct (String.eqb p "*") eqn:Estar; [| reflexivity].
  apply String.eqb_eq in Estar. subst p.
  rewrite fnmatch_star in Ename. discriminate.
Qed.

(** C3.  The listed object [data/in/orders.csv] under the prefix [data/in/]
    with the pattern [data/*.csv] matches by the third clause of the rule
    (full key against the pattern unmodified) and by no other.  The
    object-store adapter transfers it; the SFTP, filesystem and REST
    adapters test two clauses only and leave it at the source. *)
Theorem full_key_glob_is_skipped_by_batch_adapters :
  let keys := ["data/in/"; "data/in/orders.csv"] in
  spec_pattern_rule "data/in/" "data/*.csv" "data/in/orders.csv" "orders.csv"
  = true
  /\ matches_pattern "data/in/" (PStr "data/*.csv")
                     "data/in/orders.csv" "orders.csv" []
     = (Ret true, [])
  /\ matches_pattern_batch "data/in/" (PStr "data/*.csv")
                           "data/in/orders.csv" "orders.csv" []
     = (Ret false, [])
  /\ fst (transfer_files_function (steady keys) inbox_full_key_glob outbox ∅
                                  "s3" []) = Ret 1
  /\ fst (transfer_files_function (steady keys) inbox_full_key_glob sftp_share
                                  ∅ "sftp" []) = Ret 0
  /\ fst (transfer_files_function (steady keys) inbox_full_key_glob sftp_share
                                  ∅ "filesystem" []) = Ret 0
  /\ fst (transfer_files_function (steady keys) inbox_full_key_glob
                                  (<["url" := PStr "https://partner/upload"]> ∅)
                                  ∅ "rest_api" []) = Ret 0.
Proof. vm_compute. repeat split; reflexivity. Qed.

(** * Resources left behind *)

(** C7.  The session is opened, the download of the first matched object
    raises, and the function returns 0 through its handler: neither
    [sftp.close()] nor [transport.close()] is among the calls made. *)
Theorem sftp_session_left_open_on_error :
  transfer_to_sftp_function (download_fails ["data/orders.csv"])
                            inbox sftp_share ∅ []
  = (Ret 0,
     [ (CleanupDirectory "/tmp/batch", Done);
       (DownloadFile (PStr "in") "data/orders.csv" "/tmp/batch/orders.csv",
        Raise (Exn OtherError "NoSuchKey"));
       (TemporaryDirectory, Text "/tmp/batch");
       (ListObjectsV2 (PStr "in") "data/",
                      Listing (Some ["data/orders.csv"]));
       (SftpFromTransport, Done);
       (TransportConnect (PStr "etl") false, Done);
       (Transport (PStr "nas") (PInt 22), Done);
       (S3Client, Done) ]).
Proof. vm_compute. reflexivity. Qed.

(** The transfer of an exported CSV, next to it, closes the transport in a
    [finally] when the upload raises. *)
Example transfer_csv_to_sftp_closes_on_error :
  map fst
    (snd (transfer_csv_to_sftp
            (except_for (fun _ c =>
                           match c with
                           | SftpPut _ _ => Some (Raise (Exn IOError "Failure"))
                           | _ => None
                           end)
                        (steady []))
            "/tmp/scratch.csv" "orders.csv" sftp_share 3 []))
  = [ Unlink "/tmp/scratch.csv"; PathExists "/tmp/scratch.csv";
      TransportClose; SftpPut "/tmp/scratch.csv" "/share/orders.csv";
      SftpStat "/share/"; SftpFromTransport;
      TransportConnect (PStr "etl") false;
      Transport (PStr "nas") (PInt 22) ].
Proof. vm_compute. reflexivity. Qed.

(** C6.  With the default batch size the rows go to a scratch file.  The
    first row is written, the next fetch raises, and the function returns
    its failure result with the scratch file still on disk. *)
Theorem scratch_file_left_on_fetch_error :
  let run := handle_database_source connection_drops 5
                                    (export_to_s3 warehouse) warehouse outbox
                                    [] in
  fst run = Ret (Result Failed 0 (SError (Exn OtherError "connection lost")))
  /\ map fst (snd run)
     = [ CloseSource; CloseCursor; FetchMany 10000;
         WriteRow (ToFile "/tmp/scratch.csv") (order 1);
         WriteHeader (ToFile "/tmp/scratch.csv") ["id"];
         NamedTemporaryFile; Description; FetchOne;
         Execute (PStr "SELECT id FROM orders");
         OpenCursor true; SetSession;
         SourceConnect (PStr "db") (PInt 5432) (PStr "sales")
                       (PStr "reader") (PStr "secret");
         Timestamp ]
  /\ scratch_left (snd run) = ["/tmp/scratch.csv"].
Proof. vm_compute. repeat split; reflexivity. Qed.

(** * Required fields of a database source *)

(** The configuration error names every missing field. *)
Lemma handle_database_source_missing oracle fuel config sc dc h :
  missing_fields sc <> [] ->
  handle_database_source oracle fuel config sc dc h
  = (Ret (Result Failed 0
            (SError (Exn ValueError (missing_message (missing_fields sc))))),
     h).
Proof.
  intros Hmissing. unfold handle_database_source, try_except.
  destruct (missing_fields sc) as [| f fs] eqn:E; [congruence |].
  reflexivity.
Qed.

(** A field is reported missing exactly when it is one of the six and the
    configuration has no value for it. *)
Lemma missing_fields_spec sc f :
  In f (missing_fields sc) <->
  In f ["host"; "port"; "database"; "username"; "password"; "query"]
  /\ get sc f = PNone.
Proof.
  unfold missing_fields. rewrite in_map_iff. split.
  - intros [[f' v] [Hf Hin]]. simpl in Hf. subst f'.
    apply filter_In in Hin as [Hin Hnone]. simpl in Hnone.
    unfold required_fields in Hin. simpl in Hin.
    assert (Hv : v = PNone) by (destruct v; [reflexivity | discriminate ..]).
    subst v.
    repeat (destruct Hin as [Hin | Hin];
            [injection Hin as <- Hget; split; [simpl; tauto | exact Hget] |]).
    destruct Hin.
  - intros [Hin Hnone]. exists (f, PNone). split; [reflexivity |].
    apply filter_In. split; [| reflexivity].
    unfold required_fields. simpl in Hin |- *.
    repeat (destruct Hin as [Hin | Hin];
            [subst f; rewrite Hnone; tauto |]).
    destruct Hin.
Qed.

(** C4.  A source configuration that has host, database, username,
    password and query and lacks only the port is rejected: "port" is
    among the required fields, so the default of 5432 on the following
    lines is never reached and no connection is attempted. *)
Theorem absent_port_is_rejected :
  missing_fields warehouse_without_port = ["port"]
  /\ handle_database_source (steady []) 5
       (export_to_s3 warehouse_without_port) warehouse_without_port outbox []
     = (Ret (Result Failed 0
               (SError (Exn ValueError
                  "Missing required source configuration fields: port"))),
        []).
Proof. vm_compute. split; reflexivity. Qed.

(** * Rows written by an export *)

Lemma served_writes target batch h :
  served (writes target batch ++ h)%list = served h.
Proof.
  unfold writes. induction batch as [| r batch IH] using rev_ind.
  - reflexivity.
  - rewrite map_app, rev_app_distr. simpl. exact IH.
Qed.

Lemma rows_written_writes target batch h :
  rows_written (writes target batch ++ h)%list = (rows_written h ++ batch)%list.
Proof.
  unfold writes. induction batch as [| r batch IH] using rev_ind.
  - simpl. rewrite app_nil_r. reflexivity.
  - rewrite map_app, rev_app_distr. simpl. rewrite IH.
    rewrite <- app_assoc. reflexivity.
Qed.

Lemma write_batch_serves (rows : list row) (columns : list string) target batch : forall n h,
  write_batch (serves rows columns) target (map Some batch) n h
  = (Ret (n + Z.of_nat (length batch)), (writes target batch ++ h)%list).
Proof.
  induction batch as [| r batch IH]; intros n h.
  - simpl. unfold ret. rewrite Z.add_0_r. reflexivity.
  - cbn [map write_batch]. unfold bind at 1. cbn [perform serves steady].
    rewrite IH. unfold writes. cbn [map rev length].
    rewrite <- app_assoc. cbn [app].
    f_equal. f_equal. lia.
Qed.

Lemma firstn_skipn_length {A} (b : nat) (l : list A) :
  (firstn b l ++ skipn (length (firstn b l)) l)%list = l.
Proof.
  revert l. induction b as [| b IH]; intros [| x l]; simpl; try reflexivity.
  f_equal. apply IH.
Qed.

Lemma firstn_nil_inv {A} (b : nat) (l : list A) :
  (1 <= b)%nat -> firstn b l = [] -> l = [].
Proof. destruct b, l; simpl; intros; solve [lia | reflexivity | discriminate]. Qed.

Lemma fetch_many_serves (rows : list row) (columns : list string) size h :
  fetch_rows (serves rows columns) (FetchMany size) h
  = (Ret (map Some (firstn (Z.to_nat size) (skipn (served h) rows))),
     (FetchMany size,
      ManyRows (map Some (firstn (Z.to_nat size) (skipn (served h) rows))))
     :: h).
Proof. reflexivity. Qed.

Lemma fetch_all_serves (rows : list row) (columns : list string) h :
  fetch_rows (serves rows columns) FetchAll h
  = (Ret (map Some (skipn (served h) rows)),
     (FetchAll, ManyRows (map Some (skipn (served h) rows))) :: h).
Proof. reflexivity. Qed.

(** The cursor path: [fetchmany] rounds until the rows run out. *)
Lemma fetch_loop_cursor_serves (rows : list row) (columns : list string) B target :
  1 <= B ->
  forall fuel h n batch_count,
    (served h <= length rows)%nat ->
    (length rows - served h < fuel)%nat ->
    exists h',
      fetch_loop (serves rows columns) fuel true (PInt B) target n batch_count h
      = (Ret (n + Z.of_nat (length rows - served h)), h')
      /\ rows_written h'
         = (rows_written h ++ skipn (served h) rows)%list.
Proof.
  intros HB. induction fuel as [| fuel IH]; intros h n batch_count Hk Hfuel.
  - lia.
  - cbn [fetch_loop].
    rewrite (bind_ret_run (as_int (PInt B)) _ h B h eq_refl).
    rewrite (bind_ret_run _ _ _ _ _ (fetch_many_serves rows columns B h)).
    remember (firstn (Z.to_nat B) (skipn (served h) rows)) as batch eqn:Ebatch.
    destruct batch as [| r batch].
    + symmetry in Ebatch. apply firstn_nil_inv in Ebatch; [| lia].
      assert (Hlen : length (skipn (served h) rows) = 0%nat)
        by (rewrite Ebatch; reflexivity).
      rewrite length_skipn in Hlen.
      cbn [map]. unfold ret. eexists. split.
      * f_equal. f_equal. lia.
      * simpl. rewrite Ebatch, app_nil_r. reflexivity.
    + cbn [map].
      change (Some r :: map Some batch) with (map Some (r :: batch)).
      rewrite (bind_ret_run _ _ _ _ _ (write_batch_serves rows columns target (r :: batch) n _)).
      set (h1 := (FetchMany B, ManyRows (map Some (r :: batch))) :: h).
      assert (Hserved : served (writes target (r :: batch) ++ h1)%list
                        = (length (r :: batch) + served h)%nat).
      { rewrite served_writes. unfold h1. cbn [served].
        rewrite length_map. reflexivity. }
      assert (Hrest : ((r :: batch)
                       ++ skipn (length (r :: batch) + served h) rows)%list
                      = skipn (served h) rows).
      { rewrite <- skipn_skipn, Ebatch.
        apply (firstn_skipn_length (Z.to_nat B) (skipn (served h) rows)). }
      assert (Hle : (length (r :: batch) <= length rows - served h)%nat).
      { rewrite Ebatch, length_firstn, length_skipn. lia. }
      destruct (IH (writes target (r :: batch) ++ h1)%list
                   (n + Z.of_nat (length (r :: batch))) (batch_count + 1))
        as (h' & Hrun & Hrows).
      * rewrite Hserved. lia.
      * rewrite Hserved. cbn [length] in *. lia.
      * exists h'. split.
        -- rewrite Hrun, Hserved. f_equal. f_equal. lia.
        -- rewrite Hrows, Hserved, rows_written_writes.
           unfold h1. cbn [rows_written].
           rewrite <- app_assoc. f_equal. exact Hrest.
Qed.

(** The full-fetch path: one [fetchall]. *)
Lemma fetch_loop_full_serves (rows : list row) (columns : list string) batch_size target fuel h batch_count :
  (1 <= fuel)%nat ->
  served h = 0%nat ->
  exists h',
    fetch_loop (serves rows columns) fuel false batch_size target 0 batch_count h
    = (Ret (Z.of_nat (length rows)), h')
    /\ rows_written h' = (rows_written h ++ rows)%list.
Proof.
  intros Hfuel Hserved. destruct fuel as [| fuel]; [lia |].
  cbn [fetch_loop Z.eqb].
  rewrite (bind_ret_run _ _ _ _ _ (fetch_all_serves rows columns h)).
  rewrite Hserved, skipn_O.
  destruct rows as [| r batch].
  - eexists. split; [reflexivity |]. simpl. rewrite app_nil_r. reflexivity.
  - cbn [map].
    change (Some r :: map Some batch) with (map Some (r :: batch)).
    rewrite write_batch_serves. eexists. split; [reflexivity |].
    rewrite rows_written_writes. reflexivity.
Qed.

Lemma bind_assoc_run {A B C} (m : M A) (f : A -> M B) (g : B -> M C) h :
  bind m (fun x => bind (f x) g) h = bind (bind m f) g h.
Proof. unfold bind. destruct (m h) as [[a | e |] h']; reflexivity. Qed.

Ltac run_step :=
  erewrite bind_ret_run; [| reflexivity].

(** Lines 845-911 against the serving database, on either path, with or
    without a scratch file: once the fetch loop is through, every row is
    written, and what is left of [export_rows] is the delivery of the
    rows counted. *)
Lemma export_rows_loop_serves (rows : list row) (columns : list string)
      fuel dt sc dc csv_filename (cursor : bool) B h :
  1 <= B ->
  (length rows < fuel)%nat ->
  get_or sc "batch_size" (PInt 10000) = PInt B ->
  served h = (if cursor then Nat.min 1 (length rows) else 0)%nat ->
  rows_written h = [] ->
  exists (use_temp_file : bool) temp_file_path h',
    rows_written h' = rows
    /\ export_rows (serves rows columns) fuel dt sc dc csv_filename cursor
                   columns (if cursor then head rows else None) h
       = (if Z.of_nat (length rows) =? 0 then
            (if use_temp_file then
               perform (serves rows columns) (CloseFile temp_file_path) ;;;
               perform_ (serves rows columns) (Unlink temp_file_path)
             else ret tt) ;;;
            ret (Result Success 0 SNoRows)
          else
            delivered <- deliver_file (serves rows columns) dt use_temp_file
                                      temp_file_path csv_filename dc
                                      (Z.of_nat (length rows)) ;;
            match delivered with
            | Some r => ret r
            | None =>
                upload_to_s3 (serves rows columns) use_temp_file
                             temp_file_path csv_filename
                             (get_or sc "chunk_size_mb" (PInt 5)) dc
                             (Z.of_nat (length rows))
            end) h'.
Proof.
  intros HB Hfuel Hbatch Hserved Hwritten.
  unfold export_rows. rewrite Hbatch.
  rewrite (bind_ret_run (as_int (PInt B)) _ h B h eq_refl).
  set (use_temp_file := (1000 <? B) || _).
  set (h1 := if use_temp_file
             then (NamedTemporaryFile, Text "/tmp/scratch.csv") :: h else h).
  set (path := if use_temp_file then "/tmp/scratch.csv" else "").
  set (target := if use_temp_file then ToFile path else ToBuffer).
  erewrite (bind_ret_run _ _ h path h1);
    [| unfold h1, path; destruct use_temp_file; reflexivity].
  fold target. run_step.
  set (h2 := (WriteHeader target columns, Done) :: h1).
  assert (Hs2 : served h2 = served h)
    by (unfold h2, h1; destruct use_temp_file; reflexivity).
  assert (Hw2 : rows_written h2 = [])
    by (unfold h2, h1; destruct use_temp_file; exact Hwritten).
  assert (Hloop : exists h3,
            bind (match (if cursor then head rows else None) with
                  | Some r =>
                      if cursor
                      then perform (serves rows columns) (WriteRow target r) ;;; ret 1
                      else ret 0
                  | None => ret 0
                  end)
                 (fun row_count =>
                    fetch_loop (serves rows columns) fuel cursor (PInt B) target row_count 0) h2
            = (Ret (Z.of_nat (length rows)), h3)
            /\ rows_written h3 = rows).
  { destruct cursor.
    - destruct rows as [| r rest].
      + cbn [head]. run_step.
        assert (Hs0 : served h2 = 0%nat)
          by (rewrite Hs2, Hserved; reflexivity).
        destruct (fetch_loop_cursor_serves [] columns B target HB fuel h2 0 0)
          as (h3 & Hrun & Hrows); [rewrite Hs0; simpl; lia
                                  | rewrite Hs0; simpl; lia |].
        rewrite Hs0 in Hrun, Hrows.
        exists h3. split; [exact Hrun |]. rewrite Hrows, Hw2. reflexivity.
      + cbn [head]. run_step.
        set (h3 := (WriteRow target r, Done) :: h2).
        assert (Hs3 : served h3 = 1%nat)
          by (unfold h3; cbn [served]; rewrite Hs2, Hserved; reflexivity).
        assert (Hw3 : rows_written h3 = [r])
          by (unfold h3; cbn [rows_written raised]; rewrite Hw2; reflexivity).
        destruct (fetch_loop_cursor_serves (r :: rest) columns B target HB
                                           fuel h3 1 0)
          as (h4 & Hrun & Hrows);
          [rewrite Hs3; simpl; lia | rewrite Hs3; simpl in *; lia |].
        rewrite Hs3 in Hrun, Hrows.
        exists h4. split.
        * etransitivity; [exact Hrun |].
          f_equal. f_equal. cbn [length]. lia.
        * rewrite Hrows, Hw3. reflexivity.
    - run_step.
      destruct (fetch_loop_full_serves rows columns (PInt B) target fuel h2 0)
        as (h3 & Hrun & Hrows); [lia | rewrite Hs2; exact Hserved |].
      exists h3. split; [exact Hrun |]. rewrite Hrows, Hw2. reflexivity. }
  destruct Hloop as (h3 & Hloop & Hrows).
  rewrite (bind_assoc_run _
             (fun row_count =>
                fetch_loop (serves rows columns) fuel cursor (PInt B) target
                           row_count 0)).
  rewrite (bind_ret_run _ _ _ _ _ Hloop).
  exists use_temp_file, path, h3. split; [exact Hrows | reflexivity].
Qed.

(** Lines 845-1043 against the serving database, on either path, with or
    without a scratch file, for the object store as destination. *)
Lemma export_rows_serves (rows : list row) (columns : list string) fuel dt sc dc
      name (cursor : bool) prefix B h :
  let csv_filename := PStr name in
  1 <= B ->
  (length rows < fuel)%nat ->
  get_or sc "batch_size" (PInt 10000) = PInt B ->
  String.eqb dt "sftp" || String.eqb dt "nfs" || String.eqb dt "filesystem"
  = false ->
  get_or dc "prefix" (PStr "processed/") = PStr prefix ->
  served h = (if cursor then Nat.min 1 (length rows) else 0)%nat ->
  rows_written h = [] ->
  exists text h',
    export_rows (serves rows columns) fuel dt sc dc csv_filename cursor columns
                (if cursor then head rows else None) h
    = (Ret (Result Success (Z.of_nat (length rows)) text), h')
    /\ rows_written h' = rows.
Proof.
  intros csv_filename HB Hfuel Hbatch Hdt Hprefix Hserved Hwritten.
  destruct (export_rows_loop_serves rows columns fuel dt sc dc csv_filename
              cursor B h HB Hfuel Hbatch Hserved Hwritten)
    as (use_temp_file & path & h3 & Hrows & ->).
  destruct (Z.of_nat (length rows) =? 0) eqn:Hzero.
  - assert (Hnil : rows = [])
      by (destruct rows; [reflexivity | simpl in Hzero; discriminate]).
    rewrite Hnil in *.
    destruct use_temp_file; eexists; eexists; (split; [reflexivity |]);
      cbn [rows_written]; exact Hrows.
  - unfold deliver_file. rewrite Hdt. run_step.
    unfold upload_to_s3. rewrite Hprefix. subst csv_filename.
    destruct use_temp_file;
      lazy beta iota zeta
           delta [bind size_of perform ret as_str object_key serves steady];
      destruct (String.eqb (PyStr.rstrip_slash prefix) "");
      eexists; eexists; (split; [reflexivity |]);
      cbn [rows_written]; exact Hrows.
Qed.



(** Lines 806-843 against the serving database. *)
Lemma discover_columns_serves (rows : list row) (columns : list string)
      (cursor : bool) h :
  columns <> [] ->
  served h = 0%nat ->
  exists h',
    discover_columns (serves rows columns) cursor h
    = (Ret (Some (columns, if cursor then head rows else None)), h')
    /\ served h' = (if cursor then Nat.min 1 (length rows) else 0)%nat
    /\ rows_written h' = rows_written h.
Proof.
  intros Hcolumns Hserved. unfold discover_columns.
  destruct columns as [| c columns']; [congruence |].
  destruct cursor.
  - unfold fetchone, description, bind, perform, serves.
    rewrite Hserved, skipn_O.
    destruct rows as [| r rest]; cbn [head];
      (eexists; split; [reflexivity | split; [| reflexivity]]);
      cbn [served]; rewrite Hserved; reflexivity.
  - unfold description, bind, perform, serves.
    eexists; split; [reflexivity | split; [| reflexivity]].
    cbn [served]. exact Hserved.
Qed.

Lemma try_finally_run {A} (body : M A) final h o h' h'' :
  body h = (o, h') -> o <> OutOfFuel -> final h' = (Ret tt, h'') ->
  try_finally body final h = (o, h'').
Proof.
  intros Eb Ho Ef. unfold try_finally. rewrite Eb, Ef.
  destruct o; [reflexivity | reflexivity | congruence].
Qed.

(** [handle_database_source] against the serving database, around the
    export of the rows: the session is opened, the schema discovered, and
    whatever the export comes to, cursor and connection are closed and an
    exception becomes a failed result. *)
Lemma handle_database_source_serves
      (rows : list row) (columns : list string) (cursor : bool)
      fuel config sc dc :
  columns <> [] ->
  missing_fields sc = [] ->
  truthy (get_or sc "use_server_side_cursor" (PBool true)) = cursor ->
  exists name h4,
    (names_a_file (get sc "csv_filename") -> exists text, name = PStr text)
    /\ served h4 = (if cursor then Nat.min 1 (length rows) else 0)%nat
    /\ rows_written h4 = []
    /\ forall o h5,
         export_rows (serves rows columns) fuel (destination_type config)
                     sc dc name cursor columns
                     (if cursor then head rows else None) h4
         = (o, h5) ->
         o <> OutOfFuel ->
         handle_database_source (serves rows columns) fuel config sc dc []
         = (Ret (match o with
                 | Ret r => r
                 | Exc e => Result Failed 0 (SError e)
                 | OutOfFuel => Result Failed 0 SNoRows
                 end),
            (CloseSource, Done) :: (CloseCursor, Done) :: h5).
Proof.
  intros Hcolumns Hmissing Hcursor.
  unfold handle_database_source. rewrite Hmissing, Hcursor.
  set (world := serves rows columns).
  assert (Hname : exists name h0,
            (if truthy (get sc "csv_filename")
             then ret (get sc "csv_filename")
             else timestamp <- new_path world Timestamp ;;
                  ret (PStr ("export_" +:+ timestamp +:+ ".csv"))) []
            = (Ret name, h0)
            /\ served h0 = 0%nat /\ rows_written h0 = []
            /\ (names_a_file (get sc "csv_filename") ->
                exists text, name = PStr text)).
  { destruct (truthy (get sc "csv_filename")) eqn:Egiven;
      eexists; eexists;
      (split; [reflexivity | split; [reflexivity | split; [reflexivity |]]]).
    - intros [Hunset | Htext]; [congruence | exact Htext].
    - intros _. eexists. reflexivity. }
  destruct Hname as (name & h0 & Hname & Hs0 & Hw0 & Htext).
  set (h1 := (SourceConnect (get sc "host")
                (if is_none (get sc "port") then PInt 5432 else get sc "port")
                (get sc "database") (get sc "username") (get sc "password"),
              Done) :: h0).
  set (h2 := if cursor
             then (OpenCursor true, Done) :: (SetSession, Done) :: h1
             else (OpenCursor false, Done) :: h1).
  set (h3 := (Execute (get sc "query"), Done) :: h2).
  assert (Hs3 : served h3 = 0%nat)
    by (unfold h3, h2, h1; destruct cursor; exact Hs0).
  assert (Hw3 : rows_written h3 = [])
    by (unfold h3, h2, h1; destruct cursor; exact Hw0).
  destruct (discover_columns_serves rows columns cursor h3 Hcolumns Hs3)
    as (h4 & Hschema & Hs4 & Hw4).
  rewrite Hw3 in Hw4.
  exists name, h4. split; [exact Htext |].
  split; [exact Hs4 |]. split; [exact Hw4 |].
  intros o h5 Hexport Ho.
  unfold try_except.
  erewrite bind_ret_run; [| reflexivity].
  rewrite (bind_ret_run _ _ _ _ _ Hname).
  erewrite (bind_ret_run _ _ h0 Done h1); [| reflexivity].
  erewrite (try_finally_run _ _ h1 o _ _); [| | exact Ho | reflexivity].
  - destruct o; [reflexivity | reflexivity | congruence].
  - erewrite (bind_ret_run _ _ h1 tt h2);
      [| unfold h2; destruct cursor; reflexivity].
    eapply try_finally_run; [| exact Ho | reflexivity].
    erewrite (bind_ret_run _ _ h2 Done h3); [| reflexivity].
    fold world in Hschema, Hexport.
    rewrite (bind_ret_run _ _ _ _ _ Hschema).
    exact Hexport.
Qed.

(** The export to the object store against the serving database, on either
    path, with or without a scratch file: it writes exactly the rows, in
    order, and reports their number with status success. *)
Lemma export_to_object_store_serves
        (rows : list row) (columns : list string) (B : Z) (cursor : bool)
        fuel config sc dc prefix :
  1 <= B ->
  columns <> [] ->
  (length rows < fuel)%nat ->
  missing_fields sc = [] ->
  get_or sc "batch_size" (PInt 10000) = PInt B ->
  truthy (get_or sc "use_server_side_cursor" (PBool true)) = cursor ->
  String.eqb (destination_type config) "sftp"
  || String.eqb (destination_type config) "nfs"
  || String.eqb (destination_type config) "filesystem" = false ->
  get_or dc "prefix" (PStr "processed/") = PStr prefix ->
  names_a_file (get sc "csv_filename") ->
  exists text h,
    handle_database_source (serves rows columns) fuel config sc dc []
    = (Ret (Result Success (Z.of_nat (length rows)) text), h)
    /\ rows_written h = rows.
Proof.
  intros HB Hcolumns Hfuel Hmissing Hbatch Hcursor Hdt Hprefix Hfile.
  destruct (handle_database_source_serves rows columns cursor fuel config
              sc dc Hcolumns Hmissing Hcursor)
    as (name & h4 & Hname & Hs4 & Hw4 & Hrun).
  destruct (Hname Hfile) as [file_name ->].
  destruct (export_rows_serves rows columns fuel (destination_type config)
              sc dc file_name cursor prefix B h4 HB Hfuel Hbatch Hdt Hprefix
              Hs4 Hw4) as (text & h5 & Hexport & Hw5).
  exists text, ((CloseSource, Done) :: (CloseCursor, Done) :: h5).
  split; [| exact Hw5].
  apply (Hrun _ _ Hexport). discriminate.
Qed.

(** C9, as stated, fails at batch size 0: on the cursor path
    [fetchmany(0)] returns no rows, the loop stops after the peeked row,
    and a query of three rows is exported and reported as one row. *)
Lemma zero_batch_size_counterexample :
  let run := handle_database_source
               (serves [order 1; order 2; order 3] ["id"]) 5
               (export_to_s3 (warehouse_batched 0 true))
               (warehouse_batched 0 true) outbox [] in
  fst run
  = Ret (Result Success 1
           (SUploadedS3 1 0 (PStr "out") "done/export_20260101_000000.csv"))
  /\ rows_written (snd run) = [order 1].
Proof. vm_compute. split; reflexivity. Qed.

(** The full-fetch path ignores the batch size. *)
Example zero_batch_size_full_fetch :
  rows_written
    (snd (handle_database_source
            (serves [order 1; order 2; order 3] ["id"]) 5
            (export_to_s3 (warehouse_batched 0 false))
            (warehouse_batched 0 false) outbox []))
  = [order 1; order 2; order 3].
Proof. vm_compute. reflexivity. Qed.

(** * The REST adapter, file by file *)

Lemma genuine_app oracle h newer older :
  genuine oracle (older ++ h)%list newer ->
  genuine oracle h older ->
  genuine oracle h (newer ++ older)%list.
Proof.
  induction newer as [| [c r] newer IH]; intros Hn Ho; [exact Ho |].
  cbn [app genuine] in *. destruct Hn as [Hr Hn].
  split; [rewrite <- app_assoc; exact Hr | apply IH; assumption].
Qed.

Lemma all_resent_app oracle method h newer older :
  all_resent oracle method (older ++ h)%list newer ->
  all_resent oracle method h older ->
  all_resent oracle method h (newer ++ older)%list.
Proof.
  induction newer as [| e newer IH]; intros Hn Ho; [exact Ho |].
  cbn [app all_resent] in *. destruct Hn as [Hr Hn].
  split; [rewrite <- app_assoc; exact Hr | apply IH; assumption].
Qed.

(** The statuses the retry adapter sends again for are error statuses. *)
Lemma retried_status_is_rejected retries method code retry_after :
  is_retry method code || is_retry_after retries method code retry_after
  = true ->
  accepted code = false.
Proof.
  unfold is_retry, is_retry_after, accepted, status_forcelist,
    retry_after_status_codes.
  cbn [existsb].
  intros H.
  assert (Hcode : code = 429 \/ code = 500 \/ code = 502 \/ code = 503
                  \/ code = 504 \/ code = 413).
  { destruct (Z.eqb_spec code 429); [auto |].
    destruct (Z.eqb_spec code 500); [auto |].
    destruct (Z.eqb_spec code 502); [auto |].
    destruct (Z.eqb_spec code 503); [auto 6 |].
    destruct (Z.eqb_spec code 504); [auto 6 |].
    destruct (Z.eqb_spec code 413); [auto 6 |].
    exfalso. rewrite !orb_false_r, !andb_false_r in H. discriminate. }
  destruct Hcode as [-> | [-> | [-> | [-> | [-> | ->]]]]]; reflexivity.
Qed.

Lemma retried_status_is_resent retries method code retry_after :
  is_retry method code || is_retry_after retries method code retry_after
  = true ->
  resent method (HttpStatus code) retry_after = true.
Proof.
  unfold is_retry, is_retry_after, is_method_retryable, resent,
    allowed_methods, status_forcelist, retry_after_status_codes.
  destruct (existsb (String.eqb method) ["POST"; "PUT"; "PATCH"]);
    [| intros [=]].
  destruct (existsb (Z.eqb code) [429; 500; 502; 503; 504]);
    [reflexivity |].
  destruct (negb (retries =? 0)%nat), retry_after,
    (existsb (Z.eqb code) [413; 429; 503]); cbn; auto.
Qed.

Section RestPolicy.

Variable oracle : history -> call -> reply.

(** One attempt that ends the request. *)
Lemma last_attempt retries method url name multipart h o :
  let c := HttpSend method url name multipart in
  request_verdict (oracle h c) o ->
  exists sends,
    ((c, oracle h c) :: h) = (sends ++ h)%list
    /\ genuine oracle h sends
    /\ bounded_attempts oracle retries method url name multipart h sends
    /\ request_verdict (last_answer sends) o.
Proof.
  intros c Ho. exists [(c, oracle h c)].
  split; [reflexivity |]. split; [cbn; auto |]. split; [| exact Ho].
  split; [simpl; lia |]. split; [repeat constructor | exact I].
Qed.

(** One attempt after which the request is sent again. *)
Lemma next_attempt retries method url name multipart h h' o :
  let c := HttpSend method url name multipart in
  resent method (oracle h c)
         (retry_after_at oracle ((c, oracle h c) :: h)) = true ->
  (exists sends,
     h' = (sends ++ (c, oracle h c) :: h)%list
     /\ genuine oracle ((c, oracle h c) :: h) sends
     /\ bounded_attempts oracle retries method url name multipart
                         ((c, oracle h c) :: h) sends
     /\ request_verdict (last_answer sends) o) ->
  exists sends,
    h' = (sends ++ h)%list
    /\ genuine oracle h sends
    /\ bounded_attempts oracle (S retries) method url name multipart h sends
    /\ request_verdict (last_answer sends) o.
Proof.
  intros c Hresent (sends & Hh & Hgen & (Hlen & Hall & Holder) & Hlast).
  exists (sends ++ [(c, oracle h c)])%list.
  rewrite Hh, <- app_assoc. cbn [app].
  split; [reflexivity |].
  split; [apply genuine_app; [exact Hgen | cbn; auto] |].
  split; [| destruct sends; [contradiction | exact Hlast]].
  split; [rewrite length_app; simpl; unfold history, event in *; lia |].
  split; [apply Forall_app; split; [exact Hall | repeat constructor] |].
  destruct sends as [| x older]; [contradiction |].
  cbn [app]. apply all_resent_app; [exact Holder |]. cbn. auto.
Qed.

(** The attempts of one [session.request], and what it makes of the answer
    to the last of them. *)
Lemma session_request_attempts method url name multipart :
  forall retries h,
    exists sends,
      snd (session_request oracle retries method url name multipart h)
      = (sends ++ h)%list
      /\ genuine oracle h sends
      /\ bounded_attempts oracle retries method url name multipart h sends
      /\ request_verdict
           (last_answer sends)
           (fst (session_request oracle retries method url name multipart h)).
Proof.
  induction retries as [| retries IH]; intros h;
    cbn [session_request];
    unfold bind, try_except_if, perform, has_retry_after, ret, raise,
      type_error;
    fold (retry_after_at oracle
            ((HttpSend method url name multipart,
              oracle h (HttpSend method url name multipart)) :: h)).
  - pose proof (last_attempt 0 method url name multipart h) as Hone.
    cbv zeta in Hone.
    destruct (oracle h (HttpSend method url name multipart))
      as [e | | | code | | | | | | | | |];
      cbn [fst snd];
      try (apply Hone; eexists; split; reflexivity).
    + unfold request_verdict in Hone. destruct (is_wire_error e).
      * destruct (is_retried_error method e);
          apply Hone; eexists; split; reflexivity.
      * apply Hone. reflexivity.
    + destruct (is_retry method code || is_retry_after 0 method code _)
        eqn:Eretry; apply Hone; unfold request_verdict.
      * rewrite (retried_status_is_rejected _ _ _ _ Eretry).
        right. eexists. split; reflexivity.
      * destruct (accepted code); [reflexivity | left; reflexivity].
  - pose proof (last_attempt (S retries) method url name multipart h)
      as Hone.
    pose proof (next_attempt retries method url name multipart h) as Hmore.
    cbv zeta in Hone, Hmore.
    destruct (oracle h (HttpSend method url name multipart))
      as [e | | | code | | | | | | | | |];
      cbn [fst snd];
      try (apply Hone; eexists; split; reflexivity).
    + unfold request_verdict in Hone. destruct (is_wire_error e) eqn:Ewire.
      * destruct (is_retried_error method e) eqn:Eretry.
        -- apply Hmore; [| apply IH].
           unfold resent. exact Eretry.
        -- apply Hone. eexists. split; reflexivity.
      * apply Hone. reflexivity.
    + destruct (is_retry method code
                || is_retry_after (S retries) method code _) eqn:Eretry.
      * apply Hmore; [| apply IH].
        apply (retried_status_is_resent (S retries)). exact Eretry.
      * apply Hone. unfold request_verdict.
        destruct (accepted code); [reflexivity | left; reflexivity].
Qed.

Lemma raise_for_status_rejects code h :
  accepted code = false ->
  raise_for_status code h = (Exc (Exn RequestException "HTTPError"), h).
Proof.
  unfold accepted, raise_for_status.
  destruct ((400 <=? code) && (code <? 600)); [reflexivity | discriminate].
Qed.

Lemma raise_for_status_accepts code h :
  accepted code = true -> raise_for_status code h = (Ret tt, h).
Proof.
  unfold accepted, raise_for_status.
  destruct ((400 <=? code) && (code <? 600)); [discriminate | reflexivity].
Qed.

(** C5, amended.  For a matched object at the head of the listing that was
    downloaded and opened, whatever the endpoint and the store answer.
    The request is sent at most [1 + 3] times, and sent again only after
    an answer the retry configuration covers: for POST, PUT or PATCH a
    status among 429, 500, 502, 503, 504, a 413, 429 or 503 that carries a
    [Retry-After] header, or a read error; for every method an error of
    the connection or of the TLS layer.  What follows depends on the
    answer of the endpoint to the last attempt: a status that
    [raise_for_status] accepts (any outside 400-599) is directly followed
    by the delete of that object from the source; a status from 400 to
    599 such as 404, an error of the attempt or any other request
    exception (retries used up included) is followed by no call for this
    object, and the loop goes on with the next object of the batch with
    the count unchanged. *)
Theorem rest_upload_policy sb prefix pat method url multipart tmpdir
        key rest n h :
  PyStr.endswith_slash key = false ->
  matches_pattern_batch prefix pat key (PyStr.split_last key) h
  = (Ret true, h) ->
  raised (oracle h (DownloadFile sb key
                      (PyStr.path_join tmpdir (PyStr.split_last key))))
  = false ->
  raised (oracle
            ((DownloadFile sb key
                (PyStr.path_join tmpdir (PyStr.split_last key)),
              oracle h (DownloadFile sb key
                          (PyStr.path_join tmpdir (PyStr.split_last key))))
             :: h)
            (ReadFile (PyStr.path_join tmpdir (PyStr.split_last key))))
  = false ->
  rest_file_outcome oracle sb prefix pat method url multipart tmpdir
                    key rest n h.
Proof.
  intros Hslash Hmatch Hdownload Hopen. unfold rest_file_outcome. cbv zeta.
  set (name := PyStr.split_last key) in *.
  set (local := PyStr.path_join tmpdir name) in *.
  set (h1 := (DownloadFile sb key local, _) :: h) in *.
  set (h2 := (ReadFile local, oracle h1 (ReadFile local)) :: h1).
  destruct (session_request_attempts method url name multipart retry_total h2)
    as (sends & Hh3 & Hgenuine & Hbounded & Hverdict).
  exists sends. split; [exact Hgenuine |]. split; [exact Hbounded |].
  assert (Hloop :
    rest_loop oracle sb prefix pat method url multipart tmpdir
              (key :: rest) n h
    = bind (rest_upload oracle sb key name local method url multipart)
           (fun sent =>
              rest_loop oracle sb prefix pat method url multipart tmpdir rest
                        (if (sent : bool) then n + 1 else n)) h1).
  { cbn [rest_loop]. rewrite Hslash. fold name local.
    rewrite (bind_ret_run _ _ _ _ _ Hmatch).
    unfold bind at 1, perform at 1. fold h1.
    destruct (oracle h (DownloadFile sb key local));
      solve [discriminate | reflexivity]. }
  assert (Hupload :
    rest_upload oracle sb key name local method url multipart h1
    = try_except_if is_request_exception
        (code <- session_request oracle retry_total method url name
                                 multipart ;;
         raise_for_status code ;;;
         perform oracle (DeleteObject sb key) ;;;
         ret true)
        (fun _ => ret false) h2).
  { unfold rest_upload, try_except_if, bind at 1, perform at 1. fold h2.
    destruct (oracle h1 (ReadFile local)); solve [discriminate | reflexivity]. }
  assert (Hskipped : forall e,
    session_request oracle retry_total method url name multipart h2
    = (Exc e, (sends ++ h2)%list) ->
    rest_loop oracle sb prefix pat method url multipart tmpdir
              (key :: rest) n h
    = if is_request_exception e
      then rest_loop oracle sb prefix pat method url multipart tmpdir
                     rest n (sends ++ h2)%list
      else (Exc e, (sends ++ h2)%list)).
  { intros e Erequest. rewrite Hloop. unfold bind at 1. rewrite Hupload.
    unfold try_except_if. unfold bind at 1. rewrite Erequest.
    destruct (is_request_exception e); reflexivity. }
  assert (Hrejected : forall code,
    session_request oracle retry_total method url name multipart h2
    = (Ret code, (sends ++ h2)%list) ->
    accepted code = false ->
    rest_loop oracle sb prefix pat method url multipart tmpdir
              (key :: rest) n h
    = rest_loop oracle sb prefix pat method url multipart tmpdir
                rest n (sends ++ h2)%list).
  { intros code Erequest Hcode. rewrite Hloop. unfold bind at 1.
    rewrite Hupload. unfold try_except_if. unfold bind at 1.
    rewrite Erequest.
    rewrite (bind_exc_run _ _ _ _ _ (raise_for_status_rejects code _ Hcode)).
    reflexivity. }
  destruct (session_request oracle retry_total method url name multipart h2)
    as [o h3] eqn:Erequest; cbn [fst snd] in *; subst h3.
  unfold request_verdict in Hverdict.
  destruct (last_answer sends) as [e | | | code | | | | | | | | |];
    try (destruct Hverdict as (e & -> & He); exists e;
         rewrite (Hskipped e eq_refl), He; reflexivity).
  - destruct (is_wire_error e); cbn [orb].
    + destruct Hverdict as (e' & -> & He').
      rewrite (Hskipped e' eq_refl), He'. reflexivity.
    + subst o. rewrite (Hskipped e eq_refl).
      destruct (is_request_exception e); reflexivity.
  - destruct (accepted code) eqn:Hcode.
    + subst o.
      assert (Hnext :
        rest_loop oracle sb prefix pat method url multipart tmpdir
                  (key :: rest) n h
        = match oracle (sends ++ h2)%list (DeleteObject sb key) with
          | Raise e =>
              if is_request_exception e
              then rest_loop oracle sb prefix pat method url multipart tmpdir
                     rest n
                     ((DeleteObject sb key, Raise e) :: (sends ++ h2)%list)
              else (Exc e,
                    (DeleteObject sb key, Raise e) :: (sends ++ h2)%list)
          | r =>
              rest_loop oracle sb prefix pat method url multipart tmpdir
                rest (n + 1) ((DeleteObject sb key, r) :: (sends ++ h2)%list)
          end).
      { rewrite Hloop. unfold bind at 1. rewrite Hupload.
        unfold try_except_if. unfold bind at 1. rewrite Erequest.
        rewrite (bind_ret_run _ _ _ _ _
                   (raise_for_status_accepts code _ Hcode)).
        unfold bind, perform, ret.
        destruct (oracle (sends ++ h2)%list (DeleteObject sb key))
          as [e | | | | | | | | | | | |]; try reflexivity.
        destruct (is_request_exception e); reflexivity. }
      unfold history, event in *.
      destruct (oracle (sends ++ h2)%list (DeleteObject sb key))
        as [e | | | | | | | | | | | |]; try exact Hnext.
      destruct (is_request_exception e); exact Hnext.
    + destruct Hverdict as [-> | (e & -> & He)].
      * apply (Hrejected code eq_refl Hcode).
      * rewrite (Hskipped e eq_refl), He. reflexivity.
Qed.

End RestPolicy.

(** An endpoint that cannot be reached at first, answers 503 next and 200
    at the third attempt: the object is delivered and deleted.  An endpoint
    that answers 404: the object stays and the loop goes on. *)
Lemma rest_upload_policy_witness :
  rest_file_outcome (recovers ["data/a.csv"; "data/b.csv"])
                    (PStr "in") "data/" (PStr "*") "POST"
                    (PStr "https://partner/upload") true "/tmp/batch"
                    "data/a.csv" ["data/b.csv"] 0 []
  /\ rest_file_outcome (rejects_a ["data/a.csv"; "data/b.csv"])
                       (PStr "in") "data/" (PStr "*") "POST"
                       (PStr "https://partner/upload") true "/tmp/batch"
                       "data/a.csv" ["data/b.csv"] 0 [].
Proof.
  split.
  - apply (rest_upload_policy (recovers ["data/a.csv"; "data/b.csv"]));
      reflexivity.
  - apply (rest_upload_policy (rejects_a ["data/a.csv"; "data/b.csv"]));
      reflexivity.
Defined.

(** C5, as stated, fails: the request is sent again after an answer that
    is no status of the list, and for a verb that is not configured.  With
    the method GET and an endpoint that cannot be reached at the first
    attempt, the connection error is counted against [total], the request
    goes out a second time, and the 200 it then gets has the object
    deleted at the source. *)
Lemma connection_error_is_retried_counterexample :
  transfer_to_rest_api_function (unreachable_at_first ["data/a.csv"])
                                inbox partner_get ∅ []
  = (Ret 1,
     [ (SessionClose, Done);
       (CleanupDirectory "/tmp/batch", Done);
       (DeleteObject (PStr "in") "data/a.csv", Done);
       (HttpSend "GET" (PStr "https://partner/upload") "a.csv" true,
        HttpStatus 200);
       (HttpSend "GET" (PStr "https://partner/upload") "a.csv" true,
        Raise (Exn ConnectTimeoutError "timed out"));
       (ReadFile "/tmp/batch/a.csv", Done);
       (DownloadFile (PStr "in") "data/a.csv" "/tmp/batch/a.csv", Done);
       (TemporaryDirectory, Text "/tmp/batch");
       (ListObjectsV2 (PStr "in") "data/", Listing (Some ["data/a.csv"]));
       (HttpSetup, Done);
       (S3Client, Done) ]).
Proof. vm_compute. reflexivity. Qed.

(** A 404 for the first object, a 200 for the second: the first stays at
    the source, the second is delivered and deleted. *)
Example rejected_file_does_not_stop_the_batch :
  transfer_to_rest_api_function (rejects_a ["data/a.csv"; "data/b.csv"])
                                inbox partner ∅ []
  = (Ret 1,
     [ (SessionClose, Done);
       (CleanupDirectory "/tmp/batch", Done);
       (DeleteObject (PStr "in") "data/b.csv", Done);
       (HttpSend "POST" (PStr "https://partner/upload") "b.csv" true,
        HttpStatus 200);
       (ReadFile "/tmp/batch/b.csv", Done);
       (DownloadFile (PStr "in") "data/b.csv" "/tmp/batch/b.csv", Done);
       (HttpSend "POST" (PStr "https://partner/upload") "a.csv" true,
        HttpStatus 404);
       (ReadFile "/tmp/batch/a.csv", Done);
       (DownloadFile (PStr "in") "data/a.csv" "/tmp/batch/a.csv", Done);
       (TemporaryDirectory, Text "/tmp/batch");
       (ListObjectsV2 (PStr "in") "data/",
                      Listing (Some ["data/a.csv"; "data/b.csv"]));
       (HttpSetup, Done);
       (S3Client, Done) ]).
Proof. vm_compute. reflexivity. Qed.

(** A 503 throughout: one send and three retries, then the object is left
    at the source. *)
Example unavailable_endpoint_is_retried_three_times :
  map fst
      (snd (transfer_to_rest_api_function (unavailable ["data/a.csv"])
                                          inbox partner ∅ []))
  = [ SessionClose; CleanupDirectory "/tmp/batch";
      HttpSend "POST" (PStr "https://partner/upload") "a.csv" true;
      HttpSend "POST" (PStr "https://partner/upload") "a.csv" true;
      HttpSend "POST" (PStr "https://partner/upload") "a.csv" true;
      HttpSend "POST" (PStr "https://partner/upload") "a.csv" true;
      ReadFile "/tmp/batch/a.csv";
      DownloadFile (PStr "in") "data/a.csv" "/tmp/batch/a.csv";
      TemporaryDirectory; ListObjectsV2 (PStr "in") "data/";
      HttpSetup; S3Client ].
Proof. vm_compute. reflexivity. Qed.

(** Connection error, 503, then 200: two retries, then the delete. *)
Example recovering_endpoint_is_delivered :
  transfer_to_rest_api_function (recovers ["data/a.csv"])
                                inbox partner ∅ []
  = (Ret 1,
     [ (SessionClose, Done);
       (CleanupDirectory "/tmp/batch", Done);
       (DeleteObject (PStr "in") "data/a.csv", Done);
       (HttpSend "POST" (PStr "https://partner/upload") "a.csv" true,
        HttpStatus 200);
       (HttpSend "POST" (PStr "https://partner/upload") "a.csv" true,
        HttpStatus 503);
       (HttpSend "POST" (PStr "https://partner/upload") "a.csv" true,
        Raise (Exn ConnectTimeoutError "timed out"));
       (ReadFile "/tmp/batch/a.csv", Done);
       (DownloadFile (PStr "in") "data/a.csv" "/tmp/batch/a.csv", Done);
       (TemporaryDirectory, Text "/tmp/batch");
       (ListObjectsV2 (PStr "in") "data/", Listing (Some ["data/a.csv"]));
       (HttpSetup, Done);
       (S3Client, Done) ]).
Proof. vm_compute. reflexivity. Qed.

(** A 304 is no error status for [raise_for_status]: the object is deleted
    at the source. *)
Example not_modified_is_deleted :
  transfer_to_rest_api_function (not_modified ["data/a.csv"])
                                inbox partner ∅ []
  = (Ret 1,
     [ (SessionClose, Done);
       (CleanupDirectory "/tmp/batch", Done);
       (DeleteObject (PStr "in") "data/a.csv", Done);
       (HttpSend "POST" (PStr "https://partner/upload") "a.csv" true,
        HttpStatus 304);
       (ReadFile "/tmp/batch/a.csv", Done);
       (DownloadFile (PStr "in") "data/a.csv" "/tmp/batch/a.csv", Done);
       (TemporaryDirectory, Text "/tmp/batch");
       (ListObjectsV2 (PStr "in") "data/", Listing (Some ["data/a.csv"]));
       (HttpSetup, Done);
       (S3Client, Done) ]).
Proof. vm_compute. reflexivity. Qed.

(** * The run records *)

(** The pipeline and the configuration reader never write a run record:
    they keep every invariant of the history that calls other than
    [InsertRun], [UpdateRun] and [MetaCommit] keep. *)
Section Frame.

Variable oracle : history -> call -> reply.
Variable getenv : string -> option string.
Variable DLT_AVAILABLE : bool.
Variable G : history -> Prop.

Hypothesis G_frame :
  forall c r h, is_record_call c = false -> G h -> G ((c, r) :: h).

Ltac frame_keeps := intros; apply G_frame; [reflexivity | assumption].

Ltac frame_step :=
  first
    [ apply inv_ret | apply inv_raise | apply inv_out_of_fuel
    | apply inv_as_str | apply inv_as_int
    | apply inv_perform_; frame_keeps
    | apply inv_perform; frame_keeps
    | apply inv_bind; [| intros ?]
    | apply inv_try_except_if; [| intros ?]
    | apply inv_try_except; [| intros ?]
    | apply inv_try_finally
    | match goal with
      | |- run_spec _ (if ?b then _ else _) _ => destruct b
      | |- run_spec _ (match ?x with _ => _ end) _ => destruct x
      end
    | progress unfold type_error, attribute_error, new_path, size_of,
        description, fetchone, fetch_rows, try_pass, cleanup_on_error,
        path_component, object_key ].

Ltac frame := repeat frame_step.

Lemma frame_transfer_files_function sc dc creds dt :
  run_spec G (transfer_files_function oracle sc dc creds dt) (kept G).
Proof.
  eapply spec_weaken;
    [apply (transfer_files_function_inv oracle dt G) | auto |].
  - intros. apply G_frame; assumption.
  - intros. apply G_frame; [reflexivity | assumption].
  - intros o h [HG [n ->]]. split; [exact HG | discriminate].
Qed.

Lemma frame_move_processed_files_function sc dc creds :
  run_spec G (move_processed_files_function oracle sc dc creds) (kept G).
Proof.
  apply always_kept. unfold move_processed_files_function.
  apply inv_try_except; [| intros; apply inv_ret].
  apply (move_processed_files_try_inv oracle "s3" G); [| | reflexivity].
  - intros. apply G_frame; assumption.
  - intros. apply G_frame; [reflexivity | assumption].
Qed.

Lemma frame_format_chars project_id env : forall fuel l,
  run_spec G (format_chars oracle fuel project_id env l) (kept G).
Proof.
  induction fuel as [| fuel IH]; intros l; cbn [format_chars];
    [apply inv_ret |].
  destruct l as [| c l']; [apply inv_ret |].
  destruct (Ascii.eqb c "{").
  - destruct l' as [| c2 l'']; [apply inv_raise |].
    destruct (Ascii.eqb c2 "{").
    + apply inv_bind; [apply IH | intros; apply inv_ret].
    + destruct (scan_field 0 [] (c2 :: l'')) as [[field rest] |];
        [| apply inv_raise].
      apply inv_bind; [unfold render_field; frame | intros ?].
      apply inv_bind; [apply IH | intros; apply inv_ret].
  - destruct (Ascii.eqb c "}").
    + destruct l' as [| c2 l'']; [apply inv_raise |].
      destruct (Ascii.eqb c2 "}"); [| apply inv_raise].
      apply inv_bind; [apply IH | intros; apply inv_ret].
    + apply inv_bind; [apply IH | intros; apply inv_ret].
Qed.

Lemma frame_resolve_destination_path dc project_id env :
  run_spec G (resolve_destination_path oracle dc project_id env) (kept G).
Proof.
  unfold resolve_destination_path, format.
  destruct (has_key dc "path"); [| apply inv_ret].
  destruct (get dc "path"); try (unfold type_error; apply inv_raise).
  apply inv_bind; [| intros; apply inv_ret].
  destruct (_ || _); [| apply inv_ret].
  apply inv_bind; [apply frame_format_chars | intros; apply inv_ret].
Qed.

Lemma frame_write_batch target rows : forall n,
  run_spec G (write_batch oracle target rows n) (kept G).
Proof.
  induction rows as [| [r |] rows IH]; intros n; cbn [write_batch].
  - apply inv_ret.
  - apply inv_bind; [apply inv_perform; frame_keeps | intros; apply IH].
  - apply IH.
Qed.

Lemma frame_fetch_loop cursor batch_size target : forall fuel n batch_count,
  run_spec G (fetch_loop oracle fuel cursor batch_size target n batch_count)
           (kept G).
Proof.
  induction fuel as [| fuel IH]; intros n batch_count; cbn [fetch_loop].
  - apply inv_out_of_fuel.
  - destruct cursor.
    + apply inv_bind; [apply inv_as_int | intros size].
      apply inv_bind; [frame | intros rows].
      destruct rows; [apply inv_ret |].
      apply inv_bind; [apply frame_write_batch | intros; apply IH].
    + destruct (n =? 0); [| apply inv_ret].
      apply inv_bind; [frame | intros rows].
      destruct rows; [apply inv_ret | apply frame_write_batch].
Qed.

Lemma frame_transfer_csv_to_sftp path name dc n :
  run_spec G (transfer_csv_to_sftp oracle path name dc n) (kept G).
Proof. unfold transfer_csv_to_sftp. frame. Qed.

Lemma frame_transfer_csv_to_filesystem path name dc n :
  run_spec G (transfer_csv_to_filesystem oracle path name dc n) (kept G).
Proof. unfold transfer_csv_to_filesystem. frame. Qed.

Lemma frame_handle_database_source fuel config sc dc :
  run_spec G (handle_database_source oracle fuel config sc dc) (kept G).
Proof.
  unfold handle_database_source.
  apply inv_try_except; [| intros; apply inv_ret].
  apply inv_bind; [frame | intros _].
  apply inv_bind; [frame | intros csv_filename].
  apply inv_bind; [frame | intros _].
  apply inv_try_finally; [| frame].
  apply inv_bind; [frame | intros _].
  apply inv_try_finally; [| frame].
  apply inv_bind; [frame | intros _].
  apply inv_bind; [unfold discover_columns; frame | intros schema].
  destruct schema as [[column_names test_row] |]; [| apply inv_ret].
  unfold export_rows.
  apply inv_bind; [apply inv_as_int | intros size].
  apply inv_bind; [frame | intros temp_file_path].
  apply inv_bind; [frame | intros _].
  apply inv_bind; [frame | intros row_count].
  apply inv_bind; [apply frame_fetch_loop | intros row_count'].
  destruct (row_count' =? 0); [frame |].
  apply inv_bind.
  { unfold deliver_file. destruct (_ || _); [| apply inv_ret].
    apply inv_bind; [frame | intros final_file_path].
    destruct (String.eqb _ "sftp").
    - apply inv_bind; [apply frame_transfer_csv_to_sftp | intros; apply inv_ret].
    - apply inv_bind;
        [apply frame_transfer_csv_to_filesystem | intros; apply inv_ret]. }
  intros [r |]; [apply inv_ret |].
  unfold upload_to_s3. frame.
Qed.

Lemma frame_run_dlt_pipeline fuel config project_id env :
  run_spec G (run_dlt_pipeline oracle getenv DLT_AVAILABLE fuel config
                               project_id env) (kept G).
Proof.
  unfold run_dlt_pipeline.
  apply inv_bind; [apply frame_resolve_destination_path | intros dc].
  apply inv_try_except; [| intros; apply inv_ret].
  destruct (_ || _); [apply frame_handle_database_source |].
  destruct (String.eqb _ "filesystem"); [| apply inv_raise].
  destruct (one_of _ _).
  - apply inv_bind; [apply frame_transfer_files_function |].
    intros; apply inv_ret.
  - unfold run_dlt.
    apply inv_bind; [frame | intros _].
    apply inv_bind; [frame | intros _].
    apply inv_bind; [frame | intros _].
    apply inv_bind; [frame | intros r].
    destruct r; try (unfold type_error; apply inv_raise).
    destruct (String.eqb _ "postgres"); [| apply inv_ret].
    apply inv_bind; [apply frame_move_processed_files_function |].
    intros; apply inv_ret.
Qed.

Lemma frame_read_connector_config connector_id :
  run_spec G (read_connector_config oracle connector_id) (kept G).
Proof. unfold read_connector_config. frame. Qed.

End Frame.

(** *** What a call does to the run records *)

Lemma records_frame c r h :
  is_record_call c = false ->
  started_records ((c, r) :: h) = started_records h
  /\ updates_issued ((c, r) :: h) = updates_issued h
  /\ updates_applied ((c, r) :: h) = updates_applied h.
Proof. destruct c; simpl; intros; solve [discriminate | auto]. Qed.

(** The pipeline step leaves the run records as they are. *)
Lemma pipeline_step_frame oracle getenv DLT_AVAILABLE fuel connector_id
      project_id env h :
  let h' := snd (pipeline_step oracle getenv DLT_AVAILABLE fuel connector_id
                               project_id env h) in
  started_records h' = started_records h
  /\ updates_issued h' = updates_issued h
  /\ updates_applied h' = updates_applied h.
Proof.
  cbv zeta.
  destruct (pipeline_step oracle getenv DLT_AVAILABLE fuel connector_id
                          project_id env h) as [o h'] eqn:E.
  assert (Hkept :
    run_spec (fun x => started_records x = started_records h
                       /\ updates_issued x = updates_issued h
                       /\ updates_applied x = updates_applied h)
             (pipeline_step oracle getenv DLT_AVAILABLE fuel connector_id
                            project_id env)
             (kept (fun x => started_records x = started_records h
                             /\ updates_issued x = updates_issued h
                             /\ updates_applied x = updates_applied h))).
  { assert (Hframe : forall c r x,
              is_record_call c = false ->
              started_records x = started_records h
              /\ updates_issued x = updates_issued h
              /\ updates_applied x = updates_applied h ->
              started_records ((c, r) :: x) = started_records h
              /\ updates_issued ((c, r) :: x) = updates_issued h
              /\ updates_applied ((c, r) :: x) = updates_applied h).
    { intros c r x Hc (H1 & H2 & H3).
      destruct (records_frame c r x Hc) as (F1 & F2 & F3).
      rewrite F1, F2, F3. auto. }
    unfold pipeline_step. apply inv_bind.
    - apply frame_read_connector_config, Hframe.
    - intros config. apply frame_run_dlt_pipeline, Hframe. }
  destruct (Hkept h o h' (conj eq_refl (conj eq_refl eq_refl)) E) as [H _].
  exact H.
Qed.

Section Records.

Variable oracle : history -> call -> reply.

(** The two outcomes of a call. *)
Lemma perform_cases c h :
  (exists e, perform oracle c h = (Exc e, (c, Raise e) :: h))
  \/ (raised (oracle h c) = false
      /\ perform oracle c h = (Ret (oracle h c), (c, oracle h c) :: h)).
Proof.
  unfold perform. destruct (oracle h c) eqn:E;
    solve [left; eauto | right; split; reflexivity].
Qed.

(** Case analysis on the next call of the run, oldest call first. *)
Ltac next_call :=
  match goal with
  | |- context [perform oracle ?c ?h] =>
      let e := fresh "e" in
      let Hr := fresh "Hreply" in
      destruct (perform_cases c h) as [(e & ->) | (Hr & ->)];
      cbv beta iota
  end.

Ltac replied :=
  repeat match goal with
         | H : raised ?r = false |- context [raised ?r] => rewrite H
         end.

(** [create_run_record] returns an identifier only for a record that it
    inserted and committed, and it sends no UPDATE. *)
Lemma create_run_record_records connector_id flow_run_id h :
  match create_run_record oracle connector_id flow_run_id h with
  | (Ret id, h1) =>
      started_records h1 = id :: started_records h
      /\ updates_issued h1 = updates_issued h
      /\ updates_applied h1 = updates_applied h
  | (Exc _, h1) => updates_issued h1 = updates_issued h
  | (OutOfFuel, _) => False
  end.
Proof.
  unfold create_run_record, try_finally, try_except, perform_,
    type_error, bind, ret, raise.
  next_call; [simpl; reflexivity |].
  next_call.
  - repeat next_call; simpl; reflexivity.
  - destruct (oracle _ (InsertRun _ _));
      repeat next_call; simpl; replied; auto.
Qed.

(** [update_run_record] sends at most one UPDATE, for the record it was
    given, creates no record, always comes to an end, and has updated the
    record when it returns. *)
Lemma update_run_record_records id st rows text h :
  let update := update_run_record oracle id st rows text h in
  started_records (snd update) = started_records h
  /\ (updates_issued (snd update) = (id, st) :: updates_issued h
      \/ updates_issued (snd update) = updates_issued h)
  /\ (updates_applied (snd update) = (id, st) :: updates_applied h
      \/ updates_applied (snd update) = updates_applied h)
  /\ (fst update = Ret tt ->
      updates_applied (snd update) = (id, st) :: updates_applied h)
  /\ fst update <> OutOfFuel.
Proof.
  unfold update_run_record, try_finally, perform_, bind, ret, raise.
  repeat next_call; simpl; replied; simpl;
    repeat split; auto; discriminate.
Qed.

(** A failure of the update is swallowed. *)
Lemma record_failure_quietly_run (update : M unit) h :
  fst (update h) <> OutOfFuel ->
  record_failure_quietly update h = (Ret tt, snd (update h)).
Proof.
  unfold record_failure_quietly, try_except, ret.
  destruct (update h) as [[[] | e |] h']; simpl; intros H;
    solve [reflexivity | contradiction].
Qed.

Lemma try_except_bind_run {A B} (m : M A) (k : A -> M B) handler h :
  try_except (bind m k) handler h
  = match m h with
    | (Ret a, h') => try_except (k a) handler h'
    | (Exc e, h') => handler e h'
    | (OutOfFuel, h') => (OutOfFuel, h')
    end.
Proof.
  unfold try_except, bind. destruct (m h) as [[a | e |] h']; reflexivity.
Qed.

Variable getenv : string -> option string.
Variable DLT_AVAILABLE : bool.
Variable fuel : nat.
Variable connector_id : Z.
Variables project_id env prefect_flow_run_id : string.

Let run := run_connector_pipeline oracle getenv DLT_AVAILABLE fuel
             connector_id project_id env prefect_flow_run_id.
Let step := pipeline_step oracle getenv DLT_AVAILABLE fuel connector_id
              project_id env.

(** The pipeline step, by the outcome of [read_connector_config]. *)
Lemma pipeline_step_run h :
  step h
  = match read_connector_config oracle connector_id h with
    | (Ret config, h') =>
        run_dlt_pipeline oracle getenv DLT_AVAILABLE fuel config
                         project_id env h'
    | (Exc e, h') => (Exc e, h')
    | (OutOfFuel, h') => (OutOfFuel, h')
    end.
Proof. reflexivity. Qed.

(** Lines 1266-1313 when the record was created. *)
Lemma run_connector_pipeline_recorded h id h1 :
  create_run_record oracle connector_id prefect_flow_run_id h = (Ret id, h1) ->
  run h
  = match step h1 with
    | (Ret result, h2) =>
        (Ret result,
         snd (update_run_record oracle id (res_status result)
                (Some (rows_ingested result)) (Some (log_summary result))
                h2))
    | (Exc e, h2) =>
        (Exc e,
         snd (update_run_record oracle id Failed None (Some (SFlowError e))
                h2))
    | (OutOfFuel, h2) => (OutOfFuel, h2)
    end.
Proof.
  intros Hcreate. rewrite pipeline_step_run.
  unfold run, run_connector_pipeline.
  erewrite bind_ret_run;
    [| unfold try_except; erewrite bind_ret_run; [| exact Hcreate];
       reflexivity].
  rewrite try_except_bind_run.
  destruct (read_connector_config oracle connector_id h1)
    as [[config | e |] h2].
  - rewrite try_except_bind_run.
    destruct (run_dlt_pipeline oracle getenv DLT_AVAILABLE fuel config
                               project_id env h2)
      as [[result | e |] h3].
    + unfold try_except.
      erewrite bind_ret_run;
        [| apply record_failure_quietly_run;
           apply update_run_record_records].
      reflexivity.
    + erewrite bind_ret_run;
        [| apply record_failure_quietly_run;
           apply update_run_record_records].
      reflexivity.
    + reflexivity.
  - erewrite bind_ret_run;
      [| apply record_failure_quietly_run;
         apply update_run_record_records].
    reflexivity.
  - reflexivity.
Qed.

(** Lines 1266-1313 when the record could not be created. *)
Lemma run_connector_pipeline_unrecorded h e h1 :
  create_run_record oracle connector_id prefect_flow_run_id h = (Exc e, h1) ->
  run h = step h1.
Proof.
  intros Hcreate. rewrite pipeline_step_run.
  unfold run, run_connector_pipeline.
  erewrite bind_ret_run;
    [| unfold try_except; erewrite bind_exc_run; [| exact Hcreate];
       reflexivity].
  rewrite try_except_bind_run.
  destruct (read_connector_config oracle connector_id h1)
    as [[config | e' |] h2]; try reflexivity.
  rewrite try_except_bind_run.
  destruct (run_dlt_pipeline oracle getenv DLT_AVAILABLE fuel config
                             project_id env h2)
    as [[result | e' |] h3]; reflexivity.
Qed.

End Records.

(** C2, amended.  In an invocation of [run_connector_pipeline] that comes
    to an end and whose [create_run_record] returned an identifier, exactly
    one run record is created, the pipeline step sends no UPDATE, and
    [update_run_record] is then run exactly once for that record, with the
    status of the result or with failed when the step raised (the
    exception then goes on to the caller); at most one UPDATE is sent, and
    the record is updated whenever that one run of [update_run_record]
    goes through.  When [create_run_record] raised, the invocation is the
    pipeline step and nothing else, and sends no UPDATE: the failure of the
    recording is swallowed. *)
Theorem run_record_lifecycle oracle getenv DLT_AVAILABLE fuel connector_id
        project_id env prefect_flow_run_id :
  fst (run_connector_pipeline oracle getenv DLT_AVAILABLE fuel connector_id
                              project_id env prefect_flow_run_id [])
  <> OutOfFuel ->
  run_record_life oracle getenv DLT_AVAILABLE fuel connector_id
                  project_id env prefect_flow_run_id.
Proof.
  intros Hends. unfold run_record_life. cbv zeta.
  pose proof (create_run_record_records oracle connector_id
                prefect_flow_run_id []) as Hcreate.
  destruct (create_run_record oracle connector_id prefect_flow_run_id [])
    as [[id | e |] h1] eqn:Ecreate; [| | exact Hcreate].
  - destruct Hcreate as (Hs & Hi & Ha). simpl in Hs, Hi, Ha.
    pose proof (pipeline_step_frame oracle getenv DLT_AVAILABLE fuel
                  connector_id project_id env h1) as Hstep.
    cbv zeta in Hstep. destruct Hstep as (Fs & Fi & Fa).
    rewrite Hs in Fs. rewrite Hi in Fi. rewrite Ha in Fa.
    rewrite (run_connector_pipeline_recorded oracle getenv DLT_AVAILABLE
               fuel connector_id project_id env prefect_flow_run_id
               [] id h1 Ecreate) in *.
    destruct (pipeline_step oracle getenv DLT_AVAILABLE fuel connector_id
                            project_id env h1) as [[result | e |] h2];
      cbn [fst snd] in *; [| | contradiction].
    + pose proof (update_run_record_records oracle id (res_status result)
                    (Some (rows_ingested result))
                    (Some (log_summary result)) h2) as Hupdate.
      cbv zeta in Hupdate. destruct Hupdate as (Us & Ui & Ua & Ur & _).
      rewrite Fs in Us. rewrite Fi in Ui. rewrite Fa in Ua, Ur.
      split; [exact Us |]. split; [exact Fi |].
      exists (res_status result), (Some (rows_ingested result)),
        (Some (log_summary result)).
      repeat split; auto.
    + pose proof (update_run_record_records oracle id Failed None
                    (Some (SFlowError e)) h2) as Hupdate.
      cbv zeta in Hupdate. destruct Hupdate as (Us & Ui & Ua & Ur & _).
      rewrite Fs in Us. rewrite Fi in Ui. rewrite Fa in Ua, Ur.
      split; [exact Us |]. split; [exact Fi |].
      exists Failed, None, (Some (SFlowError e)).
      repeat split; auto.
  - simpl in Hcreate.
    rewrite (run_connector_pipeline_unrecorded oracle getenv DLT_AVAILABLE
               fuel connector_id project_id env prefect_flow_run_id
               [] e h1 Ecreate).
    split; [reflexivity |].
    pose proof (pipeline_step_frame oracle getenv DLT_AVAILABLE fuel
                  connector_id project_id env h1) as Hstep.
    cbv zeta in Hstep. destruct Hstep as (_ & Fi & _).
    rewrite Fi. exact Hcreate.
Qed.

(** The connector from the inbox to the outbox, in a world where every
    call succeeds. *)
Lemma run_record_lifecycle_witness :
  run_record_life (with_connector (steady ["data/orders.csv"]))
                  no_environment true 3 7 "acme" "dev" "run-1".
Proof.
  apply (run_record_lifecycle (with_connector (steady ["data/orders.csv"]))
           no_environment true 3 7 "acme" "dev" "run-1").
  vm_compute. discriminate.
Defined.

(** C2, as stated, fails: the insert succeeds and is committed, the
    pipeline step returns, the UPDATE raises, the orchestrator swallows
    that and returns the result: one record was started and no terminal
    update was applied to it. *)
Lemma terminal_update_lost_counterexample :
  let run :=
    run_connector_pipeline update_fails no_environment true 3 7
                           "acme" "dev" "run-1" [] in
  fst (create_run_record update_fails 7 "run-1" []) = Ret 1
  /\ fst run = Ret (Result Success 0 (STransferred 1))
  /\ started_records (snd run) = [1]
  /\ updates_issued (snd run) = [(1, Success)]
  /\ updates_applied (snd run) = [].
Proof. vm_compute. repeat split; reflexivity. Qed.

(** * What a pipeline step returns *)

Section Returning.

Variable oracle : history -> call -> reply.

Lemma ret_returning {A} (P : history -> Prop) (a : A) good :
  (forall h, P h -> good a h) -> run_spec P (ret a) (returning good).
Proof. intros H h o h' HP [= <- <-] a' [= <-]. auto. Qed.

Lemma raise_returning {A} (P : history -> Prop) e
      (good : A -> history -> Prop) :
  run_spec P (raise e) (returning good).
Proof. intros h o h' _ [= <- <-] a' [=]. Qed.

Lemma anywhere_returning {A} (P : history -> Prop) (m : M A) good :
  run_spec anywhere m (returning good) -> run_spec P m (returning good).
Proof. intros H h o h' _ E. exact (H h o h' I E). Qed.

(** The value of [m ;; k] is a value of [k]. *)
Lemma bind_returning {A B} (P : history -> Prop) (m : M A) (k : A -> M B)
      R good :
  run_spec P m (returning R) ->
  (forall a, run_spec (R a) (k a) (returning good)) ->
  run_spec P (bind m k) (returning good).
Proof.
  intros Hm Hk h o h' HP. unfold bind.
  destruct (m h) as [[a | e |] h1] eqn:E.
  - intros Hrun. eapply Hk; [| exact Hrun]. exact (Hm h _ _ HP E a eq_refl).
  - intros [= <- <-] a' [=].
  - intros [= <- <-] a' [=].
Qed.

Lemma bind_returning_tail {A B} (P : history -> Prop) (m : M A)
      (k : A -> M B) good :
  (forall a, run_spec anywhere (k a) (returning good)) ->
  run_spec P (bind m k) (returning good).
Proof.
  intros Hk. apply bind_returning with (R := fun _ _ => True).
  - intros h o h' _ _ a _. exact I.
  - exact Hk.
Qed.

Lemma perform_returning (P : history -> Prop) c
      (R : reply -> history -> Prop) :
  (forall h r, P h -> raised r = false -> R r ((c, r) :: h)) ->
  run_spec P (perform oracle c) (returning R).
Proof.
  intros H h o h' HP. unfold perform.
  destruct (oracle h c) eqn:E; intros [= <- <-] a [= <-];
    rewrite <- E; apply H; auto; rewrite E; reflexivity.
Qed.

Lemma try_except_returning {A} (P : history -> Prop) (body : M A)
      handler good :
  run_spec P body (returning good) ->
  (forall e, run_spec anywhere (handler e) (returning good)) ->
  run_spec P (try_except body handler) (returning good).
Proof.
  intros Hb Hh h o h' HP. unfold try_except.
  destruct (body h) as [[a | e |] h1] eqn:E.
  - intros [= <- <-]. exact (Hb h _ _ HP E).
  - intros Hrun. exact (Hh e h1 o h' I Hrun).
  - intros [= <- <-] a' [=].
Qed.

Lemma try_except_if_returning {A} (P : history -> Prop) catches
      (body : M A) handler good :
  run_spec P body (returning good) ->
  (forall e, run_spec anywhere (handler e) (returning good)) ->
  run_spec P (try_except_if catches body handler) (returning good).
Proof.
  intros Hb Hh h o h' HP. unfold try_except_if.
  destruct (body h) as [[a | e |] h1] eqn:E.
  - intros [= <- <-]. exact (Hb h _ _ HP E).
  - destruct (catches e).
    + intros Hrun. exact (Hh e h1 o h' I Hrun).
    + intros [= <- <-] a' [=].
  - intros [= <- <-] a' [=].
Qed.

(** A [finally] block changes no value; it can only add events. *)
Lemma try_finally_returning {A} (P : history -> Prop) (body : M A)
      final (good : A -> history -> Prop) :
  run_spec P body (returning good) ->
  (forall a h, good a h ->
     run_spec (eq h) final (fun _ h' => good a h')) ->
  run_spec P (try_finally body final) (returning good).
Proof.
  intros Hb Hf h o h' HP. unfold try_finally.
  destruct (body h) as [[a | e |] h1] eqn:E.
  - pose proof (Hb h _ _ HP E a eq_refl) as Hgood.
    destruct (final h1) as [[[] | e |] h2] eqn:E2;
      intros [= <- <-] a' [= <-].
    exact (Hf a h1 Hgood h1 _ _ eq_refl E2).
  - destruct (final h1) as [[[] | e' |] h2]; intros [= <- <-] a' [=].
  - intros [= <- <-] a' [=].
Qed.

Lemma completed_lasting c : lasting (completed c).
Proof. intros e h (r & Hin & Hr). exists r. split; [right |]; assumption. Qed.

Lemma completed_now c r h : raised r = false -> completed c ((c, r) :: h).
Proof. intros Hr. exists r. split; [left; reflexivity | exact Hr]. Qed.

Lemma perform_keeps (P : history -> Prop) c :
  lasting P -> run_spec P (perform oracle c) (returning (fun _ => P)).
Proof. intros HP. apply perform_returning. intros h r Hh _. apply HP, Hh. Qed.

Lemma size_of_keeps (P : history -> Prop) c :
  lasting P -> run_spec P (size_of oracle c) (returning (fun _ => P)).
Proof.
  intros HP. unfold size_of.
  eapply bind_returning; [apply perform_keeps, HP |].
  intros []; first [apply raise_returning | apply ret_returning; auto].
Qed.

Lemma finally_perform_keeps {A} (good : A -> history -> Prop) c a h :
  (forall a, lasting (good a)) ->
  good a h ->
  run_spec (eq h) (perform_ oracle c) (fun _ h' => good a h').
Proof.
  intros Hlast Hgood h0 o h' <-. unfold perform_, perform, bind.
  destruct (oracle h c); intros [= <- <-]; apply Hlast, Hgood.
Qed.

Lemma finally_try_pass_keeps {A} (good : A -> history -> Prop) c a h :
  (forall a, lasting (good a)) ->
  good a h ->
  run_spec (eq h) (try_pass (perform_ oracle c)) (fun _ h' => good a h').
Proof.
  intros Hlast Hgood h0 o h' <-.
  unfold try_pass, try_except, perform_, perform, bind.
  destruct (oracle h c); intros [= <- <-]; apply Hlast, Hgood.
Qed.

Lemma sound_lasting r : lasting (sound r).
Proof.
  intros e h [Hf Hs]. split; [exact Hf |].
  intros Hok. specialize (Hs Hok). destruct (log_summary r); try exact Hs.
  - destruct Hs as [Hrows [H | [chunk H]]]; (split; [exact Hrows |]).
    + left. apply completed_lasting, H.
    + right. exists chunk. apply completed_lasting, H.
  - destruct Hs as [Hrows [local H]]. split; [exact Hrows |].
    exists local. apply completed_lasting, H.
  - destruct Hs as [Hrows [src H]]. split; [exact Hrows |].
    exists src. apply completed_lasting, H.
Qed.

Lemma sound_failure e h : sound (Result Failed 0 (SError e)) h.
Proof.
  split.
  - intros _. split; [reflexivity | eexists; reflexivity].
  - intros [=].
Qed.

Lemma sound_no_rows h : sound (Result Success 0 SNoRows) h.
Proof. split; [intros [=] | intros _; reflexivity]. Qed.

(** The handler of both CSV transfers. *)
Lemma cleanup_then_failure (P : history -> Prop) path e :
  run_spec P
    (cleanup_on_error oracle path ;;; ret (Result Failed 0 (SError e)))
    (returning sound).
Proof.
  apply bind_returning_tail. intros _. apply ret_returning.
  intros. apply sound_failure.
Qed.

Lemma transfer_csv_to_filesystem_sound path name dc row_count :
  run_spec anywhere
    (transfer_csv_to_filesystem oracle path name dc row_count)
    (returning sound).
Proof.
  unfold transfer_csv_to_filesystem.
  apply try_except_returning; [| intros e; apply cleanup_then_failure].
  apply bind_returning_tail. intros ?.
  apply bind_returning_tail. intros ?.
  apply bind_returning_tail. intros dest.
  apply bind_returning_tail. intros file_name.
  set (target := PyStr.path_join dest file_name).
  eapply bind_returning with (R := fun _ => completed (Copy2 path target)).
  { apply perform_returning. intros h r _ Hr. apply completed_now, Hr. }
  intros ?.
  eapply bind_returning;
    [apply size_of_keeps, completed_lasting | intros file_size].
  eapply bind_returning;
    [apply perform_keeps, completed_lasting | intros ?].
  apply ret_returning. intros h Hcopy. split; [intros [=] |].
  intros _. simpl. split; [reflexivity | exists path; exact Hcopy].
Qed.

Lemma transfer_csv_to_sftp_sound path name dc row_count :
  run_spec anywhere
    (transfer_csv_to_sftp oracle path name dc row_count)
    (returning sound).
Proof.
  unfold transfer_csv_to_sftp.
  apply try_except_returning; [| intros e; apply cleanup_then_failure].
  apply bind_returning_tail. intros ?.
  apply bind_returning_tail. intros ?.
  apply try_finally_returning;
    [| intros; apply finally_try_pass_keeps;
       [apply sound_lasting | assumption]].
  apply bind_returning_tail. intros ?.
  apply bind_returning_tail. intros ?.
  apply bind_returning_tail. intros dest.
  apply bind_returning_tail. intros ?.
  set (remote := PyStr.rstrip_slash dest +:+ "/" +:+ name).
  eapply bind_returning with (R := fun _ => completed (SftpPut path remote)).
  { apply perform_returning. intros h r _ Hr. apply completed_now, Hr. }
  intros ?.
  eapply bind_returning;
    [apply size_of_keeps, completed_lasting | intros file_size].
  do 3 (eapply bind_returning;
          [apply perform_keeps, completed_lasting | intros ?]).
  apply ret_returning. intros h Hput. split; [intros [=] |].
  intros _. simpl. split; [reflexivity | exists path; exact Hput].
Qed.

Lemma upload_to_s3_sound use_temp_file temp name chunk dc row_count :
  run_spec anywhere
    (upload_to_s3 oracle use_temp_file temp name chunk dc row_count)
    (returning sound).
Proof.
  unfold upload_to_s3.
  apply bind_returning_tail. intros file_size.
  apply bind_returning_tail. intros dest_prefix.
  apply bind_returning_tail. intros ?.
  apply bind_returning_tail. intros key.
  set (bucket := get_or dc "bucket" (PStr "customer-data")).
  eapply bind_returning with
    (R := fun _ h => completed (PutObject bucket key) h
                     \/ exists c, completed (UploadFileobj bucket key c) h).
  { destruct (25 * 1024 * 1024 <? file_size);
      apply perform_returning; intros h r _ Hr;
      [right; exists chunk | left]; apply completed_now, Hr. }
  intros ?. apply ret_returning. intros h Hdone.
  split; [intros [=] |]. intros _. simpl. split; [reflexivity | exact Hdone].
Qed.

Lemma deliver_file_sound dt use_temp_file temp name dc row_count :
  run_spec anywhere
    (deliver_file oracle dt use_temp_file temp name dc row_count)
    (returning (fun d h => forall r, d = Some r -> sound r h)).
Proof.
  unfold deliver_file.
  destruct (String.eqb dt "sftp" || String.eqb dt "nfs"
            || String.eqb dt "filesystem");
    [| apply ret_returning; intros h _ r [=]].
  apply bind_returning_tail. intros final_file_path.
  destruct (String.eqb dt "sftp").
  - eapply bind_returning; [apply transfer_csv_to_sftp_sound |].
    intros r. apply ret_returning. intros h Hr r' [= <-]. exact Hr.
  - eapply bind_returning; [apply transfer_csv_to_filesystem_sound |].
    intros r. apply ret_returning. intros h Hr r' [= <-]. exact Hr.
Qed.

Lemma export_rows_sound fuel dt sc dc name cursor columns test_row :
  run_spec anywhere
    (export_rows oracle fuel dt sc dc name cursor columns test_row)
    (returning sound).
Proof.
  unfold export_rows.
  apply bind_returning_tail. intros size.
  apply bind_returning_tail. intros temp.
  apply bind_returning_tail. intros ?.
  apply bind_returning_tail. intros row_count0.
  apply bind_returning_tail. intros row_count.
  destruct (row_count =? 0) eqn:Erows.
  - apply bind_returning_tail. intros ?.
    apply ret_returning. intros. apply sound_no_rows.
  - eapply bind_returning; [apply deliver_file_sound |].
    intros [r |].
    + apply ret_returning. intros h Hr. apply Hr. reflexivity.
    + apply anywhere_returning, upload_to_s3_sound.
Qed.

Lemma handle_database_source_sound fuel config sc dc :
  run_spec anywhere (handle_database_source oracle fuel config sc dc)
           (returning sound).
Proof.
  unfold handle_database_source.
  apply try_except_returning;
    [| intros e; apply ret_returning; intros; apply sound_failure].
  apply bind_returning_tail. intros ?.
  apply bind_returning_tail. intros name.
  apply bind_returning_tail. intros ?.
  apply try_finally_returning;
    [| intros; apply finally_perform_keeps;
       [apply sound_lasting | assumption]].
  apply bind_returning_tail. intros ?.
  apply try_finally_returning;
    [| intros; apply finally_perform_keeps;
       [apply sound_lasting | assumption]].
  apply bind_returning_tail. intros ?.
  apply bind_returning_tail. intros [[columns test_row] |].
  - apply export_rows_sound.
  - apply ret_returning. intros. apply sound_no_rows.
Qed.

Lemma returning_weaken {A} (P : history -> Prop) (m : M A)
      (good good' : A -> history -> Prop) :
  run_spec P m (returning good) ->
  (forall a h, good a h -> good' a h) ->
  run_spec P m (returning good').
Proof. intros Hm Hw h o h' HP E a Ha. apply Hw. exact (Hm h o h' HP E a Ha). Qed.

Variable getenv : string -> option string.
Variable DLT_AVAILABLE : bool.

Lemma run_dlt_pipeline_failed_with_error fuel config project_id env :
  run_spec anywhere
    (run_dlt_pipeline oracle getenv DLT_AVAILABLE fuel config project_id env)
    (returning (fun r _ => failed_with_error r)).
Proof.
  unfold run_dlt_pipeline.
  apply bind_returning_tail. intros dc.
  apply try_except_returning;
    [| intros e; apply ret_returning; intros h ?;
       exact (proj1 (sound_failure e h))].
  destruct (String.eqb (source_type config) "sql_database"
            || String.eqb (source_type config) "postgres"
            || String.eqb (source_type config) "database").
  { eapply returning_weaken; [apply handle_database_source_sound |].
    intros r h [Hr _]. exact Hr. }
  destruct (String.eqb (source_type config) "filesystem");
    [| apply raise_returning].
  destruct (one_of (destination_type config) file_transfer_destinations).
  { apply bind_returning_tail. intros n.
    apply ret_returning. intros h _ [=]. }
  unfold run_dlt.
  apply bind_returning_tail. intros ?.
  apply bind_returning_tail. intros ?.
  apply bind_returning_tail. intros ?.
  apply bind_returning_tail. intros [];
    try (unfold type_error; apply raise_returning).
  destruct (String.eqb (destination_type config) "postgres").
  - apply bind_returning_tail. intros moved.
    apply ret_returning. intros h _ [=].
  - apply ret_returning. intros h _ [=].
Qed.

(** Under [except Exception as e: return {...}] nothing is raised. *)
Lemma try_except_ret_never_raises {A} (body : M A) (f : exn -> A) h e h' :
  try_except body (fun e => ret (f e)) h <> (Exc e, h').
Proof.
  unfold try_except, ret. destruct (body h) as [[a | e' |] h1]; discriminate.
Qed.

End Returning.

(** X1.  [handle_database_source] never raises: whatever the source
    database, the files and the destination answer, an exception inside it
    comes back as a result, and a result with status failed has 0 rows and
    the summary "Error: <the exception>". *)
Theorem database_export_never_raises oracle fuel config sc dc h :
  let run := handle_database_source oracle fuel config sc dc h in
  (forall e, fst run <> Exc e)
  /\ (forall r, fst run = Ret r -> failed_with_error r).
Proof.
  cbv zeta. split.
  - intros e Hrun.
    destruct (handle_database_source oracle fuel config sc dc h)
      as [o h'] eqn:E.
    simpl in Hrun. subst o. revert E. unfold handle_database_source.
    apply try_except_ret_never_raises.
  - intros r Hrun.
    destruct (handle_database_source oracle fuel config sc dc h)
      as [o h'] eqn:E.
    exact (proj1 (handle_database_source_sound oracle fuel config sc dc
                    h o h' I E r Hrun)).
Qed.

(** X2.  The summary of a database export says what was done.  When
    [handle_database_source] returns status success, either the summary is
    "Query returned no rows" and 0 rows are reported, or the summary names
    the object, the remote path or the file the CSV went to, and the
    [put_object] or [upload_fileobj] to that bucket and key, the
    [sftp.put] to that remote path, or the [shutil.copy2] to that file was
    made during the run and returned. *)
Theorem database_export_summary_is_true oracle fuel config sc dc :
  let run := handle_database_source oracle fuel config sc dc [] in
  forall r, fst run = Ret r -> summary_is_true r (snd run).
Proof.
  cbv zeta. intros r Hrun.
  destruct (handle_database_source oracle fuel config sc dc [])
    as [o h'] eqn:E.
  exact (proj2 (handle_database_source_sound oracle fuel config sc dc
                  [] o h' I E r Hrun)).
Qed.

(** Two rows exported to a share: the summary names the remote path, and
    the [sftp.put] to it was made and returned. *)
Lemma database_export_summary_is_true_witness :
  let run :=
    handle_database_source (serves [order 1; order 2] ["id"]) 5
      (Config 9 "orders export" "database" warehouse "sftp" sftp_share)
      warehouse sftp_share [] in
  2 = 2
  /\ exists local,
       completed (SftpPut local "/share/export_20260101_000000.csv")
                 (snd run).
Proof.
  refine (database_export_summary_is_true
            (serves [order 1; order 2] ["id"]) 5
            (Config 9 "orders export" "database" warehouse "sftp" sftp_share)
            warehouse sftp_share
            (Result Success 2
               (SUploadedSftp 2 0 "/share/export_20260101_000000.csv"))
            _ eq_refl).
  vm_compute. reflexivity.
Defined.

(** X3.  An exception leaves [run_dlt_pipeline] only when the formatting
    of the destination path raised it (lines 1092-1097, before the
    [try]), and then nothing else has run; and when [run_dlt_pipeline]
    returns a result with status failed, that result has 0 rows and the
    summary "Error: <the exception>". *)
Theorem pipeline_raises_only_from_placeholders oracle getenv DLT_AVAILABLE
        fuel config project_id env h :
  let run :=
    run_dlt_pipeline oracle getenv DLT_AVAILABLE fuel config project_id env
                     h in
  (forall e, fst run = Exc e ->
     resolve_destination_path oracle (destination_config config)
                              project_id env h
     = (Exc e, snd run))
  /\ (forall r, fst run = Ret r -> failed_with_error r).
Proof.
  cbv zeta. split.
  - unfold run_dlt_pipeline, bind.
    destruct (resolve_destination_path oracle (destination_config config)
                                       project_id env h)
      as [[dc | e' |] h1]; simpl.
    + intros e Hrun.
      match goal with
      | H : fst (try_except ?b ?k ?x) = _ |- _ =>
          destruct (try_except b k x) as [o h2] eqn:E
      end.
      simpl in Hrun. subst o.
      exfalso. revert E. apply try_except_ret_never_raises.
    + intros e [= <-]. reflexivity.
    + intros e [=].
  - intros r Hrun.
    destruct (run_dlt_pipeline oracle getenv DLT_AVAILABLE fuel config
                               project_id env h) as [o h'] eqn:E.
    exact (run_dlt_pipeline_failed_with_error oracle getenv DLT_AVAILABLE
             fuel config project_id env h o h' I E r Hrun).
Qed.

(** * Sessions are closed *)

(** A step of a run that cannot run out of fuel. *)
Ltac ends_step :=
  first
    [ apply inv_ret | apply inv_raise | apply inv_as_str | apply inv_as_int
    | apply inv_perform_; intros; exact I
    | apply inv_perform; intros; exact I
    | apply inv_bind; [| intros ?]
    | apply inv_try_except_if; [| intros ?]
    | apply inv_try_except; [| intros ?]
    | apply inv_try_finally
    | match goal with
      | |- run_spec _ (if ?b then _ else _) _ => destruct b
      | |- run_spec _ (match ?x with _ => _ end) _ => destruct x
      end
    | progress unfold type_error, new_path, size_of, try_pass,
        cleanup_on_error ].

Ltac ends := repeat ends_step.

Section Sessions.

Variable oracle : history -> call -> reply.

(** A call either raises or returns its reply. *)
Lemma perform_outcome c h :
  (exists e, perform oracle c h = (Exc e, (c, Raise e) :: h))
  \/ (raised (oracle h c) = false
      /\ perform oracle c h = (Ret (oracle h c), (c, oracle h c) :: h)).
Proof.
  unfold perform. destruct (oracle h c) eqn:E;
    solve [left; eauto | right; split; reflexivity].
Qed.

(** [finally: c()] runs last, whatever the body did. *)
Lemma try_finally_last {A} (body : M A) c h o h' :
  try_finally body (perform_ oracle c) h = (o, h') ->
  o <> OutOfFuel ->
  exists r, h' = (c, r) :: snd (body h).
Proof.
  unfold try_finally, perform_, perform, bind.
  destruct (body h) as [[a | e |] h1]; simpl;
    try (intros [= <- <-] Hfuel; congruence);
    destruct (oracle h1 c); intros [= <- <-] _; eauto.
Qed.

(** A handler that returns a value adds no event. *)
Lemma try_except_ret_history {A} (body : M A) (f : exn -> A) h :
  snd (try_except body (fun e => ret (f e)) h) = snd (body h)
  /\ (fst (try_except body (fun e => ret (f e)) h) = OutOfFuel
      <-> fst (body h) = OutOfFuel).
Proof.
  unfold try_except, ret. destruct (body h) as [[a | e |] h1]; simpl;
    (split; [reflexivity | split; congruence]).
Qed.

Lemma try_finally_fuel {A} (body : M A) final h :
  fst (try_finally body final h) <> OutOfFuel -> fst (body h) <> OutOfFuel.
Proof.
  unfold try_finally. destruct (body h) as [[a | e |] h1]; simpl;
    congruence.
Qed.

Lemma returned_app select new old :
  returned select (new ++ old)%list
  = returned select new || returned select old.
Proof. unfold returned. apply existsb_app. Qed.

(** Lines 788-796: the cursor is opened, or an exception leaves no
    cursor behind. *)
Lemma open_cursor_outcome (cursor : bool) h0 :
  let open :=
    (if cursor then
       perform oracle SetSession ;;; perform_ oracle (OpenCursor true)
     else perform_ oracle (OpenCursor false)) in
  (exists e new, open h0 = (Exc e, (new ++ h0)%list)
                 /\ returned is_open_cursor new = false)
  \/ (exists h1, open h0 = (Ret tt, h1)).
Proof.
  cbv zeta. destruct cursor; unfold perform_, bind.
  - destruct (perform_outcome SetSession h0) as [(e & He) | (_ & He)];
      rewrite He.
    { left. exists e, [(SetSession, Raise e)]. split; reflexivity. }
    destruct (perform_outcome (OpenCursor true)
                ((SetSession, oracle h0 SetSession) :: h0))
      as [(e & He') | (_ & He')]; rewrite He'.
    + left. exists e,
        [(OpenCursor true, Raise e); (SetSession, oracle h0 SetSession)].
      split; reflexivity.
    + right. eexists. reflexivity.
  - destruct (perform_outcome (OpenCursor false) h0)
      as [(e & He) | (_ & He)]; rewrite He.
    + left. exists e, [(OpenCursor false, Raise e)]. split; reflexivity.
    + right. eexists. reflexivity.
Qed.

(** Lines 788-798 and 1044-1045: once the cursor exists, closing it is the
    last thing the block does. *)
Lemma cursor_is_closed {A} (cursor : bool) (body : M A) h0 :
  let block :=
    ((if cursor then
        perform oracle SetSession ;;; perform_ oracle (OpenCursor true)
      else perform_ oracle (OpenCursor false)) ;;;
     try_finally body (perform_ oracle CloseCursor)) in
  fst (block h0) <> OutOfFuel ->
  (exists new, snd (block h0) = (new ++ h0)%list
               /\ returned is_open_cursor new = false)
  \/ (exists r older, snd (block h0) = (CloseCursor, r) :: older).
Proof.
  cbv zeta.
  destruct (open_cursor_outcome cursor h0)
    as [(e & new & Hopen & Hnew) | (h1 & Hopen)]; cbv zeta in Hopen.
  - rewrite (bind_exc_run _ _ _ _ _ Hopen). simpl. intros _.
    left. exists new. split; [reflexivity | exact Hnew].
  - rewrite (bind_ret_run _ _ _ _ _ Hopen). intros Hfuel. right.
    destruct (try_finally body (perform_ oracle CloseCursor) h1)
      as [o h'] eqn:E.
    destruct (try_finally_last body CloseCursor h1 o h' E Hfuel) as [r ->].
    simpl. eauto.
Qed.

Lemma bind_raise {A B} e (k : A -> M B) h :
  bind (raise e) k h = (Exc e, h).
Proof. reflexivity. Qed.

Lemma bind_ret {A B} (a : A) (k : A -> M B) h : bind (ret a) k h = k a h.
Proof. reflexivity. Qed.

(** Lines 769-773: the name of the CSV file costs at most a look at the
    clock. *)
Lemma csv_filename_outcome {A} (given : pyval) (k : string -> pyval)
      (rest : pyval -> M A) h :
  let name :=
    (if truthy given then ret given
     else timestamp <- new_path oracle Timestamp ;; ret (k timestamp)) in
  exists pre,
    returned is_source_connect pre = false
    /\ returned is_open_cursor pre = false
    /\ ((exists e, bind name rest h = (Exc e, (pre ++ h)%list))
        \/ (exists n, bind name rest h = rest n (pre ++ h)%list)).
Proof.
  cbv zeta. destruct (truthy given).
  - exists []. repeat split. right. eexists. reflexivity.
  - unfold new_path, bind.
    destruct (perform_outcome Timestamp h) as [(e & He) | (_ & He)];
      rewrite He.
    + exists [(Timestamp, Raise e)]. repeat split. left. eauto.
    + exists [(Timestamp, oracle h Timestamp)]. repeat split.
      destruct (oracle h Timestamp);
        solve [left; eexists; reflexivity | right; eexists; reflexivity].
Qed.

(** *** The SFTP transport of a CSV transfer *)

Lemma ends_fuel {A} (m : M A) h :
  run_spec anywhere m (always anywhere) -> fst (m h) <> OutOfFuel.
Proof.
  intros Hm. destruct (m h) as [o h'] eqn:E.
  exact (proj2 (Hm h o h' I E)).
Qed.

(** [try: transport.close() except: pass] *)
Lemma close_quietly c h :
  try_pass (perform_ oracle c) h = (Ret tt, (c, oracle h c) :: h).
Proof.
  unfold try_pass, try_except, perform_, perform, bind.
  destruct (oracle h c); reflexivity.
Qed.

Lemma try_finally_close_quietly {A} (body : M A) c h :
  fst (body h) <> OutOfFuel ->
  try_finally body (try_pass (perform_ oracle c)) h
  = (fst (body h), (c, oracle (snd (body h)) c) :: snd (body h)).
Proof.
  unfold try_finally. destruct (body h) as [[a | e |] h1]; simpl;
    intros Hfuel; try congruence; rewrite close_quietly; reflexivity.
Qed.

(** Lines 662-667 and 710-715: the handler looks for the scratch file and
    removes it; nothing it does raises. *)
Lemma cleanup_on_error_outcome path h :
  exists cleanup,
    cleanup_on_error oracle path h = (Ret tt, (cleanup ++ h)%list)
    /\ forallb (fun e => is_cleanup (fst e)) cleanup = true.
Proof.
  unfold cleanup_on_error, try_pass, try_except, bind.
  destruct (perform_outcome (PathExists path) h) as [(e & He) | (_ & He)];
    rewrite He.
  { exists [(PathExists path, Raise e)]. split; reflexivity. }
  set (h1 := (PathExists path, oracle h (PathExists path)) :: h).
  assert (Hone : exists cleanup,
            (Ret tt, h1) = (Ret tt, (cleanup ++ h)%list)
            /\ forallb (fun e => is_cleanup (fst e)) cleanup = true).
  { exists [(PathExists path, oracle h (PathExists path))].
    split; reflexivity. }
  destruct (oracle h (PathExists path)) as [| | | | | | | | | | | [|] |];
    try exact Hone.
  unfold perform_, bind.
  destruct (perform_outcome (Unlink path) h1) as [(e & He') | (_ & He')];
    rewrite He'; eexists [(_, _); (_, _)]; split; reflexivity.
Qed.

Lemma cleanup_is_no_transport cleanup :
  forallb (fun e => is_cleanup (fst e)) cleanup = true ->
  returned is_transport cleanup = false.
Proof.
  induction cleanup as [| [c r] l IH]; [reflexivity |].
  simpl. intros H. apply andb_prop in H as [Hc Hl].
  rewrite (IH Hl). destruct c; try discriminate; reflexivity.
Qed.

(** *** The connections to the metadata store *)

Lemma connect_then_finally {A} (body : M A) h :
  run_spec anywhere body (always anywhere) ->
  connection_closed h
    (snd ((perform oracle MetaConnect ;;;
           try_finally body (perform_ oracle MetaClose)) h)).
Proof.
  intros Hbody.
  destruct (perform_outcome MetaConnect h) as [(e & He) | (_ & He)].
  - rewrite (bind_exc_run _ _ _ _ _ He). left. eauto.
  - rewrite (bind_ret_run _ _ _ _ _ He). right.
    set (h0 := (MetaConnect, oracle h MetaConnect) :: h).
    destruct (try_finally body (perform_ oracle MetaClose) h0)
      as [o h'] eqn:E.
    assert (Hfuel : o <> OutOfFuel).
    { assert (H : run_spec anywhere
                    (try_finally body (perform_ oracle MetaClose))
                    (always anywhere))
        by (apply inv_try_finally; [exact Hbody | ends]).
      exact (proj2 (H h0 o h' I E)). }
    destruct (try_finally_last body MetaClose h0 o h' E Hfuel) as [r ->].
    simpl. eauto.
Qed.

End Sessions.

(** X4.  [handle_database_source] closes what it opened, on every path
    that ends: when [psycopg2.connect] returned, the last call of the run
    is [source_conn.close()], and when the cursor was created, the call
    before that is [cur.close()] -- also when the query, a fetch, the CSV
    file or the upload raised. *)
Theorem source_session_is_closed oracle fuel config sc dc :
  let run := handle_database_source oracle fuel config sc dc [] in
  fst run <> OutOfFuel ->
  returned is_source_connect (snd run) = true ->
  exists r older,
    snd run = (CloseSource, r) :: older
    /\ (returned is_open_cursor older = true ->
        exists r' older', older = (CloseCursor, r') :: older').
Proof.
  cbv zeta. unfold handle_database_source.
  match goal with
  | |- context [try_except ?b ?f] =>
      destruct (try_except_ret_history b
                  (fun e => Result Failed 0 (SError e)) [])
        as [Hsnd Hfst];
      set (body := b) in *
  end.
  rewrite Hsnd. intros Hfuel. assert (Hbody : fst (body []) <> OutOfFuel)
    by (intros H; apply Hfuel, Hfst, H).
  clear Hfuel Hsnd Hfst. revert Hbody. subst body.
  destruct (missing_fields sc) as [| f fs].
  2: { rewrite bind_raise. simpl. discriminate. }
  rewrite bind_ret.
  match goal with
  | |- context [bind (if truthy ?g then _ else
                        bind _ (fun t => ret (@?k t))) ?rest []] =>
      destruct (csv_filename_outcome oracle g k rest [])
        as (pre & Hpre & Hpre' & [[e He] | [n He]]);
      cbv zeta in He; rewrite He; clear He
  end.
  { simpl. rewrite app_nil_r. intros _ H. congruence. }
  rewrite app_nil_r.
  match goal with
  | |- context [bind (perform oracle ?c) ?k pre] =>
      destruct (perform_outcome oracle c pre) as [(e & He) | (_ & He)];
      [rewrite (bind_exc_run _ k _ _ _ He)
      | rewrite (bind_ret_run _ k _ _ _ He)]; clear He;
      set (connect := c)
  end.
  { simpl. rewrite Hpre. discriminate. }
  set (h0 := (connect, oracle pre connect) :: pre).
  intros Hfuel _.
  match goal with
  | |- context [try_finally ?b (perform_ oracle CloseSource) h0] =>
      set (inner := b) in *
  end.
  destruct (try_finally inner (perform_ oracle CloseSource) h0)
    as [o h'] eqn:E.
  destruct (try_finally_last oracle inner CloseSource h0 o h' E Hfuel)
    as [r ->].
  assert (Hinner : fst (inner h0) <> OutOfFuel).
  { apply (try_finally_fuel inner (perform_ oracle CloseSource)).
    rewrite E. exact Hfuel. }
  exists r, (snd (inner h0)). split; [reflexivity |].
  intros Hcursor. subst inner.
  destruct (cursor_is_closed oracle _ _ h0 Hinner)
    as [(new & Hnew & Hnone) | Hclosed]; [| exact Hclosed].
  rewrite Hnew, returned_app, Hnone in Hcursor.
  subst h0 connect. simpl in Hcursor. rewrite Hpre' in Hcursor.
  discriminate.
Qed.

(** The connection drops on the second fetch: cursor and connection are
    closed all the same. *)
Lemma source_session_is_closed_witness :
  exists r older,
    snd (handle_database_source connection_drops 5 (export_to_s3 warehouse)
                                warehouse outbox [])
    = (CloseSource, r) :: older
    /\ (returned is_open_cursor older = true ->
        exists r' older', older = (CloseCursor, r') :: older').
Proof.
  apply (source_session_is_closed connection_drops 5 (export_to_s3 warehouse)
           warehouse outbox).
  - vm_compute. discriminate.
  - vm_compute. reflexivity.
Defined.

(** X5.  [transfer_csv_to_sftp] closes the transport it created, on every
    path: when [paramiko.Transport] returned, [transport.close()] is called
    after everything else that goes over SFTP, also when the key, the
    login, the upload or the removal of the scratch file raised; the only
    calls after it are those of the handler that removes the scratch
    file. *)
Theorem csv_transport_is_closed oracle path name dc row_count :
  let run := transfer_csv_to_sftp oracle path name dc row_count [] in
  returned is_transport (snd run) = true ->
  exists cleanup r older,
    snd run = (cleanup ++ (TransportClose, r) :: older)%list
    /\ forallb (fun e => is_cleanup (fst e)) cleanup = true.
Proof.
  cbv zeta. unfold transfer_csv_to_sftp, try_except.
  assert (Hhandler : forall e h,
    returned is_transport h = false ->
    returned is_transport
      (snd ((cleanup_on_error oracle path ;;;
             ret (Result Failed 0 (SError e))) h)) = false).
  { intros e h Hh.
    destruct (cleanup_on_error_outcome oracle path h) as (cl & Hcl & Hall).
    rewrite (bind_ret_run _ _ _ _ _ Hcl). simpl.
    rewrite returned_app, Hh, (cleanup_is_no_transport cl Hall).
    reflexivity. }
  destruct (negb (truthy (get dc "host"))
            || negb (truthy (get dc "username"))).
  { rewrite bind_raise. intros H. rewrite Hhandler in H; easy. }
  rewrite bind_ret.
  match goal with
  | |- context [bind (perform oracle ?c) ?k []] =>
      destruct (perform_outcome oracle c []) as [(e & He) | (_ & He)];
      [rewrite (bind_exc_run _ k _ _ _ He)
      | rewrite (bind_ret_run _ k _ _ _ He)]; clear He;
      set (transport := c)
  end.
  { intros H. rewrite Hhandler in H; easy. }
  intros _. cbv beta.
  match goal with
  | |- context [try_finally ?b _ ?h] => set (body := b); set (h0 := h)
  end.
  assert (Hends : fst (body h0) <> OutOfFuel).
  { apply ends_fuel. subst body. ends. }
  rewrite (try_finally_close_quietly oracle body TransportClose h0 Hends).
  destruct (body h0) as [[r | e |] h1]; simpl in *; [| | congruence].
  - exists [], (oracle h1 TransportClose), h1. split; reflexivity.
  - destruct (cleanup_on_error_outcome oracle path
                ((TransportClose, oracle h1 TransportClose) :: h1))
      as (cl & Hcl & Hall).
    rewrite (bind_ret_run _ _ _ _ _ Hcl). simpl.
    exists cl, (oracle h1 TransportClose), h1. split; [reflexivity | exact Hall].
Qed.

(** The upload is refused: the transport is closed, then the scratch file
    is removed. *)
Lemma csv_transport_is_closed_witness :
  exists cleanup r older,
    snd (transfer_csv_to_sftp upload_refused "/tmp/scratch.csv" "orders.csv"
                              sftp_share 3 [])
    = (cleanup ++ (TransportClose, r) :: older)%list
    /\ forallb (fun e => is_cleanup (fst e)) cleanup = true.
Proof.
  apply (csv_transport_is_closed upload_refused "/tmp/scratch.csv"
           "orders.csv" sftp_share 3).
  vm_compute. reflexivity.
Defined.

(** X6.  [create_run_record], [update_run_record] and
    [read_connector_config] never leave a connection to the metadata store
    open: either [psycopg2.connect] raised, and that is the only call, or
    the last call is [conn.close()], whatever the statement, the commit or
    the rollback did. *)
Theorem metadata_connection_is_closed oracle connector_id flow_run_id
        run_id st rows text h :
  connection_closed h
    (snd (create_run_record oracle connector_id flow_run_id h))
  /\ connection_closed h
       (snd (update_run_record oracle run_id st rows text h))
  /\ connection_closed h
       (snd (read_connector_config oracle connector_id h)).
Proof.
  unfold create_run_record, update_run_record, read_connector_config.
  repeat split; apply connect_then_finally; ends.
Qed.

(** * The files a transfer touches and the count it returns *)

Lemma listed_lasting k : lasting (fun h => listed h k).
Proof.
  intros e h (b & p & keys & Hin & Hk). exists b, p, keys.
  split; [right |]; assumption.
Qed.

Lemma only_listed_quiet c r h :
  touched_key c = None -> only_listed h -> only_listed ((c, r) :: h).
Proof.
  intros Hc Hh c' r' k [[= <- <-] | Hin] Hk; [congruence |].
  destruct (Hh c' r' k Hin Hk) as [Hl Hd].
  split; [apply listed_lasting, Hl | exact Hd].
Qed.

Lemma deletes_quiet c r h :
  touched_key c = None -> deletes ((c, r) :: h) = deletes h.
Proof. destruct c; simpl; intros; solve [reflexivity | discriminate]. Qed.

Lemma tidy_quiet d c r h :
  touched_key c = None -> tidy d h -> tidy d ((c, r) :: h).
Proof.
  intros Hc [Hl Hd]. split; [apply only_listed_quiet; assumption |].
  rewrite deletes_quiet; assumption.
Qed.

Section Counting.

Variable oracle : history -> call -> reply.
Variable bucket : pyval.
Variable prefix : string.
Variable keys : list string.

Let after := tidy_after bucket prefix keys.

Lemma after_quiet d c r h :
  touched_key c = None -> after d h -> after d ((c, r) :: h).
Proof.
  intros Hc [Ht Hin]. split; [apply tidy_quiet; assumption |].
  right. exact Hin.
Qed.

Lemma only_listed_touch c r k h :
  touched_key c = Some k ->
  In k keys -> PyStr.endswith_slash k = false ->
  In (ListObjectsV2 bucket prefix, Listing (Some keys)) h ->
  only_listed h -> only_listed ((c, r) :: h).
Proof.
  intros Hc Hk Hdir Hlist Hh c' r' k' [[= <- <-] | Hin] Hk'.
  - assert (k' = k) by congruence. subst k'. split; [| exact Hdir].
    exists bucket, prefix, keys. split; [right |]; assumption.
  - destruct (Hh c' r' k' Hin Hk') as [Hl Hd].
    split; [apply listed_lasting, Hl | exact Hd].
Qed.

(** A copy or a download of a listed object. *)
Lemma after_touch d c r k h :
  touched_key c = Some k -> is_delete c = false ->
  In k keys -> PyStr.endswith_slash k = false ->
  after d h -> after d ((c, r) :: h).
Proof.
  intros Hc Hnd Hk Hdir [[Hl Hd] Hin]. split; [split |].
  - eapply only_listed_touch; eassumption.
  - rewrite <- Hd. destruct c; try discriminate; reflexivity.
  - right. exact Hin.
Qed.

(** The delete of a listed object counts when it returns. *)
Lemma after_delete d b k r h :
  In k keys -> PyStr.endswith_slash k = false ->
  after d h ->
  after (d + if raised r then 0 else 1) ((DeleteObject b k, r) :: h).
Proof.
  intros Hk Hdir [[Hl Hd] Hin]. split; [split |].
  - eapply only_listed_touch; try eassumption. reflexivity.
  - simpl. rewrite Hd. lia.
  - right. exact Hin.
Qed.

(** A step that keeps [G], then the rest. *)
Lemma inv_then {A B} (G : history -> Prop) (m : M A) (k : A -> M B) Q :
  run_spec G m (always G) ->
  (forall a, run_spec G (k a) Q) ->
  (forall e h, G h -> Q (Exc e) h) ->
  run_spec G (bind m k) Q.
Proof.
  intros Hm Hk He. eapply spec_bind; [exact Hm | | |].
  - intros a. eapply spec_weaken; [apply Hk | | auto].
    intros h [HG _]. exact HG.
  - intros e h [HG _]. apply He, HG.
  - intros h [_ Hf]. destruct Hf. reflexivity.
Qed.

Lemma after_counting n d e h : after d h -> counting n d (Exc e) h.
Proof.
  intros [[Hl _] _]. split; [exact Hl |]. split; [discriminate |].
  intros n' [=].
Qed.

(** [delete_object], then the rest with one more on the count. *)
Lemma delete_counting b k (rest : M Z) n d :
  In k keys -> PyStr.endswith_slash k = false ->
  run_spec (after (d + 1)) rest (counting (n + 1) (d + 1)) ->
  run_spec (after d) (perform oracle (DeleteObject b k) ;;; rest)
           (counting n d).
Proof.
  intros Hk Hdir Hrest.
  eapply spec_bind with
    (R := fun o h => match o with
                     | Ret _ => after (d + 1) h
                     | Exc _ => only_listed h
                     | OutOfFuel => False
                     end).
  - apply spec_perform. intros h r Hh.
    pose proof (after_delete d b k r h Hk Hdir Hh) as Hnew.
    destruct r; try exact Hnew. destruct Hnew as [[Hl _] _]. exact Hl.
  - intros a. eapply spec_weaken; [exact Hrest | auto |].
    intros o h (Hl & Hf & Hn). split; [exact Hl |]. split; [exact Hf |].
    intros n' Ho. specialize (Hn n' Ho). lia.
  - intros e h Hl. split; [exact Hl |]. split; [discriminate |].
    intros n' [=].
  - intros h [].
Qed.

Ltac quiet := intros; apply after_quiet; [reflexivity | assumption].

Ltac failing := intros; apply after_counting; assumption.

Lemma counting_ret n d : run_spec (after d) (ret n) (counting n d).
Proof.
  apply spec_ret. intros h [[Hl Hd] _]. split; [exact Hl |].
  split; [discriminate |]. intros n' [= <-]. lia.
Qed.

(** Lines 236-271. *)
Lemma move_loop_counting sb db pfx dest_prefix pat :
  forall contents, incl contents keys ->
  forall n d,
    run_spec (after d)
      (move_loop oracle sb db pfx dest_prefix pat contents n)
      (counting n d).
Proof.
  induction contents as [| key rest IH]; intros Hincl n d; simpl.
  { apply counting_ret. }
  assert (Hkey : In key keys) by (apply Hincl; left; reflexivity).
  assert (Hrest : incl rest keys) by (intros x Hx; apply Hincl; right; exact Hx).
  destruct (PyStr.endswith_slash key) eqn:Edir; [apply IH, Hrest |].
  apply inv_then; [apply inv_matches_pattern | | failing].
  intros [|]; [| apply IH, Hrest].
  apply inv_then; [| | failing].
  { apply inv_perform. intros. apply after_touch with (k := key); auto. }
  intros ?.
  apply delete_counting; [exact Hkey | exact Edir | apply IH, Hrest].
Qed.

(** Lines 331-351. *)
Lemma sftp_loop_counting sb pfx pat dest tmpdir :
  forall contents, incl contents keys ->
  forall n d,
    run_spec (after d)
      (sftp_loop oracle sb pfx pat dest tmpdir contents n)
      (counting n d).
Proof.
  induction contents as [| key rest IH]; intros Hincl n d; simpl.
  { apply counting_ret. }
  assert (Hkey : In key keys) by (apply Hincl; left; reflexivity).
  assert (Hrest : incl rest keys) by (intros x Hx; apply Hincl; right; exact Hx).
  destruct (PyStr.endswith_slash key) eqn:Edir; [apply IH, Hrest |].
  apply inv_then; [apply inv_matches_pattern_batch | | failing].
  intros [|]; [| apply IH, Hrest].
  apply inv_then; [| | failing].
  { apply inv_perform. intros. apply after_touch with (k := key); auto. }
  intros ?. apply inv_then; [apply inv_as_str | | failing].
  intros ?. apply inv_then; [apply inv_perform; quiet | | failing].
  intros ?.
  apply delete_counting; [exact Hkey | exact Edir | apply IH, Hrest].
Qed.

(** Lines 397-413. *)
Lemma filesystem_loop_counting sb pfx pat dest :
  forall contents, incl contents keys ->
  forall n d,
    run_spec (after d)
      (filesystem_loop oracle sb pfx pat dest contents n)
      (counting n d).
Proof.
  induction contents as [| key rest IH]; intros Hincl n d; simpl.
  { apply counting_ret. }
  assert (Hkey : In key keys) by (apply Hincl; left; reflexivity).
  assert (Hrest : incl rest keys) by (intros x Hx; apply Hincl; right; exact Hx).
  destruct (PyStr.endswith_slash key) eqn:Edir; [apply IH, Hrest |].
  apply inv_then; [apply inv_matches_pattern_batch | | failing].
  intros [|]; [| apply IH, Hrest].
  apply inv_then; [apply inv_as_str | | failing].
  intros ?. apply inv_then; [| | failing].
  { apply inv_perform. intros. apply after_touch with (k := key); auto. }
  intros ?.
  apply delete_counting; [exact Hkey | exact Edir | apply IH, Hrest].
Qed.

(** **** REST *)

Lemma session_request_after d method url name multipart :
  forall retries,
    run_spec (after d)
      (session_request oracle retries method url name multipart)
      (always (after d)).
Proof.
  assert (Hheader : run_spec (after d) (has_retry_after oracle)
                             (always (after d)))
    by (intros h o h' Hh [= <- <-]; split; [exact Hh | discriminate]).
  induction retries as [| retries IH]; cbn [session_request];
    (apply inv_bind;
     [apply inv_try_except_if;
      [apply inv_bind; [apply inv_perform; quiet | intros; apply inv_ret]
      | intros; apply inv_ret] |]);
    intros [e | []]; try apply inv_raise;
    try (destruct (is_retried_error method e);
         first [apply inv_raise | apply IH]);
    (apply inv_bind; [exact Hheader | intros retry_after]);
    match goal with
    | |- run_spec _ (if ?b then _ else _) _ => destruct b
    end;
    first [apply inv_raise | apply inv_ret | apply IH].
Qed.

Lemma after_only_listed d h : after d h -> only_listed h.
Proof. intros [[Hl _] _]. exact Hl. Qed.

(** Lines 536-581. *)
Lemma rest_upload_sending sb key name local method url multipart d :
  In key keys -> PyStr.endswith_slash key = false ->
  run_spec (after d)
    (rest_upload oracle sb key name local method url multipart)
    (sending bucket prefix keys d).
Proof.
  intros Hkey Hdir. unfold rest_upload, try_except_if.
  intros h o h' Hh.
  set (body := (perform oracle (ReadFile local) ;;;
                code <- session_request oracle retry_total method url name
                                        multipart ;;
                raise_for_status code ;;;
                perform oracle (DeleteObject sb key) ;;;
                ret true)).
  assert (Hbody : run_spec (after d) body
            (fun o h => match o with
                        | Ret sent => sent = true /\ after (d + 1) h
                        | Exc _ => after d h
                        | OutOfFuel => False
                        end)).
  { subst body.
    apply inv_then; [apply inv_perform; quiet | | auto].
    intros ?. apply inv_then; [apply session_request_after | | auto].
    intros code. apply inv_then; [| | auto].
    { unfold raise_for_status.
      destruct ((400 <=? code) && (code <? 600));
        [apply inv_raise | apply inv_ret]. }
    intros ?.
    eapply spec_bind with
      (R := fun o h => match o with
                       | Ret _ => after (d + 1) h
                       | Exc _ => after d h
                       | OutOfFuel => False
                       end).
    - apply spec_perform. intros h1 r Hh1.
      pose proof (after_delete d sb key r h1 Hkey Hdir Hh1) as Hnew.
      destruct r; simpl in Hnew; try exact Hnew.
      replace (d + 0) with d in Hnew by lia. exact Hnew.
    - intros ?. apply spec_ret. auto.
    - auto.
    - auto. }
  specialize (Hbody h).
  destruct (body h) as [[sent | e |] h1];
    specialize (Hbody _ _ Hh eq_refl); simpl in Hbody.
  - intros [= <- <-]. destruct Hbody as [-> Hb]. exact Hb.
  - destruct (is_request_exception e); intros [= <- <-]; simpl.
    + replace (d + 0) with d by lia. exact Hbody.
    + eapply after_only_listed, Hbody.
  - destruct Hbody.
Qed.

(** Lines 519-581. *)
Lemma rest_loop_counting sb pfx pat method url multipart tmpdir :
  forall contents, incl contents keys ->
  forall n d,
    run_spec (after d)
      (rest_loop oracle sb pfx pat method url multipart tmpdir contents n)
      (counting n d).
Proof.
  induction contents as [| key rest IH]; intros Hincl n d; simpl.
  { apply counting_ret. }
  assert (Hkey : In key keys) by (apply Hincl; left; reflexivity).
  assert (Hrest : incl rest keys) by (intros x Hx; apply Hincl; right; exact Hx).
  destruct (PyStr.endswith_slash key) eqn:Edir; [apply IH, Hrest |].
  apply inv_then; [apply inv_matches_pattern_batch | | failing].
  intros [|]; [| apply IH, Hrest].
  apply inv_then; [| | failing].
  { apply inv_perform. intros. apply after_touch with (k := key); auto. }
  intros ?.
  eapply spec_bind; [apply rest_upload_sending; assumption | | |].
  - intros sent. eapply spec_weaken; [apply (IH Hrest) | | ].
    + intros h Hh. exact Hh.
    + intros o h (Hl & Hf & Hn). split; [exact Hl |]. split; [exact Hf |].
      intros n' Ho. specialize (Hn n' Ho). destruct sent; lia.
  - intros e h Hl. split; [exact Hl |]. split; [discriminate |].
    intros n' [=].
  - intros h [].
Qed.

(** A [finally] that touches no object changes neither the count nor
    what was touched. *)
Lemma counting_try_finally (P : history -> Prop) (body : M Z) c n d :
  touched_key c = None ->
  run_spec P body (counting n d) ->
  run_spec P (try_finally body (perform_ oracle c)) (counting n d).
Proof.
  intros Hc Hbody h o h' HP. unfold try_finally.
  specialize (Hbody h). destruct (body h) as [ob h1].
  destruct (Hbody _ _ HP eq_refl) as (Hl & Hf & Hn).
  unfold perform_, perform, bind.
  destruct ob as [a | e |]; [| | congruence];
    destruct (oracle h1 c) eqn:Er; intros [= <- <-];
    (split; [apply only_listed_quiet; assumption |]);
    (split; [discriminate |]);
    intros n' Hn'; try discriminate;
    rewrite deletes_quiet by assumption; apply Hn, Hn'.
Qed.

Lemma new_path_after d c :
  touched_key c = None ->
  run_spec (after d) (new_path oracle c) (always (after d)).
Proof.
  intros Hc. unfold new_path.
  apply inv_bind;
    [apply inv_perform; intros; apply after_quiet; assumption |].
  intros []; first [apply inv_ret | apply inv_raise].
Qed.

Lemma with_temporary_directory_counting (body : string -> M Z) n d :
  (forall tmpdir, run_spec (after d) (body tmpdir) (counting n d)) ->
  run_spec (after d) (with_temporary_directory oracle body) (counting n d).
Proof.
  intros Hbody. unfold with_temporary_directory.
  apply inv_then; [apply new_path_after; reflexivity | | failing].
  intros tmpdir. apply counting_try_finally; [reflexivity | apply Hbody].
Qed.

End Counting.

Section Adapters.

Variable oracle : history -> call -> reply.

Ltac calm := intros; apply tidy_quiet; [reflexivity | assumption].

Ltac calm_step :=
  first
    [ apply inv_ret | apply inv_raise | apply inv_as_str
    | apply inv_source_prefix
    | apply inv_perform_; calm
    | apply inv_perform; calm
    | apply inv_bind; [| intros ?]
    | match goal with
      | |- run_spec _ (if ?b then _ else _) _ => destruct b
      end ].

Ltac calmly := repeat calm_step.

Lemma tidy_counting n d e h : tidy d h -> counting n d (Exc e) h.
Proof.
  intros [Hl _]. split; [exact Hl |]. split; [discriminate |].
  intros n' [=].
Qed.

Ltac broken := intros; apply tidy_counting; assumption.

Lemma list_objects_v2_listing bucket prefix d :
  run_spec (tidy d) (list_objects_v2 oracle bucket prefix)
           (listing_in bucket prefix d).
Proof.
  intros h o h' Hh. unfold list_objects_v2, bind, perform.
  pose proof (tidy_quiet d (ListObjectsV2 bucket prefix)
                (oracle h (ListObjectsV2 bucket prefix)) h eq_refl Hh)
    as Hnew.
  destruct (oracle h (ListObjectsV2 bucket prefix)) as
    [e | | contents | | | | | | | | | |] eqn:Er;
    intros [= <- <-]; simpl; try exact (proj1 Hnew).
  destruct contents as [contents |]; [| exact Hnew].
  split; [exact Hnew | left; reflexivity].
Qed.

Lemma counting_none d : run_spec (tidy d) (ret 0) (counting 0 d).
Proof.
  apply spec_ret. intros h [Hl Hd]. split; [exact Hl |].
  split; [discriminate |]. intros n' [= <-]. lia.
Qed.

(** The calls after the loop: they keep the count that was reached. *)
Lemma counting_tail (m : M Z) (k : Z -> M Z) P d :
  run_spec P m (counting 0 d) ->
  (forall n, run_spec (tidy (d + n)) (k n) (always (tidy (d + n)))) ->
  (forall n h o h', k n h = (o, h') -> forall n', o = Ret n' -> n' = n) ->
  run_spec P (bind m k) (counting 0 d).
Proof.
  intros Hm Hk Hval. eapply spec_bind; [exact Hm | | |].
  - intros n h o h' (Hl & _ & Hn) E.
    assert (Ht : tidy (d + n) h) by (split; [exact Hl |]; specialize (Hn n eq_refl); lia).
    destruct (Hk n h o h' Ht E) as [[Hl' Hd'] Hf].
    split; [exact Hl' |]. split; [exact Hf |].
    intros n' Ho. rewrite (Hval n h o h' E n' Ho). lia.
  - intros e h (Hl & _ & _). split; [exact Hl |]. split; [discriminate |].
    intros n' [=].
  - intros h (_ & Hf & _). congruence.
Qed.

(** Lines 196-273. *)
Lemma move_processed_files_try_counting sc dc creds d :
  run_spec (tidy d) (move_processed_files_try oracle sc dc creds)
           (counting 0 d).
Proof.
  unfold move_processed_files_try.
  apply inv_then; [calmly | | broken]. intros ?.
  apply inv_then; [calmly | | broken]. intros pfx.
  apply inv_then; [calmly | | broken]. intros dest_prefix.
  eapply spec_bind; [apply list_objects_v2_listing | | |].
  - intros [contents |]; [| apply counting_none].
    apply move_loop_counting, incl_refl.
  - intros e h Hl. split; [exact Hl |]. split; [discriminate |].
    intros n' [=].
  - intros h [].
Qed.

Lemma listing_failed n d :
  forall e h, only_listed h -> counting n d (Exc e) h.
Proof.
  intros e h Hl. split; [exact Hl |]. split; [discriminate |].
  intros n' [=].
Qed.

(** Lines 281-355. *)
Lemma transfer_to_sftp_try_counting sc dc creds d :
  run_spec (tidy d) (transfer_to_sftp_try oracle sc dc creds)
           (counting 0 d).
Proof.
  unfold transfer_to_sftp_try.
  apply inv_then; [calmly | | broken]. intros ?.
  apply inv_then; [calmly | | broken]. intros ?.
  apply inv_then; [calmly | | broken]. intros ?.
  apply inv_then; [calmly | | broken]. intros ?.
  apply inv_then; [calmly | | broken]. intros pfx.
  eapply spec_bind;
    [apply list_objects_v2_listing | | apply listing_failed | intros h []].
  intros response. apply counting_tail.
  - destruct response as [contents |]; [| apply counting_none].
    apply with_temporary_directory_counting. intros tmpdir.
    apply sftp_loop_counting, incl_refl.
  - intros n. calmly.
  - intros n h o h'. unfold bind, perform.
    destruct (oracle h SftpClose); try (intros [= <- <-] n' [=]);
      destruct (oracle _ TransportClose);
      intros [= <- <-] n' [=]; congruence.
Qed.

(** Lines 363-415. *)
Lemma transfer_to_filesystem_try_counting sc dc creds d :
  run_spec (tidy d) (transfer_to_filesystem_try oracle sc dc creds)
           (counting 0 d).
Proof.
  unfold transfer_to_filesystem_try.
  apply inv_then; [calmly | | broken]. intros ?.
  apply inv_then; [calmly | | broken]. intros ?.
  apply inv_then; [calmly | | broken]. intros pfx.
  eapply spec_bind;
    [apply list_objects_v2_listing | | apply listing_failed | intros h []].
  intros [contents |]; [| apply counting_none].
  apply filesystem_loop_counting, incl_refl.
Qed.

(** Lines 431-584. *)
Lemma transfer_to_rest_api_try_counting sc dc creds d :
  run_spec (tidy d) (transfer_to_rest_api_try oracle sc dc creds)
           (counting 0 d).
Proof.
  unfold transfer_to_rest_api_try.
  apply inv_then; [calmly | | broken]. intros ?.
  apply inv_then; [calmly | | broken]. intros ?.
  apply inv_then; [calmly | | broken]. intros ?.
  apply inv_then; [calmly | | broken]. intros method.
  apply inv_then; [calmly | | broken]. intros ?.
  apply inv_then; [calmly | | broken]. intros pfx.
  eapply spec_bind;
    [apply list_objects_v2_listing | | apply listing_failed | intros h []].
  intros response. apply counting_tail.
  - destruct response as [contents |]; [| apply counting_none].
    apply with_temporary_directory_counting. intros tmpdir.
    apply rest_loop_counting, incl_refl.
  - intros n. calmly.
  - intros n h o h'. unfold bind, perform.
    destruct (oracle h SessionClose); intros [= <- <-] n' [=]; congruence.
Qed.

(** An adapter: its [try] block under [except Exception: return 0]. *)
Lemma adapter_counted (body : M Z) d :
  run_spec (tidy d) body (counting 0 d) ->
  run_spec (tidy d) (try_except body (fun _ => ret 0)) (counted d).
Proof.
  intros Hbody h o h' Hh. unfold try_except, ret.
  specialize (Hbody h). destruct (body h) as [[n | e |] h1];
    destruct (Hbody _ _ Hh eq_refl) as (Hl & Hf & Hn);
    [| | congruence]; intros [= <- <-]; (split; [exact Hl |]).
  - exists n. split; [reflexivity |]. right. specialize (Hn n eq_refl). lia.
  - exists 0. split; [reflexivity | left; reflexivity].
Qed.

(** Lines 176-191. *)
Lemma transfer_files_function_counted sc dc creds dt d :
  run_spec (tidy d) (transfer_files_function oracle sc dc creds dt)
           (counted d).
Proof.
  unfold transfer_files_function, move_processed_files_function,
    transfer_to_sftp_function, transfer_to_filesystem_function,
    transfer_to_rest_api_function.
  destruct (String.eqb dt "s3");
    [apply adapter_counted, move_processed_files_try_counting |].
  destruct (String.eqb dt "sftp");
    [apply adapter_counted, transfer_to_sftp_try_counting |].
  destruct (String.eqb dt "nfs" || String.eqb dt "filesystem");
    [apply adapter_counted, transfer_to_filesystem_try_counting |].
  destruct (String.eqb dt "rest_api");
    [apply adapter_counted, transfer_to_rest_api_try_counting |].
  apply spec_ret. intros h [Hl _]. split; [exact Hl |].
  exists 0. split; [reflexivity | left; reflexivity].
Qed.

End Adapters.

Lemma tidy_start : tidy 0 [].
Proof. split; [intros c r k [] | reflexivity]. Qed.

(** X7.  A file-matching transfer touches only what the listing returned:
    through every adapter and whatever the outside world answers, each
    object the run copies, downloads or deletes is a key of the
    [list_objects_v2] response of that run, and no key that ends in "/"
    (a directory marker) is ever copied, downloaded or deleted. *)
Theorem transfer_touches_only_listed_files oracle sc dc creds dt :
  only_listed (snd (transfer_files_function oracle sc dc creds dt [])).
Proof.
  destruct (transfer_files_function oracle sc dc creds dt [])
    as [o h'] eqn:E.
  exact (proj1 (transfer_files_function_counted oracle sc dc creds dt 0
                  [] o h' tidy_start E)).
Qed.

(** X8.  The count a file-matching transfer returns never overstates:
    through every adapter and whatever the outside world answers,
    [transfer_files_function] returns a count, and it is either 0 or
    exactly the number of [delete_object] calls of the run that
    returned. *)
Theorem transfer_count_is_zero_or_deletes oracle sc dc creds dt :
  let run := transfer_files_function oracle sc dc creds dt [] in
  exists n, fst run = Ret n /\ (n = 0 \/ n = deletes (snd run)).
Proof.
  cbv zeta.
  destruct (transfer_files_function oracle sc dc creds dt [])
    as [o h'] eqn:E.
  destruct (transfer_files_function_counted oracle sc dc creds dt 0
              [] o h' tidy_start E) as (_ & n & Ho & Hn).
  exists n. split; [exact Ho |]. simpl. lia.
Qed.

(** * The move within the object store, when nothing fails *)

Section NothingFails.

Variable oracle : history -> call -> reply.

Hypothesis nothing_raises : forall h c, raised (oracle h c) = false.

Lemma perform_returns c h :
  perform oracle c h = (Ret (oracle h c), (c, oracle h c) :: h).
Proof.
  unfold perform. pose proof (nothing_raises h c) as Hr.
  destruct (oracle h c); solve [reflexivity | discriminate].
Qed.

Lemma bind_ret_left {A B} (a : A) (k : A -> M B) h :
  bind (ret a) k h = k a h.
Proof. reflexivity. Qed.

(** Lines 236-271, when no call raises. *)
Lemma move_loop_moves sb db pfx dest_prefix pattern :
  forall contents n h,
    exists new,
      move_loop oracle sb db pfx dest_prefix (PStr pattern) contents n h
      = (Ret (n + Z.of_nat (length (selected pfx pattern contents))),
         (new ++ h)%list)
      /\ map fst new
         = rev (moves sb db dest_prefix (selected pfx pattern contents)).
Proof.
  induction contents as [| key rest IH]; intros n h.
  { exists []. split; [| reflexivity]. simpl. rewrite Z.add_0_r.
    reflexivity. }
  cbn [move_loop]. unfold selected. cbn [List.filter].
  fold (selected pfx pattern rest).
  destruct (PyStr.endswith_slash key) eqn:Edir; cbn [negb andb].
  { apply IH. }
  rewrite (bind_ret_run _ _ _ _ _
             (matches_pattern_is_spec_rule pfx pattern key
                (PyStr.split_last key) h)).
  destruct (spec_pattern_rule pfx pattern key (PyStr.split_last key)).
  2: { apply IH. }
  rewrite (bind_ret_run _ _ _ _ _ (perform_returns _ h)).
  rewrite (bind_ret_run _ _ _ _ _ (perform_returns _ _)).
  match goal with
  | |- context [move_loop _ _ _ _ _ _ rest (n + 1) ?h1] =>
      destruct (IH (n + 1) h1) as (new & Hrun & Hcalls); rewrite Hrun
  end.
  eexists (new ++ [_; _])%list. split.
  - f_equal; [f_equal; cbn [length]; lia |].
    rewrite <- app_assoc. reflexivity.
  - rewrite List.map_app.
    etransitivity;
      [apply (f_equal2 (@app call)); [exact Hcalls | reflexivity] |].
    change (moves sb db dest_prefix (key :: selected pfx pattern rest))
      with ([CopyObject sb key db (dest_key dest_prefix key);
             DeleteObject sb key]
            ++ moves sb db dest_prefix (selected pfx pattern rest))%list.
    rewrite rev_app_distr. reflexivity.
Qed.

Variable keys : list string.

Hypothesis listing :
  forall h b p, oracle h (ListObjectsV2 b p) = Listing (Some keys).

(** Lines 196-273, when no call raises. *)
Lemma move_processed_files_try_moves sc dc creds path pattern dprefix :
  get_or sc "path" (PStr "") = PStr path ->
  get_or sc "file_pattern" (PStr "*") = PStr pattern ->
  get_or dc "prefix" (PStr "") = PStr dprefix ->
  let chosen := selected (listing_prefix path) pattern keys in
  exists new,
    move_processed_files_try oracle sc dc creds []
    = (Ret (Z.of_nat (length chosen)), new)
    /\ map fst (rev new)
       = S3Client
         :: ListObjectsV2 (get sc "bucket") (listing_prefix path)
         :: moves (get sc "bucket") (get dc "bucket")
                  (PyStr.rstrip_slash dprefix) chosen.
Proof.
  intros Hpath Hpattern Hprefix chosen.
  assert (Hsource : forall h,
            source_prefix sc h = (Ret (listing_prefix path), h)).
  { intros h. unfold source_prefix. rewrite Hpath. reflexivity. }
  assert (Hlist : forall b p h,
            list_objects_v2 oracle b p h
            = (Ret (Some keys), (ListObjectsV2 b p, Listing (Some keys)) :: h)).
  { intros b p h. unfold list_objects_v2.
    rewrite (bind_ret_run _ _ _ _ _ (perform_returns _ _)).
    rewrite listing. reflexivity. }
  unfold move_processed_files_try.
  rewrite (bind_ret_run _ _ _ _ _ (perform_returns _ _)).
  rewrite (bind_ret_run _ _ _ _ _ (Hsource _)).
  rewrite Hpattern, Hprefix.
  rewrite (bind_ret_run (as_str (PStr dprefix)) _ _ dprefix _ eq_refl).
  rewrite (bind_ret_run _ _ _ _ _ (Hlist _ _ _)).
  match goal with
  | |- context [move_loop oracle ?sb ?db ?pfx ?dp _ keys 0 ?h0] =>
      destruct (move_loop_moves sb db pfx dp pattern keys 0 h0)
        as (new & Hrun & Hcalls)
  end.
  exists (new ++ [(ListObjectsV2 (get sc "bucket") (listing_prefix path),
                   Listing (Some keys));
                  (S3Client, oracle [] S3Client)])%list.
  split.
  - etransitivity; [exact Hrun |]. reflexivity.
  - rewrite rev_app_distr. cbn [rev app map fst].
    f_equal. f_equal. rewrite List.map_rev.
    etransitivity; [apply (f_equal (@rev call)); exact Hcalls |].
    apply rev_involutive.
Qed.

End NothingFails.

(** X9.  [move_processed_files_function] when no call raises and the
    path, the pattern and the destination prefix are strings (or absent):
    it returns the number of listed keys that do not end in "/" and match
    the pattern rule, and its calls are, in this order, the client, the
    listing under the prefix, and for each such key, in listing order, the
    copy to [<dest_prefix>/<base name>] followed by the delete of the
    key.  The destination key keeps the base name only: keys of different
    folders with the same base name are copied to the same destination
    key. *)
Theorem move_moves_the_selected_files oracle keys sc dc creds
        path pattern dprefix :
  (forall h c, raised (oracle h c) = false) ->
  (forall h b p, oracle h (ListObjectsV2 b p) = Listing (Some keys)) ->
  get_or sc "path" (PStr "") = PStr path ->
  get_or sc "file_pattern" (PStr "*") = PStr pattern ->
  get_or dc "prefix" (PStr "") = PStr dprefix ->
  let run := move_processed_files_function oracle sc dc creds [] in
  let chosen := selected (listing_prefix path) pattern keys in
  fst run = Ret (Z.of_nat (length chosen))
  /\ map fst (rev (snd run))
     = S3Client
       :: ListObjectsV2 (get sc "bucket") (listing_prefix path)
       :: moves (get sc "bucket") (get dc "bucket")
                (PyStr.rstrip_slash dprefix) chosen.
Proof.
  intros Hraise Hlist Hpath Hpattern Hprefix. cbv zeta.
  destruct (move_processed_files_try_moves oracle Hraise keys Hlist
              sc dc creds path pattern dprefix Hpath Hpattern Hprefix)
    as (new & Hrun & Hcalls).
  unfold move_processed_files_function, try_except. rewrite Hrun.
  split; [reflexivity | exact Hcalls].
Qed.

(** Two folders hold a file of the same name: both are copied to
    [done/orders.csv]. *)
Lemma move_moves_the_selected_files_witness :
  let keys := ["data/"; "data/orders.csv"; "data/old/orders.csv"] in
  let run := move_processed_files_function (steady keys) inbox outbox ∅ [] in
  fst run = Ret 2
  /\ map fst (rev (snd run))
     = [ S3Client;
         ListObjectsV2 (PStr "in") "data/";
         CopyObject (PStr "in") "data/orders.csv" (PStr "out")
                    "done/orders.csv";
         DeleteObject (PStr "in") "data/orders.csv";
         CopyObject (PStr "in") "data/old/orders.csv" (PStr "out")
                    "done/orders.csv";
         DeleteObject (PStr "in") "data/old/orders.csv" ].
Proof.
  apply (move_moves_the_selected_files
           (steady ["data/"; "data/orders.csv"; "data/old/orders.csv"])
           ["data/"; "data/orders.csv"; "data/old/orders.csv"]
           inbox outbox ∅ "data/" "*" "done/").
  - intros h c. destruct c; reflexivity.
  - reflexivity.
  - vm_compute. reflexivity.
  - vm_compute. reflexivity.
  - vm_compute. reflexivity.
Defined.

(** * The connector configuration *)

Section Connector.

Variable oracle : history -> call -> reply.

Hypothesis connects : forall h, raised (oracle h MetaConnect) = false.
Hypothesis closes : forall h, raised (oracle h MetaClose) = false.

Lemma perform_when_returns c h :
  raised (oracle h c) = false ->
  perform oracle c h = (Ret (oracle h c), (c, oracle h c) :: h).
Proof.
  unfold perform. intros Hr.
  destruct (oracle h c); solve [reflexivity | discriminate].
Qed.

(** Lines 101-142 when the connection opens and closes. *)
Lemma read_connector_config_run connector_id h :
  let h1 := (MetaConnect, oracle h MetaConnect) :: h in
  let answer := oracle h1 (SelectConnector connector_id) in
  let h2 := (SelectConnector connector_id, answer) :: h1 in
  let h3 := (MetaClose, oracle h2 MetaClose) :: h2 in
  read_connector_config oracle connector_id h
  = match answer with
    | Selected None =>
        (Exc (Exn ValueError ("Connector " +:+ py_str (PInt connector_id)
                              +:+ " not found")), h3)
    | Selected (Some row) =>
        (Ret {| connector_id := connector_id;
                connector_name := row_name row;
                source_type := or_text (row_source_type row) "filesystem";
                source_config :=
                  or_empty (source_config_override row)
                  ∪ or_empty (source_base_config row);
                destination_type := or_text (row_dest_type row) "s3";
                destination_config :=
                  or_empty (destination_config_override row)
                  ∪ or_empty (dest_base_config row) |}, h3)
    | Raise e => (Exc e, h3)
    | _ => (Exc (Exn TypeError "not a row"), h3)
    end.
Proof.
  cbv zeta. unfold read_connector_config.
  rewrite (bind_ret_run _ _ _ _ _ (perform_when_returns _ _ (connects h))).
  set (h1 := (MetaConnect, oracle h MetaConnect) :: h).
  unfold try_finally, perform_, bind, perform.
  destruct (oracle h1 (SelectConnector connector_id)) as
    [e | | | | | [row |] | | | | | | |] eqn:Eanswer;
    cbn [type_error raise ret];
    match goal with
    | |- context [oracle ?h2 MetaClose] =>
        pose proof (closes h2) as Hclose;
        destruct (oracle h2 MetaClose); try discriminate Hclose
    end; reflexivity.
Qed.

(** Lines 1066-1079 when the connection opens: the UPDATE is sent. *)
Lemma update_run_record_issues id st rows text h :
  let update := update_run_record oracle id st rows text h in
  updates_issued (snd update) = (id, st) :: updates_issued h
  /\ exists r, In (UpdateRun id st rows text, r) (snd update).
Proof.
  cbv zeta. unfold update_run_record.
  rewrite (bind_ret_run _ _ _ _ _ (perform_when_returns _ _ (connects h))).
  set (h1 := (MetaConnect, oracle h MetaConnect) :: h).
  unfold try_finally, perform_, bind, ret.
  repeat match goal with
         | |- context [perform oracle ?cx ?hx] =>
             let e := fresh "e" in
             let Hr := fresh "Hreply" in
             destruct (perform_cases oracle cx hx)
               as [(e & ->) | (Hr & ->)];
             cbv beta iota
         end;
    simpl; (split; [reflexivity | eexists; eauto 6]).
Qed.

End Connector.

(** X10.  [read_connector_config], when the connection opens and closes
    and the SELECT returns a row: the source and the destination
    configuration are the shallow merge of the base configuration and the
    override -- a key of the override replaces the value of the base, every
    other key of the base is kept, a configuration that is NULL counts as
    empty -- and a source or destination type that is NULL or empty
    becomes "filesystem" or "s3". *)
Theorem connector_config_is_the_shallow_merge oracle connector_id row h :
  (forall h, raised (oracle h MetaConnect) = false) ->
  (forall h, raised (oracle h MetaClose) = false) ->
  (forall h, oracle h (SelectConnector connector_id) = Selected (Some row)) ->
  exists cfg,
    fst (read_connector_config oracle connector_id h) = Ret cfg
    /\ (forall k,
          source_config cfg !! k
          = match or_empty (source_config_override row) !! k with
            | Some v => Some v
            | None => or_empty (source_base_config row) !! k
            end)
    /\ (forall k,
          destination_config cfg !! k
          = match or_empty (destination_config_override row) !! k with
            | Some v => Some v
            | None => or_empty (dest_base_config row) !! k
            end)
    /\ (row_source_type row = None \/ row_source_type row = Some "" ->
        source_type cfg = "filesystem")
    /\ (row_dest_type row = None \/ row_dest_type row = Some "" ->
        destination_type cfg = "s3").
Proof.
  intros Hconnect Hclose Hrow.
  pose proof (read_connector_config_run oracle Hconnect Hclose
                connector_id h) as Hrun.
  cbv zeta in Hrun. rewrite Hrow in Hrun. rewrite Hrun.
  eexists. split; [reflexivity |]. simpl.
  assert (Hmerge : forall (a b : dict) k,
            (a ∪ b) !! k
            = match a !! k with Some v => Some v | None => b !! k end).
  { intros a b k. destruct (a !! k) as [v |] eqn:Ea.
    - apply lookup_union_Some_l, Ea.
    - apply lookup_union_r, Ea. }
  repeat split; try (intros k; apply Hmerge).
  - intros [-> | ->]; reflexivity.
  - intros [-> | ->]; reflexivity.
Qed.

(** The connector from the inbox to the outbox has no overrides. *)
Lemma connector_config_is_the_shallow_merge_witness :
  exists cfg,
    fst (read_connector_config (with_connector (steady [])) 7 []) = Ret cfg
    /\ (forall k,
          source_config cfg !! k
          = match or_empty (source_config_override inbox_to_outbox) !! k with
            | Some v => Some v
            | None => or_empty (source_base_config inbox_to_outbox) !! k
            end)
    /\ (forall k,
          destination_config cfg !! k
          = match or_empty (destination_config_override inbox_to_outbox)
                  !! k with
            | Some v => Some v
            | None => or_empty (dest_base_config inbox_to_outbox) !! k
            end)
    /\ (row_source_type inbox_to_outbox = None
        \/ row_source_type inbox_to_outbox = Some "" ->
        source_type cfg = "filesystem")
    /\ (row_dest_type inbox_to_outbox = None
        \/ row_dest_type inbox_to_outbox = Some "" ->
        destination_type cfg = "s3").
Proof.
  apply (connector_config_is_the_shallow_merge
           (with_connector (steady [])) 7 inbox_to_outbox []);
    intros; reflexivity.
Defined.

(** Lines 1266-1313 for a connector that has no row. *)
Lemma unknown_connector_run oracle getenv DLT_AVAILABLE fuel
        connector_id project_id env flow_run_id h0 :
  (forall h, raised (oracle h MetaConnect) = false) ->
  (forall h, raised (oracle h MetaClose) = false) ->
  (forall h, oracle h (SelectConnector connector_id) = Selected None) ->
  let run :=
    run_connector_pipeline oracle getenv DLT_AVAILABLE fuel connector_id
                           project_id env flow_run_id h0 in
  let e :=
    Exn ValueError
        ("Connector " +:+ py_str (PInt connector_id) +:+ " not found") in
  fst run = Exc e
  /\ forall id,
       fst (create_run_record oracle connector_id flow_run_id h0) = Ret id ->
       updates_issued (snd run) = (id, Failed) :: updates_issued h0
       /\ exists r,
            In (UpdateRun id Failed None (Some (SFlowError e)), r) (snd run).
Proof.
  intros Hconnect Hclose Hrow. cbv zeta.
  assert (Hread : forall h,
    read_connector_config oracle connector_id h
    = (Exc (Exn ValueError
              ("Connector " +:+ py_str (PInt connector_id)
               +:+ " not found")),
       (MetaClose,
        oracle ((SelectConnector connector_id, Selected None)
                  :: (MetaConnect, oracle h MetaConnect) :: h) MetaClose)
         :: (SelectConnector connector_id, Selected None)
         :: (MetaConnect, oracle h MetaConnect) :: h)).
  { intros h.
    pose proof (read_connector_config_run oracle Hconnect Hclose
                  connector_id h) as Hrun.
    cbv zeta in Hrun. rewrite Hrow in Hrun. exact Hrun. }
  pose proof (create_run_record_records oracle connector_id flow_run_id h0)
    as Hcreate.
  destruct (create_run_record oracle connector_id flow_run_id h0)
    as [[id | e0 |] h1] eqn:Ecreate; [| | destruct Hcreate].
  - rewrite (run_connector_pipeline_recorded oracle getenv DLT_AVAILABLE
               fuel connector_id project_id env flow_run_id h0 id h1
               Ecreate).
    unfold pipeline_step.
    rewrite (bind_exc_run _ _ _ _ _ (Hread h1)).
    split; [reflexivity |]. intros id' [= <-]. cbn [snd].
    match goal with
    | |- context [update_run_record oracle id Failed None ?t ?h3] =>
        destruct (update_run_record_issues oracle Hconnect id Failed None
                    t h3) as [Hissued Hin]
    end.
    cbv zeta in Hissued, Hin. split; [| exact Hin].
    rewrite Hissued. simpl.
    destruct Hcreate as (_ & -> & _). reflexivity.
  - rewrite (run_connector_pipeline_unrecorded oracle getenv DLT_AVAILABLE
               fuel connector_id project_id env flow_run_id h0 e0 h1
               Ecreate).
    unfold pipeline_step.
    rewrite (bind_exc_run _ _ _ _ _ (Hread h1)).
    split; [reflexivity |]. intros id' [=].
Qed.

(** X11.  A run for a connector that does not exist.  When the metadata
    store can be reached and has no row for the connector,
    [run_connector_pipeline] raises the [ValueError]
    "Connector <id> not found" of [read_connector_config]; and when the
    run record had been created, exactly one UPDATE is sent for it, with
    status failed, no row count, and the summary "Flow error: Connector
    <id> not found". *)
Theorem unknown_connector_fails_the_run oracle getenv DLT_AVAILABLE fuel
        connector_id project_id env flow_run_id :
  (forall h, raised (oracle h MetaConnect) = false) ->
  (forall h, raised (oracle h MetaClose) = false) ->
  (forall h, oracle h (SelectConnector connector_id) = Selected None) ->
  let run :=
    run_connector_pipeline oracle getenv DLT_AVAILABLE fuel connector_id
                           project_id env flow_run_id [] in
  let e :=
    Exn ValueError
        ("Connector " +:+ py_str (PInt connector_id) +:+ " not found") in
  fst run = Exc e
  /\ forall id,
       fst (create_run_record oracle connector_id flow_run_id []) = Ret id ->
       updates_issued (snd run) = [(id, Failed)]
       /\ exists r,
            In (UpdateRun id Failed None (Some (SFlowError e)), r) (snd run).
Proof.
  intros Hconnect Hclose Hrow.
  exact (unknown_connector_run oracle getenv DLT_AVAILABLE fuel connector_id
           project_id env flow_run_id [] Hconnect Hclose Hrow).
Qed.

(** No connector 7 in a store that answers every call. *)
Lemma unknown_connector_fails_the_run_witness :
  let run :=
    run_connector_pipeline (steady []) no_environment true 3 7
                           "acme" "dev" "run-1" [] in
  let e := Exn ValueError "Connector 7 not found" in
  fst run = Exc e
  /\ forall id,
       fst (create_run_record (steady []) 7 "run-1" []) = Ret id ->
       updates_issued (snd run) = [(id, Failed)]
       /\ exists r,
            In (UpdateRun id Failed None (Some (SFlowError e)), r) (snd run).
Proof.
  apply (unknown_connector_fails_the_run (steady []) no_environment true 3 7
           "acme" "dev" "run-1"); intros; reflexivity.
Defined.

(** * Configuration errors come before any call *)

Lemma missing_fields_in_order sc :
  missing_fields sc
  = List.filter (fun f => is_none (get sc f))
      ["host"; "port"; "database"; "username"; "password"; "query"].
Proof.
  unfold missing_fields, required_fields. cbn [List.filter map fst snd].
  repeat match goal with
         | |- context [is_none ?v] => destruct (is_none v)
         end; reflexivity.
Qed.

(** X12.  [handle_database_source] checks the six required fields before
    anything else: when one of host, port, database, username, password
    and query is absent or null, no call is made -- no connection, no
    file -- and the result is failed, with 0 rows and the message
    "Missing required source configuration fields: " followed by the
    absent ones, in that order, separated by ", ". *)
Theorem missing_source_field_stops_the_export oracle fuel config sc dc h f :
  In f ["host"; "port"; "database"; "username"; "password"; "query"] ->
  get sc f = PNone ->
  handle_database_source oracle fuel config sc dc h
  = (Ret (Result Failed 0
            (SError (Exn ValueError
               ("Missing required source configuration fields: "
                +:+ join_comma (missing_fields sc))))), h)
  /\ missing_fields sc
     = List.filter (fun g => is_none (get sc g))
         ["host"; "port"; "database"; "username"; "password"; "query"]
  /\ In f (missing_fields sc).
Proof.
  intros Hf Hnone.
  assert (Hin : In f (missing_fields sc))
    by (apply missing_fields_spec; split; assumption).
  split; [| split; [apply missing_fields_in_order | exact Hin]].
  unfold handle_database_source, try_except, missing_message.
  destruct (missing_fields sc) as [| g gs]; [destruct Hin |].
  reflexivity.
Qed.

(** Only the host is given. *)
Lemma missing_source_field_stops_the_export_witness :
  handle_database_source (steady []) 5 (export_to_s3 ∅)
                         (<["host" := PStr "db"]> ∅) outbox []
  = (Ret (Result Failed 0
            (SError (Exn ValueError
               ("Missing required source configuration fields: "
                +:+ join_comma
                      (missing_fields (<["host" := PStr "db"]> ∅)))))), [])
  /\ missing_fields (<["host" := PStr "db"]> ∅)
     = List.filter (fun g => is_none (get (<["host" := PStr "db"]> ∅) g))
         ["host"; "port"; "database"; "username"; "password"; "query"]
  /\ In "query" (missing_fields (<["host" := PStr "db"]> ∅)).
Proof.
  apply (missing_source_field_stops_the_export (steady []) 5 (export_to_s3 ∅)
           (<["host" := PStr "db"]> ∅) outbox [] "query").
  - simpl. tauto.
  - vm_compute. reflexivity.
Defined.

(** X13.  [transfer_csv_to_sftp] without a host or without a user name
    (absent, null or empty): no SFTP call is made; the handler looks for
    the scratch file and removes it, and the result is failed with 0 rows
    and the [ValueError] that names the two fields. *)
Theorem csv_sftp_needs_host_and_username oracle path name dc row_count h :
  truthy (get dc "host") = false \/ truthy (get dc "username") = false ->
  exists cleanup,
    transfer_csv_to_sftp oracle path name dc row_count h
    = (Ret (Result Failed 0
              (SError (Exn ValueError
                 "SFTP destination requires 'host' and 'username' in destination_config"))),
       (cleanup ++ h)%list)
    /\ forallb (fun e => is_cleanup (fst e)) cleanup = true.
Proof.
  intros Hmissing. unfold transfer_csv_to_sftp, try_except.
  assert (Hcheck : negb (truthy (get dc "host"))
                   || negb (truthy (get dc "username")) = true)
    by (destruct Hmissing as [-> | ->]; [| rewrite orb_true_r]; reflexivity).
  rewrite Hcheck. rewrite bind_raise.
  destruct (cleanup_on_error_outcome oracle path h) as (cl & Hcl & Hall).
  rewrite (bind_ret_run _ _ _ _ _ Hcl).
  exists cl. split; [reflexivity | exact Hall].
Qed.

(** The share has no user name: the scratch file is looked up and
    removed. *)
Lemma csv_sftp_needs_host_and_username_witness :
  exists cleanup,
    transfer_csv_to_sftp (steady []) "/tmp/scratch.csv" "orders.csv"
                         (<["host" := PStr "nas"]> ∅) 3 []
    = (Ret (Result Failed 0
              (SError (Exn ValueError
                 "SFTP destination requires 'host' and 'username' in destination_config"))),
       (cleanup ++ [])%list)
    /\ forallb (fun e => is_cleanup (fst e)) cleanup = true.
Proof.
  apply (csv_sftp_needs_host_and_username (steady []) "/tmp/scratch.csv"
           "orders.csv" (<["host" := PStr "nas"]> ∅) 3 []).
  right. vm_compute. reflexivity.
Defined.

(** * The flow server *)

(** X14.  [POST /trigger] answers 200 with status "success" whenever the
    flow returns, whatever the result says: for a request with a readable
    length, a JSON object as body and a connector id that is not falsy,
    when the flow returns the result [r], the response is 200 with the body
    [{'status': 'success', 'result': str(r)}] -- also when the status of
    [r] is failed. *)
Theorem trigger_answers_success_whatever_the_result
        flow now req fields h r h' :
  req_path req = "/trigger" ->
  req_length req = None ->
  req_body req = Object fields ->
  truthy (get fields "connector_id") = true ->
  flow (get fields "connector_id")
       (manual_run_id (get fields "connector_id") now) h
  = (Ret r, h') ->
  do_POST flow true now req h = (Ret (Response 200 (SuccessBody r)), h').
Proof.
  intros Hpath Hlength Hbody Hid Hflow.
  unfold do_POST. rewrite Hpath, Hlength, Hbody, String.eqb_refl.
  unfold try_except. rewrite bind_ret. rewrite Hid. cbn [negb].
  rewrite (bind_ret_run _ _ _ _ _ Hflow). reflexivity.
Qed.

(** The connector reads from a source type the pipeline does not know:
    the result is failed, the answer is 200. *)
Lemma trigger_answers_success_whatever_the_result_witness :
  let flow :=
    fun (v : pyval) run_id =>
      triggered_run with_queue_connector no_environment true 3 7 run_id in
  let req :=
    Request "/trigger" None (Object (<["connector_id" := PInt 7]> ∅)) in
  do_POST flow true 1700000000 req []
  = (Ret (Response 200
            (SuccessBody
               (Result Failed 0
                  (SError (Exn ValueError
                             "Unsupported source type: kafka"))))),
     snd (flow (PInt 7) "manual-7-1700000000" [])).
Proof.
  apply (trigger_answers_success_whatever_the_result
           (fun (v : pyval) run_id =>
              triggered_run with_queue_connector no_environment true 3 7
                            run_id)
           1700000000
           (Request "/trigger" None (Object (<["connector_id" := PInt 7]> ∅)))
           (<["connector_id" := PInt 7]> ∅) []).
  - reflexivity.
  - reflexivity.
  - reflexivity.
  - vm_compute. reflexivity.
  - vm_compute. reflexivity.
Defined.

(** X15.  [POST /trigger] for a connector that does not exist.  When the
    flow is the imported [run_connector_pipeline], the metadata store can
    be reached and has no row for the integer connector id [n] of the
    request ([n] not 0), the response is 500 with the body
    [{'error': 'Connector <n> not found'}]; the run was recorded under the
    id "manual-<n>-<time>", and when that record was created, one UPDATE
    to failed is sent for it. *)
Theorem trigger_for_unknown_connector oracle getenv DLT_AVAILABLE fuel
        flow now req fields n :
  (forall h, raised (oracle h MetaConnect) = false) ->
  (forall h, raised (oracle h MetaClose) = false) ->
  (forall h, oracle h (SelectConnector n) = Selected None) ->
  (forall run_id h,
     flow (PInt n) run_id h
     = triggered_run oracle getenv DLT_AVAILABLE fuel n run_id h) ->
  req_path req = "/trigger" ->
  req_length req = None ->
  req_body req = Object fields ->
  get fields "connector_id" = PInt n ->
  n <> 0 ->
  let served := do_POST flow true now req [] in
  fst served
  = Ret (Response 500
           (ErrorBody ("Connector " +:+ py_str (PInt n) +:+ " not found")))
  /\ forall id,
       fst (create_run_record oracle n (manual_run_id (PInt n) now) [])
       = Ret id ->
       updates_issued (snd served) = [(id, Failed)].
Proof.
  intros Hconnect Hclose Hrow Hflow Hpath Hlength Hbody Hid Hn. cbv zeta.
  pose proof (unknown_connector_run oracle getenv DLT_AVAILABLE fuel n
                "default_project" "None" (manual_run_id (PInt n) now) []
                Hconnect Hclose Hrow) as Hrun.
  cbv zeta in Hrun. destruct Hrun as [Hraised Hupdate].
  set (run := run_connector_pipeline oracle getenv DLT_AVAILABLE fuel n
                "default_project" "None" (manual_run_id (PInt n) now) [])
    in *.
  assert (Hserved :
    do_POST flow true now req []
    = (Ret (Response 500
              (ErrorBody ("Connector " +:+ py_str (PInt n)
                          +:+ " not found"))), snd run)).
  { unfold do_POST. rewrite Hpath, Hlength, Hbody, String.eqb_refl.
    unfold try_except. rewrite bind_ret. rewrite Hid.
    assert (Htruthy : truthy (PInt n) = true)
      by (simpl; apply negb_true_iff, Z.eqb_neq, Hn).
    rewrite Htruthy. cbn [negb].
    assert (Hf : flow (PInt n) (manual_run_id (PInt n) now) []
                 = (Exc (Exn ValueError
                           ("Connector " +:+ py_str (PInt n)
                            +:+ " not found")), snd run)).
    { rewrite Hflow. unfold triggered_run. fold run.
      destruct run as [o h']. simpl in Hraised. subst o. reflexivity. }
    rewrite (bind_exc_run _ _ _ _ _ Hf). reflexivity. }
  rewrite Hserved. split; [reflexivity |].
  intros id Hcreate. exact (proj1 (Hupdate id Hcreate)).
Qed.

(** No connector 7 in a store that answers every call. *)
Lemma trigger_for_unknown_connector_witness :
  let flow :=
    fun (v : pyval) run_id =>
      triggered_run (steady []) no_environment true 3 7 run_id in
  let req :=
    Request "/trigger" None (Object (<["connector_id" := PInt 7]> ∅)) in
  let served := do_POST flow true 1700000000 req [] in
  fst served = Ret (Response 500 (ErrorBody "Connector 7 not found"))
  /\ forall id,
       fst (create_run_record (steady []) 7 "manual-7-1700000000" [])
       = Ret id ->
       updates_issued (snd served) = [(id, Failed)].
Proof.
  apply (trigger_for_unknown_connector (steady []) no_environment true 3
           (fun (v : pyval) run_id =>
              triggered_run (steady []) no_environment true 3 7 run_id)
           1700000000
           (Request "/trigger" None (Object (<["connector_id" := PInt 7]> ∅)))
           (<["connector_id" := PInt 7]> ∅) 7);
    intros; try reflexivity.
  lia.
Defined.

(** * The placeholders of the destination path *)

Section Placeholders.

Variable oracle : history -> call -> reply.
Variables project_id env : string.

(** Text without braces is copied. *)
Lemma format_chars_text text rest expected h :
  forallb no_brace text = true ->
  (forall fuel, (length rest < fuel)%nat ->
     format_chars oracle fuel project_id env rest h = (Ret expected, h)) ->
  forall fuel, (length (text ++ rest) < fuel)%nat ->
    format_chars oracle fuel project_id env (text ++ rest)%list h
    = (Ret (text ++ expected)%list, h).
Proof.
  intros Htext Hrest. induction text as [| c text IH]; intros fuel Hfuel.
  { apply Hrest, Hfuel. }
  simpl in Htext. apply andb_prop in Htext as [Hc Htext].
  unfold no_brace in Hc. apply andb_prop in Hc as [Hopen Hclose].
  apply negb_true_iff in Hopen, Hclose.
  destruct fuel as [| fuel]; [simpl in Hfuel; lia |].
  cbn [app format_chars]. rewrite Hopen, Hclose.
  rewrite (bind_ret_run _ _ _ _ _ (IH Htext fuel ltac:(simpl in Hfuel; lia))).
  reflexivity.
Qed.

Lemma format_chars_env rest expected h :
  (forall fuel, (length rest < fuel)%nat ->
     format_chars oracle fuel project_id env rest h = (Ret expected, h)) ->
  forall fuel, (length (piece_chars TheEnv ++ rest) < fuel)%nat ->
    format_chars oracle fuel project_id env (piece_chars TheEnv ++ rest)%list h
    = (Ret (list_ascii_of_string env ++ expected)%list, h).
Proof.
  intros Hrest fuel Hfuel.
  destruct fuel as [| fuel]; [simpl in Hfuel; lia |].
  change (piece_chars TheEnv ++ rest)%list
    with ("{" :: "e" :: "n" :: "v" :: "}" :: rest)%char.
  cbn [format_chars]. cbn [Ascii.eqb Bool.eqb].
  cbn [scan_field Ascii.eqb Bool.eqb app].
  unfold render_field. cbn [is_plain_name forallb existsb negb orb andb
                             Ascii.eqb Bool.eqb string_of_list_ascii
                             String.eqb].
  rewrite bind_ret.
  rewrite (bind_ret_run _ _ _ _ _
             (Hrest fuel ltac:(simpl in Hfuel; lia))).
  reflexivity.
Qed.

Lemma format_chars_project rest expected h :
  (forall fuel, (length rest < fuel)%nat ->
     format_chars oracle fuel project_id env rest h = (Ret expected, h)) ->
  forall fuel, (length (piece_chars TheProject ++ rest) < fuel)%nat ->
    format_chars oracle fuel project_id env
                 (piece_chars TheProject ++ rest)%list h
    = (Ret (list_ascii_of_string project_id ++ expected)%list, h).
Proof.
  intros Hrest fuel Hfuel.
  destruct fuel as [| fuel]; [simpl in Hfuel; lia |].
  change (piece_chars TheProject ++ rest)%list
    with ("{" :: "p" :: "r" :: "o" :: "j" :: "e" :: "c" :: "t" :: "_"
              :: "i" :: "d" :: "}" :: rest)%char.
  cbn [format_chars]. cbn [Ascii.eqb Bool.eqb].
  cbn [scan_field Ascii.eqb Bool.eqb app].
  unfold render_field. cbn [is_plain_name forallb existsb negb orb andb
                             Ascii.eqb Bool.eqb string_of_list_ascii
                             String.eqb].
  rewrite bind_ret.
  rewrite (bind_ret_run _ _ _ _ _
             (Hrest fuel ltac:(simpl in Hfuel; lia))).
  reflexivity.
Qed.

(** [str.format] on a path made of plain text and the two placeholders. *)
Lemma format_chars_pieces pieces h :
  forallb plain pieces = true ->
  forall fuel, (length (flat_map piece_chars pieces) < fuel)%nat ->
    format_chars oracle fuel project_id env (flat_map piece_chars pieces) h
    = (Ret (flat_map (fill project_id env) pieces), h).
Proof.
  induction pieces as [| p pieces IH]; intros Hplain.
  { intros [| fuel] Hfuel; [simpl in Hfuel; lia | reflexivity]. }
  simpl in Hplain. apply andb_prop in Hplain as [Hp Hrest].
  specialize (IH Hrest). cbn [flat_map]. destruct p as [s | |].
  - apply format_chars_text; [exact Hp | exact IH].
  - apply format_chars_project, IH.
  - apply format_chars_env, IH.
Qed.

End Placeholders.

Lemma contains_later needle pre hay :
  PyStr.contains needle (string_of_list_ascii hay) = true ->
  PyStr.contains needle (string_of_list_ascii (pre ++ hay)) = true.
Proof.
  intros Hhay. induction pre as [| c pre IH]; [exact Hhay |].
  cbn [app string_of_list_ascii PyStr.contains]. rewrite IH.
  apply orb_true_r.
Qed.

Lemma prefix_chars a b :
  String.prefix (string_of_list_ascii a) (string_of_list_ascii (a ++ b))
  = true.
Proof.
  induction a as [| c a IH];
    [destruct (string_of_list_ascii ([] ++ b)); reflexivity |].
  cbn [app string_of_list_ascii String.prefix].
  destruct (ascii_dec c c); [exact IH | congruence].
Qed.

Lemma contains_placeholder p pieces :
  In p pieces ->
  (forall s, p <> Literal s) ->
  PyStr.contains (string_of_list_ascii (piece_chars p)) (template_of pieces)
  = true.
Proof.
  intros Hin Hfield. unfold template_of.
  induction pieces as [| q pieces IH]; [destruct Hin |].
  cbn [flat_map]. destruct Hin as [-> | Hin].
  - destruct p as [s | |]; [destruct (Hfield s eq_refl) | |];
      cbn [piece_chars list_ascii_of_string app string_of_list_ascii
           PyStr.contains];
      apply orb_true_iff; left;
      [exact (prefix_chars (piece_chars TheProject) _)
      | exact (prefix_chars (piece_chars TheEnv) _)].
  - apply contains_later, IH, Hin.
Qed.

Lemma literal_pieces project_id env pieces :
  ~ In TheProject pieces -> ~ In TheEnv pieces ->
  filled project_id env pieces = template_of pieces.
Proof.
  unfold filled, template_of. intros Hp He. f_equal.
  induction pieces as [| q pieces IH]; [reflexivity |].
  cbn [flat_map].
  rewrite IH by (intros H; first [apply Hp; right; exact H
                                 | apply He; right; exact H]).
  destruct q; [reflexivity | |].
  - destruct Hp. left. reflexivity.
  - destruct He. left. reflexivity.
Qed.

(** X16.  The placeholders of the destination path (lines 1092-1097).  For
    a path made of text without braces and the placeholders
    [{project_id}] and [{env}], [run_dlt_pipeline] replaces the path by
    the same text with every placeholder replaced by the value of
    [project_id] or [env], and does nothing else: no call is made, and a
    value is inserted as it is, braces included, without being formatted
    again. *)
Theorem placeholders_are_filled_in oracle dc project_id env pieces h :
  forallb plain pieces = true ->
  dc !! "path" = Some (PStr (template_of pieces)) ->
  resolve_destination_path oracle dc project_id env h
  = (Ret (<["path" := PStr (filled project_id env pieces)]> dc), h).
Proof.
  intros Hplain Hpath.
  unfold resolve_destination_path, has_key, get. rewrite Hpath.
  cbv [default from_option id].
  destruct (PyStr.contains "{project_id}" (template_of pieces)
            || PyStr.contains "{env}" (template_of pieces)) eqn:Efields.
  - unfold format, template_of. cbv zeta.
    rewrite list_ascii_of_string_of_list_ascii.
    rewrite (bind_ret_run _ _ _ _ _
               (bind_ret_run _ _ _ _ _
                  (format_chars_pieces oracle project_id env pieces h Hplain
                     _ (Nat.lt_succ_diag_r _)))).
    reflexivity.
  - apply orb_false_elim in Efields as [Hp He].
    rewrite literal_pieces; [rewrite bind_ret; reflexivity | |].
    + intros Hin.
      assert (Hc : PyStr.contains "{project_id}" (template_of pieces) = true)
        by exact (contains_placeholder TheProject pieces Hin
                    ltac:(discriminate)).
      congruence.
    + intros Hin.
      assert (Hc : PyStr.contains "{env}" (template_of pieces) = true)
        by exact (contains_placeholder TheEnv pieces Hin
                    ltac:(discriminate)).
      congruence.
Qed.

(** The environment is named "{project_id}": it is inserted as it is. *)
Lemma placeholders_are_filled_in_witness :
  resolve_destination_path (steady [])
    (<["path" := PStr "/mnt/{env}/{project_id}"]> ∅) "acme" "{project_id}" []
  = (Ret (<["path" := PStr "/mnt/{project_id}/acme"]>
            (<["path" := PStr "/mnt/{env}/{project_id}"]> ∅)), []).
Proof.
  apply (placeholders_are_filled_in (steady [])
           (<["path" := PStr "/mnt/{env}/{project_id}"]> ∅)
           "acme" "{project_id}"
           [Literal "/mnt/"; TheEnv; Literal "/"; TheProject] []).
  - reflexivity.
  - reflexivity.
Defined.

(** * A successful export leaves no scratch file *)

Lemma live_files_app older newer live :
  live_files (older ++ newer) live = live_files newer (live_files older live).
Proof.
  revert live. induction older as [| [c r] older IH]; intros live;
    [reflexivity |].
  cbn [app live_files].
  destruct c; try apply IH.
  - destruct r; apply IH.
  - destruct (raised r); apply IH.
Qed.

Lemma scratch_left_cons e h :
  scratch_left (e :: h) = live_files [e] (scratch_left h).
Proof.
  unfold scratch_left. cbn [rev]. apply live_files_app.
Qed.

Lemma scratch_quiet file c r h :
  is_scratch_call c = false -> scratch file h -> scratch file ((c, r) :: h).
Proof.
  unfold scratch. intros Hc <-. rewrite scratch_left_cons.
  destruct c; try discriminate; reflexivity.
Qed.

Lemma scratch_created p h :
  scratch None h -> scratch (Some p) ((NamedTemporaryFile, Text p) :: h).
Proof.
  unfold scratch. intros Hh. rewrite scratch_left_cons, Hh. reflexivity.
Qed.

Lemma scratch_removed p r h :
  raised r = false ->
  scratch (Some p) h -> scratch None ((Unlink p, r) :: h).
Proof.
  unfold scratch. intros Hr Hh. rewrite scratch_left_cons, Hh.
  cbn [live_files]. rewrite Hr. cbn [List.filter].
  rewrite String.eqb_refl. reflexivity.
Qed.

Lemma cleaned_up_quiet r c a h :
  is_scratch_call c = false -> cleaned_up r h -> cleaned_up r ((c, a) :: h).
Proof.
  intros Hc Hh Hok. apply (scratch_quiet None); [exact Hc | exact (Hh Hok)].
Qed.

Section Scratch.

Variable oracle : history -> call -> reply.

(** A call that neither creates nor removes a scratch file. *)
Lemma perform_idle file c :
  is_scratch_call c = false ->
  run_spec (scratch file) (perform oracle c)
           (returning (fun _ => scratch file)).
Proof.
  intros Hc. apply perform_returning. intros h r Hh _.
  apply scratch_quiet; assumption.
Qed.

Lemma ret_idle {A} file (a : A) :
  run_spec (scratch file) (ret a) (returning (fun _ => scratch file)).
Proof. apply ret_returning. auto. Qed.

Lemma raise_idle {A} file e :
  run_spec (scratch file) (raise e)
           (returning (fun _ : A => scratch file)).
Proof. apply raise_returning. Qed.

Ltac idle_step :=
  first
    [ apply ret_idle
    | apply raise_idle
    | apply perform_idle; reflexivity
    | match goal with
      | |- run_spec (scratch ?f) (bind _ _) _ =>
          apply bind_returning with (R := fun _ => scratch f); [| intros ?]
      | |- run_spec _ (if ?b then _ else _) _ => destruct b
      | |- run_spec _ (match ?x with _ => _ end) _ => destruct x
      end
    | progress unfold type_error, attribute_error, size_of, as_int, as_str,
        perform_, fetch_rows, fetchone, description, new_path,
        path_component, object_key ].

Ltac idle := repeat idle_step.

Lemma size_of_idle file c :
  is_scratch_call c = false ->
  run_spec (scratch file) (size_of oracle c)
           (returning (fun _ => scratch file)).
Proof.
  intros Hc. unfold size_of.
  apply bind_returning with (R := fun _ => scratch file);
    [apply perform_idle, Hc |].
  intros []; idle.
Qed.

Lemma write_batch_idle file target :
  forall rows n,
    run_spec (scratch file) (write_batch oracle target rows n)
             (returning (fun _ => scratch file)).
Proof.
  induction rows as [| [r |] rows IH]; intros n; cbn [write_batch].
  - idle.
  - apply bind_returning with (R := fun _ => scratch file);
      [apply perform_idle; reflexivity |].
    intros ?. apply IH.
  - apply IH.
Qed.

Lemma fetch_loop_idle file cursor batch_size target :
  forall fuel n batches,
    run_spec (scratch file)
      (fetch_loop oracle fuel cursor batch_size target n batches)
      (returning (fun _ => scratch file)).
Proof.
  induction fuel as [| fuel IH]; intros n batches; cbn [fetch_loop].
  { intros h o h' _ [= <- <-] a [=]. }
  destruct cursor.
  - apply bind_returning with (R := fun _ => scratch file); [idle |].
    intros size.
    apply bind_returning with (R := fun _ => scratch file); [idle |].
    intros rows.
    destruct rows as [| r rows]; [idle |].
    apply bind_returning with (R := fun _ => scratch file);
      [apply write_batch_idle | intros ?]. apply IH.
  - destruct (n =? 0); [| idle].
    apply bind_returning with (R := fun _ => scratch file); [idle |].
    intros rows.
    destruct rows as [| r rows]; [idle |]. apply write_batch_idle.
Qed.

Lemma discover_columns_idle file cursor :
  run_spec (scratch file) (discover_columns oracle cursor)
           (returning (fun _ => scratch file)).
Proof. unfold discover_columns. idle. Qed.

(** The scratch file comes into being ... *)
Lemma create_scratch :
  run_spec (scratch None) (new_path oracle NamedTemporaryFile)
           (returning (fun p => scratch (Some p))).
Proof.
  unfold new_path.
  apply bind_returning
    with (R := fun r h => match r with
                          | Text p => scratch (Some p) h
                          | _ => True
                          end).
  - apply perform_returning. intros h r Hh _.
    destruct r; try exact I. apply scratch_created, Hh.
  - intros []; first [apply raise_returning | apply ret_returning; auto].
Qed.

(** ... and goes when [os.unlink] returns. *)
Lemma remove_scratch p :
  run_spec (scratch (Some p)) (perform oracle (Unlink p))
           (returning (fun _ => scratch None)).
Proof.
  apply perform_returning. intros h r Hh Hr.
  apply scratch_removed; assumption.
Qed.

Lemma failed_cleaned_up {A} (m : M A) e :
  run_spec anywhere (m ;;; ret (Result Failed 0 (SError e)))
           (returning cleaned_up).
Proof.
  apply bind_returning_tail. intros _.
  apply ret_returning. intros h _ [=].
Qed.

Lemma success_cleaned_up n s :
  run_spec (scratch None) (ret (Result Success n s)) (returning cleaned_up).
Proof. apply ret_returning. intros h Hh _. exact Hh. Qed.

Lemma finally_idle r c h :
  is_scratch_call c = false ->
  cleaned_up r h ->
  run_spec (eq h) (perform_ oracle c) (fun _ h' => cleaned_up r h').
Proof.
  intros Hc Hh h0 o h' <-. unfold perform_, perform, bind.
  destruct (oracle h c); intros [= <- <-]; apply cleaned_up_quiet; assumption.
Qed.

Lemma finally_try_pass_idle r c h :
  is_scratch_call c = false ->
  cleaned_up r h ->
  run_spec (eq h) (try_pass (perform_ oracle c))
           (fun _ h' => cleaned_up r h').
Proof.
  intros Hc Hh h0 o h' <-.
  unfold try_pass, try_except, perform_, perform, bind.
  destruct (oracle h c); intros [= <- <-]; apply cleaned_up_quiet; assumption.
Qed.

(** Whatever a call that is no scratch call does, the scratch files stay. *)
Lemma perform_leaves file c h o h' :
  is_scratch_call c = false ->
  scratch file h ->
  perform oracle c h = (o, h') ->
  scratch file h'.
Proof.
  intros Hc Hh. unfold perform.
  destruct (oracle h c); intros [= <- <-]; apply scratch_quiet; assumption.
Qed.

(** Lines 627-631: [sftp.stat], and [sftp.mkdir] when it fails. *)
Lemma stat_or_mkdir_idle file dest :
  run_spec (scratch file)
    (try_except_if is_io_error
       (perform_ oracle (SftpStat dest))
       (fun _ => try_pass (perform_ oracle (SftpMkdir dest))))
    (returning (fun _ => scratch file)).
Proof.
  intros h o h' Hh.
  unfold try_except_if, try_pass, try_except, perform_, bind, ret.
  destruct (perform oracle (SftpStat dest) h) as [[r | e |] h1] eqn:E1.
  - intros [= <- <-] a _.
    exact (perform_leaves file (SftpStat dest) _ _ _ eq_refl Hh E1).
  - pose proof (perform_leaves file (SftpStat dest) _ _ _ eq_refl Hh E1) as H1.
    destruct (is_io_error e); [| intros [= <- <-] a [=]].
    destruct (perform oracle (SftpMkdir dest) h1) as [[r | e' |] h2] eqn:E2;
      intros [= <- <-] a _;
      exact (perform_leaves file (SftpMkdir dest) _ _ _ eq_refl H1 E2).
  - intros [= <- <-] a [=].
Qed.

Ltac then_idle :=
  match goal with
  | |- run_spec (scratch ?f) (bind _ _) _ =>
      apply bind_returning with (R := fun _ => scratch f);
      [solve [idle] | intros ?]
  end.

Lemma transfer_csv_to_sftp_cleans p name dc n :
  run_spec (scratch (Some p)) (transfer_csv_to_sftp oracle p name dc n)
           (returning cleaned_up).
Proof.
  unfold transfer_csv_to_sftp. cbv zeta.
  apply try_except_returning; [| intros e; apply failed_cleaned_up].
  do 2 then_idle.
  apply try_finally_returning;
    [| intros r h Hh; apply finally_try_pass_idle; [reflexivity | exact Hh]].
  do 3 then_idle.
  apply bind_returning with (R := fun _ => scratch (Some p));
    [apply stat_or_mkdir_idle | intros ?].
  do 4 then_idle.
  apply bind_returning with (R := fun _ => scratch None);
    [apply remove_scratch | intros ?; apply success_cleaned_up].
Qed.

Lemma transfer_csv_to_filesystem_cleans p name dc n :
  run_spec (scratch (Some p))
           (transfer_csv_to_filesystem oracle p name dc n)
           (returning cleaned_up).
Proof.
  unfold transfer_csv_to_filesystem. cbv zeta.
  apply try_except_returning; [| intros e; apply failed_cleaned_up].
  do 6 then_idle.
  apply bind_returning with (R := fun _ => scratch None);
    [apply remove_scratch | intros ?; apply success_cleaned_up].
Qed.

(** The scratch file of an export that writes to one, at [p]. *)
Lemma upload_to_s3_cleans (to_file : bool) p name chunk dc n :
  run_spec (scratch (if to_file then Some p else None))
           (upload_to_s3 oracle to_file p name chunk dc n)
           (returning cleaned_up).
Proof.
  unfold upload_to_s3. cbv zeta.
  apply bind_returning with (R := fun _ => scratch None).
  { destruct to_file; [| idle].
    do 3 then_idle.
    apply bind_returning with (R := fun _ => scratch None);
      [apply remove_scratch | intros ?; idle]. }
  intros size. do 4 then_idle. apply success_cleaned_up.
Qed.

Lemma deliver_file_cleans dt (to_file : bool) p name dc n :
  run_spec (scratch (if to_file then Some p else None))
    (deliver_file oracle dt to_file p name dc n)
    (returning (fun delivered h =>
                  match delivered with
                  | Some r => cleaned_up r h
                  | None => scratch (if to_file then Some p else None) h
                  end)).
Proof.
  unfold deliver_file.
  destruct (String.eqb dt "sftp" || String.eqb dt "nfs"
            || String.eqb dt "filesystem");
    [| apply ret_returning; auto].
  apply bind_returning with (R := fun q => scratch (Some q)).
  { destruct to_file.
    - apply bind_returning with (R := fun _ => scratch (Some p));
        [idle | intros ?; apply ret_returning; auto].
    - apply bind_returning with (R := fun q => scratch (Some q));
        [apply create_scratch | intros q].
      do 2 then_idle. apply ret_returning; auto. }
  intros q. destruct (String.eqb dt "sftp").
  - apply bind_returning with (R := cleaned_up);
      [apply transfer_csv_to_sftp_cleans
      | intros r; apply ret_returning; auto].
  - apply bind_returning with (R := cleaned_up);
      [apply transfer_csv_to_filesystem_cleans
      | intros r; apply ret_returning; auto].
Qed.

Lemma export_rows_cleans fuel dt sc dc name cursor columns first_row :
  run_spec (scratch None)
    (export_rows oracle fuel dt sc dc name cursor columns first_row)
    (returning cleaned_up).
Proof.
  unfold export_rows. cbv zeta.
  then_idle.
  match goal with
  | |- context [if ?u then new_path _ _ else _] =>
      generalize u; intros to_file
  end.
  apply bind_returning
    with (R := fun p => scratch (if to_file then Some p else None)).
  { destruct to_file; [apply create_scratch | apply ret_returning; auto]. }
  intros p. do 2 then_idle.
  apply bind_returning
    with (R := fun _ => scratch (if to_file then Some p else None));
    [apply fetch_loop_idle | intros n].
  destruct (n =? 0).
  - apply bind_returning with (R := fun _ => scratch None);
      [| intros ?; apply success_cleaned_up].
    destruct to_file; [| idle].
    then_idle. unfold perform_.
    apply bind_returning with (R := fun _ => scratch None);
      [apply remove_scratch | intros ?; idle].
  - eapply bind_returning; [apply deliver_file_cleans |].
    intros [r |]; [apply ret_returning; auto | apply upload_to_s3_cleans].
Qed.

Lemma handle_database_source_cleans fuel config sc dc :
  run_spec (scratch None) (handle_database_source oracle fuel config sc dc)
           (returning cleaned_up).
Proof.
  unfold handle_database_source. cbv zeta.
  apply try_except_returning;
    [| intros e; apply ret_returning; intros h _ [=]].
  do 3 then_idle.
  apply try_finally_returning;
    [| intros r h Hh; apply finally_idle; [reflexivity | exact Hh]].
  then_idle.
  apply try_finally_returning;
    [| intros r h Hh; apply finally_idle; [reflexivity | exact Hh]].
  then_idle.
  apply bind_returning with (R := fun _ => scratch None);
    [apply discover_columns_idle |].
  intros [[columns first_row] |];
    [apply export_rows_cleans | apply success_cleaned_up].
Qed.

End Scratch.

(** X17.  A database export that returns with status success leaves no
    scratch file behind: every file [tempfile.NamedTemporaryFile] created
    during the run was removed by an [os.unlink] that returned. *)
Theorem successful_export_leaves_no_scratch_file
        oracle fuel config source_config destination_config r :
  let run :=
    handle_database_source oracle fuel config source_config
                           destination_config [] in
  fst run = Ret r ->
  res_status r = Success ->
  scratch_left (snd run) = [].
Proof.
  intros run Hret Hok.
  refine (handle_database_source_cleans oracle fuel config source_config
            destination_config [] (fst run) (snd run) eq_refl _ r Hret Hok).
  unfold run. apply surjective_pairing.
Qed.

(** Two rows in batches of 5000 go through a scratch file, which is gone
    when the export returns. *)
Lemma successful_export_leaves_no_scratch_file_witness :
  let run :=
    handle_database_source (serves [order 1; order 2] ["id"]) 5
      (export_to_s3 (warehouse_batched 5000 true))
      (warehouse_batched 5000 true) outbox [] in
  In (NamedTemporaryFile, Text "/tmp/scratch.csv") (snd run)
  /\ scratch_left (snd run) = [].
Proof.
  split; [vm_compute; tauto |].
  apply (successful_export_leaves_no_scratch_file
           (serves [order 1; order 2] ["id"]) 5
           (export_to_s3 (warehouse_batched 5000 true))
           (warehouse_batched 5000 true) outbox
           (Result Success 2
              (SUploadedS3 2 0 (PStr "out") "done/export_20260101_000000.csv"))).
  - vm_compute. reflexivity.
  - reflexivity.
Defined.

(** * Every row of the query, whatever the destination *)

Section Delivery.

Variable oracle : history -> call -> reply.
Variable rows : list row.

(** The delivery of the CSV writes no row. *)
Ltac no_row := intros ? ? ?; assumption.

Ltac delivers_step :=
  first
    [ apply inv_ret | apply inv_raise
    | apply inv_as_str | apply inv_as_int
    | apply inv_perform_; no_row
    | apply inv_perform; no_row
    | apply inv_bind; [| intros ?]
    | apply inv_try_except_if; [| intros ?]
    | apply inv_try_except; [| intros ?]
    | apply inv_try_finally
    | match goal with
      | |- run_spec _ (if ?b then _ else _) _ => destruct b
      | |- run_spec _ (match ?x with _ => _ end) _ => destruct x
      end
    | progress unfold type_error, attribute_error, new_path, size_of,
        try_pass, cleanup_on_error, path_component, object_key ].

Ltac delivers := repeat delivers_step.

Lemma transfer_csv_to_sftp_writes_no_row path name dc n :
  run_spec (fun h => rows_written h = rows)
           (transfer_csv_to_sftp oracle path name dc n)
           (always (fun h => rows_written h = rows)).
Proof. unfold transfer_csv_to_sftp. delivers. Qed.

Lemma transfer_csv_to_filesystem_writes_no_row path name dc n :
  run_spec (fun h => rows_written h = rows)
           (transfer_csv_to_filesystem oracle path name dc n)
           (always (fun h => rows_written h = rows)).
Proof. unfold transfer_csv_to_filesystem. delivers. Qed.

Lemma upload_to_s3_writes_no_row to_file path name chunk dc n :
  run_spec (fun h => rows_written h = rows)
           (upload_to_s3 oracle to_file path name chunk dc n)
           (always (fun h => rows_written h = rows)).
Proof. unfold upload_to_s3. delivers. Qed.

Lemma deliver_file_writes_no_row dt to_file path name dc n :
  run_spec (fun h => rows_written h = rows)
           (deliver_file oracle dt to_file path name dc n)
           (always (fun h => rows_written h = rows)).
Proof.
  unfold deliver_file.
  destruct (String.eqb dt "sftp" || String.eqb dt "nfs"
            || String.eqb dt "filesystem"); [| apply inv_ret].
  apply inv_bind; [delivers | intros final].
  destruct (String.eqb dt "sftp");
    (apply inv_bind; [| intros; apply inv_ret]).
  - apply transfer_csv_to_sftp_writes_no_row.
  - apply transfer_csv_to_filesystem_writes_no_row.
Qed.

(** A delivery that succeeds reports the rows it was given. *)
Lemma transfer_csv_to_sftp_reports path name dc n :
  run_spec anywhere (transfer_csv_to_sftp oracle path name dc n)
           (returning (fun r _ => reports n r)).
Proof.
  unfold transfer_csv_to_sftp.
  apply try_except_returning.
  - repeat (apply bind_returning_tail; intros ?).
    apply try_finally_returning; [| intros r h Hr h0 o h' _ _; exact Hr].
    repeat (apply bind_returning_tail; intros ?).
    apply ret_returning. intros h _ _. reflexivity.
  - intros e. apply bind_returning_tail. intros _.
    apply ret_returning. intros h _ [=].
Qed.

Lemma transfer_csv_to_filesystem_reports path name dc n :
  run_spec anywhere (transfer_csv_to_filesystem oracle path name dc n)
           (returning (fun r _ => reports n r)).
Proof.
  unfold transfer_csv_to_filesystem.
  apply try_except_returning.
  - repeat (apply bind_returning_tail; intros ?).
    apply ret_returning. intros h _ _. reflexivity.
  - intros e. apply bind_returning_tail. intros _.
    apply ret_returning. intros h _ [=].
Qed.

Lemma upload_to_s3_reports to_file path name chunk dc n :
  run_spec anywhere (upload_to_s3 oracle to_file path name chunk dc n)
           (returning (fun r _ => reports n r)).
Proof.
  unfold upload_to_s3.
  repeat (apply bind_returning_tail; intros ?).
  apply ret_returning. intros h _ _. reflexivity.
Qed.

Lemma deliver_file_reports dt to_file path name dc n :
  run_spec anywhere (deliver_file oracle dt to_file path name dc n)
           (returning (fun delivered _ =>
                         match delivered with
                         | Some r => reports n r
                         | None => True
                         end)).
Proof.
  unfold deliver_file.
  destruct (String.eqb dt "sftp" || String.eqb dt "nfs"
            || String.eqb dt "filesystem");
    [| apply ret_returning; auto].
  apply bind_returning_tail. intros final.
  destruct (String.eqb dt "sftp").
  - eapply bind_returning; [apply transfer_csv_to_sftp_reports |].
    intros r. apply ret_returning. auto.
  - eapply bind_returning; [apply transfer_csv_to_filesystem_reports |].
    intros r. apply ret_returning. auto.
Qed.

(** What is left of [export_rows] after the fetch loop, with [n] rows
    counted: it writes no row, comes to an end, and a result with status
    success reports [n] rows. *)
Lemma delivery_writes_no_row dt sc dc (to_file : bool) path name n :
  run_spec (fun h => rows_written h = rows)
    (if n =? 0 then
       (if to_file then
          perform oracle (CloseFile path) ;;; perform_ oracle (Unlink path)
        else ret tt) ;;;
       ret (Result Success 0 SNoRows)
     else
       delivered <- deliver_file oracle dt to_file path name dc n ;;
       match delivered with
       | Some r => ret r
       | None =>
           upload_to_s3 oracle to_file path name
                        (get_or sc "chunk_size_mb" (PInt 5)) dc n
       end)
    (always (fun h => rows_written h = rows)).
Proof.
  destruct (n =? 0); [delivers |].
  apply inv_bind; [apply deliver_file_writes_no_row |].
  intros [r |]; [apply inv_ret | apply upload_to_s3_writes_no_row].
Qed.

Lemma delivery_reports dt sc dc (to_file : bool) path name n :
  run_spec anywhere
    (if n =? 0 then
       (if to_file then
          perform oracle (CloseFile path) ;;; perform_ oracle (Unlink path)
        else ret tt) ;;;
       ret (Result Success 0 SNoRows)
     else
       delivered <- deliver_file oracle dt to_file path name dc n ;;
       match delivered with
       | Some r => ret r
       | None =>
           upload_to_s3 oracle to_file path name
                        (get_or sc "chunk_size_mb" (PInt 5)) dc n
       end)
    (returning (fun r _ => reports n r)).
Proof.
  destruct (n =? 0) eqn:Hzero.
  - apply Z.eqb_eq in Hzero. subst n.
    apply bind_returning_tail. intros _.
    apply ret_returning. intros ? _ _. reflexivity.
  - eapply bind_returning; [apply deliver_file_reports |].
    intros [r |]; [apply ret_returning; auto |].
    apply anywhere_returning, upload_to_s3_reports.
Qed.

End Delivery.

(** C9, amended.  Against a source database that answers the query with
    [rows], every other call of the export succeeding, for every batch
    size of at least 1, on the server-side cursor path (first row peeked,
    then [fetchmany] rounds) as on the full-fetch path, with or without a
    scratch file and for every destination type: the export ends with a
    result, exactly these rows were handed to the CSV writer, in order,
    and a result with status success reports their number as
    [rows_ingested]; for the object store as destination (with a prefix
    and a file name that are strings) the status is success.  [fuel] only
    has to exceed the number of rows. *)
Theorem export_writes_every_row
        (rows : list row) (columns : list string) (B : Z) (cursor : bool)
        fuel config sc dc :
  1 <= B ->
  columns <> [] ->
  (length rows < fuel)%nat ->
  missing_fields sc = [] ->
  get_or sc "batch_size" (PInt 10000) = PInt B ->
  truthy (get_or sc "use_server_side_cursor" (PBool true)) = cursor ->
  exists r h,
    handle_database_source (serves rows columns) fuel config sc dc []
    = (Ret r, h)
    /\ rows_written h = rows
    /\ reports (Z.of_nat (length rows)) r
    /\ (String.eqb (destination_type config) "sftp"
        || String.eqb (destination_type config) "nfs"
        || String.eqb (destination_type config) "filesystem" = false ->
        (exists prefix, get_or dc "prefix" (PStr "processed/") = PStr prefix) ->
        names_a_file (get sc "csv_filename") ->
        res_status r = Success).
Proof.
  intros HB Hcolumns Hfuel Hmissing Hbatch Hcursor.
  destruct (handle_database_source_serves rows columns cursor fuel config
              sc dc Hcolumns Hmissing Hcursor)
    as (name & h4 & _ & Hs4 & Hw4 & Hrun).
  destruct (export_rows_loop_serves rows columns fuel (destination_type config)
              sc dc name cursor B h4 HB Hfuel Hbatch Hs4 Hw4)
    as (to_file & path & h5 & Hw5 & Hexport).
  destruct (export_rows (serves rows columns) fuel (destination_type config)
              sc dc name cursor columns (if cursor then head rows else None)
              h4) as [o h6] eqn:Eexport.
  symmetry in Hexport.
  destruct (delivery_writes_no_row (serves rows columns) rows
              (destination_type config) sc dc to_file path name
              (Z.of_nat (length rows)) h5 o h6 Hw5 Hexport)
    as [Hw6 Hfuel6].
  pose proof (delivery_reports (serves rows columns)
                (destination_type config) sc dc to_file path name
                (Z.of_nat (length rows)) h5 o h6 I Hexport) as Hreports.
  assert (Ho : o <> OutOfFuel) by (intros ->; apply Hfuel6; reflexivity).
  specialize (Hrun o h6 eq_refl Ho).
  eexists. eexists. split; [exact Hrun |].
  split; [exact Hw6 |]. split.
  - destruct o as [r | e |]; [apply Hreports; reflexivity | | congruence].
    intros [=].
  - intros Hdt [prefix Hprefix] Hfile.
    destruct (export_to_object_store_serves rows columns B cursor fuel
                config sc dc prefix HB Hcolumns Hfuel Hmissing Hbatch
                Hcursor Hdt Hprefix Hfile) as (text & h & Hstore & _).
    rewrite Hrun in Hstore. injection Hstore as Hr _.
    rewrite Hr. reflexivity.
Qed.

(** Three rows in batches of 5000, through a scratch file to a share over
    SFTP, and three rows in batches of 2 to the object store. *)
Lemma export_writes_every_row_witness :
  (exists r h,
     handle_database_source (serves [order 1; order 2; order 3] ["id"]) 4
       (export_to_sftp (warehouse_batched 5000 true))
       (warehouse_batched 5000 true) sftp_share []
     = (Ret r, h)
     /\ rows_written h = [order 1; order 2; order 3]
     /\ reports 3 r)
  /\ (exists r h,
        handle_database_source (serves [order 1; order 2; order 3] ["id"]) 4
          (export_to_s3 (warehouse_batched 2 true))
          (warehouse_batched 2 true) outbox []
        = (Ret r, h)
        /\ rows_written h = [order 1; order 2; order 3]
        /\ reports 3 r
        /\ res_status r = Success).
Proof.
  split.
  - destruct (export_writes_every_row
                [order 1; order 2; order 3] ["id"] 5000 true 4
                (export_to_sftp (warehouse_batched 5000 true))
                (warehouse_batched 5000 true) sftp_share
                ltac:(lia) ltac:(discriminate) ltac:(simpl; lia)
                ltac:(vm_compute; reflexivity) ltac:(vm_compute; reflexivity)
                ltac:(vm_compute; reflexivity))
      as (r & h & Hrun & Hrows & Hreports & _).
    exists r, h. auto.
  - destruct (export_writes_every_row
                [order 1; order 2; order 3] ["id"] 2 true 4
                (export_to_s3 (warehouse_batched 2 true))
                (warehouse_batched 2 true) outbox
                ltac:(lia) ltac:(discriminate) ltac:(simpl; lia)
                ltac:(vm_compute; reflexivity) ltac:(vm_compute; reflexivity)
                ltac:(vm_compute; reflexivity))
      as (r & h & Hrun & Hrows & Hreports & Hstore).
    exists r, h. split; [exact Hrun |]. split; [exact Hrows |].
    split; [exact Hreports |].
    apply Hstore; [reflexivity | |].
    + exists "done/". vm_compute. reflexivity.
    + left. vm_compute. reflexivity.
Defined.

(** On the way to a share the scratch file is handed over as it is: the
    three rows went to the writer, and between the last of them and the
    upload the file is neither closed nor flushed. *)
Example scratch_file_is_handed_over_open :
  let run :=
    handle_database_source (serves [order 1; order 2; order 3] ["id"]) 4
      (export_to_sftp (warehouse_batched 5000 true))
      (warehouse_batched 5000 true) sftp_share [] in
  fst run
  = Ret (Result Success 3
           (SUploadedSftp 3 0 "/share/export_20260101_000000.csv"))
  /\ map fst (rev (snd run))
     = [ Timestamp;
         SourceConnect (PStr "db") (PInt 5432) (PStr "sales")
                       (PStr "reader") (PStr "secret");
         SetSession; OpenCursor true; Execute (PStr "SELECT id FROM orders");
         FetchOne; Description; NamedTemporaryFile;
         WriteHeader (ToFile "/tmp/scratch.csv") ["id"];
         WriteRow (ToFile "/tmp/scratch.csv") (order 1);
         FetchMany 5000;
         WriteRow (ToFile "/tmp/scratch.csv") (order 2);
         WriteRow (ToFile "/tmp/scratch.csv") (order 3);
         FetchMany 5000; GetSize "/tmp/scratch.csv";
         Transport (PStr "nas") (PInt 22);
         TransportConnect (PStr "etl") false; SftpFromTransport;
         SftpStat "/share/";
         SftpPut "/tmp/scratch.csv" "/share/export_20260101_000000.csv";
         GetSize "/tmp/scratch.csv"; SftpClose; TransportClose;
         Unlink "/tmp/scratch.csv"; TransportClose; CloseCursor;
         CloseSource ].
Proof. vm_compute. split; reflexivity. Qed.

(** A file name that is no string cannot be joined to the destination
    directory: the export to a directory fails with the [TypeError] of
    [os.path.join], and reports no rows. *)
Example numeric_csv_filename_fails_the_join :
  let sc := <["csv_filename" := PInt 5]> warehouse in
  let dc : dict := <["path" := PStr "/mnt/out"]> ∅ in
  fst (handle_database_source (serves [order 1] ["id"]) 4
         (Config 9 "orders export" "database" sc "filesystem" dc) sc dc [])
  = Ret (Result Failed 0
           (SError (Exn TypeError
              "join() argument must be str, bytes, or os.PathLike object"))).
Proof. vm_compute. reflexivity. Qed.

(** With an empty prefix the same file name is the key as it is, and the
    upload refuses it; with a prefix it is formatted into the key. *)
Example numeric_csv_filename_is_no_key :
  let sc := <["csv_filename" := PInt 5]> warehouse in
  fst (handle_database_source (serves [order 1] ["id"]) 4 (export_to_s3 sc)
         sc (<["prefix" := PStr ""]> outbox) [])
  = Ret (Result Failed 0
           (SError (Exn OtherError
              "Parameter validation failed: Invalid type for parameter Key")))
  /\ fst (handle_database_source (serves [order 1] ["id"]) 4
            (export_to_s3 sc) sc outbox [])
     = Ret (Result Success 1 (SUploadedS3 1 0 (PStr "out") "done/5")).
Proof. vm_compute. split; reflexivity. Qed.
